(** * NoiseLake: clocked noise, state-variable filter and wavefolder

    A shallow embedding of the NoiseLake Hemisphere applet
    (software/o_c_REV/HEM_NoiseLake.ino) and of its two sibling versions:
    the early two-channel draft and the single-filter version with the
    interpolated wavefolder.

    Conventions.
    - A C++ integer of width w is a [Z]; every store into a narrower
      variable is written out with [u8], [u16], [u32], [u64], [i16], [i32].
      Arithmetic on operands promoted to [int] is exact whenever the
      operands are at most 16 bits wide.
    - [/] and [%] of C++ truncate toward zero: [Z.quot] and [Z.rem].
      A division by a literal constant is written with [Z.quot]; every
      other division goes through [cdiv] or [crem].
    - A division by zero and a table access out of bounds are faults of
      the [result] monad.
    - The pseudo random generator, the gate inputs and the contents of
      uninitialised locals are inputs of a tick. *)

From Stdlib Require Import ZArith List Bool Lia.
Import ListNotations.
Local Open Scope Z_scope.

Ltac Zify.zify_post_hook ::= Z.to_euclidean_division_equations.

(* ------------------------------------------------------------------ *)
(** ** Fixed-width integers *)

Module Fixed.

Definition uwrap (w x : Z) : Z := x mod 2 ^ w.
Definition swrap (w x : Z) : Z := (x + 2 ^ (w - 1)) mod 2 ^ w - 2 ^ (w - 1).

Definition u8 := uwrap 8.
Definition u16 := uwrap 16.
Definition u32 := uwrap 32.
Definition u64 := uwrap 64.
Definition i16 := swrap 16.
Definition i32 := swrap 32.

Definition in_i16 (x : Z) : Prop := -32768 <= x <= 32767.

End Fixed.
Import Fixed.

(* ------------------------------------------------------------------ *)
(** ** Faults *)

Inductive fault : Type := DivByZero | OutOfBounds.

Inductive result (A : Type) : Type :=
| Ok (a : A)
| Fault (e : fault).
Arguments Ok {A} a.
Arguments Fault {A} e.

Definition bind {A B : Type} (r : result A) (k : A -> result B) : result B :=
  match r with
  | Ok a => k a
  | Fault e => Fault e
  end.

Notation "x <- r ;; k" := (bind r (fun x => k))
  (at level 61, r at next level, right associativity).
Notation "' p <- r ;; k" := (bind r (fun x => let p := x in k))
  (at level 61, p pattern, r at next level, right associativity).

(** [a / b] on C++ integers. *)
Definition cdiv (a b : Z) : result Z :=
  if b =? 0 then Fault DivByZero else Ok (Z.quot a b).

(** [a % b] on C++ integers. *)
Definition crem (a b : Z) : result Z :=
  if b =? 0 then Fault DivByZero else Ok (Z.rem a b).

(** [tbl[i]] on a fixed-size array. *)
Definition lookup (tbl : list Z) (i : Z) : result Z :=
  if i <? 0 then Fault OutOfBounds
  else match nth_error tbl (Z.to_nat i) with
       | Some v => Ok v
       | None => Fault OutOfBounds
       end.

(* ------------------------------------------------------------------ *)
(** ** Host collaborators *)

Module Host.

(** The Arduino core's [random] lies outside the repository. A draw
    reduces a raw generator word [r] into the half-open range, as the
    core does: [random(howbig) = r % howbig] and
    [random(lo, hi) = lo + random(hi - lo)]. *)
Definition random_to (r howbig : Z) : Z :=
  if howbig =? 0 then 0 else r mod howbig.

Definition random (r lo hi : Z) : Z :=
  if lo >=? hi then lo else random_to r (hi - lo) + lo.

(** The Arduino macro [constrain(amt, low, high)]. *)
Definition constrain (amt low high : Z) : Z :=
  if amt <? low then low else if amt >? high then high else amt.

(** Modelled from the spec: [Proportion] of the applet base class
    (HemisphereApplet.h, not part of the sources at hand), the
    proportional scaling [(p * out_max) / p_max] of section 4.5. *)
Definition Proportion (p p_max out_max : Z) : result Z :=
  cdiv (p * out_max) p_max.

(** The filter of tiny_dsp.h and the constant [HEMISPHERE_MAX_CV] are
    taken as an interface: one persistent filter object per channel,
    [feed] updating it and four taps reading it. *)
Class Env (F : Type) : Type := {
  filter_init : F;
  feed : F -> Z -> Z -> Z -> F;
  get_lp : F -> Z;
  get_bp : F -> Z;
  get_hp : F -> Z;
  get_no : F -> Z;
  HEMISPHERE_MAX_CV : Z
}.

End Host.
Import Host.

(* ------------------------------------------------------------------ *)
(** ** Channels, per-channel arrays and the observable trace *)

Inductive channel : Type := Ch0 | Ch1.

Record two (A : Type) : Type := Two { at0 : A; at1 : A }.
Arguments Two {A} at0 at1.
Arguments at0 {A} t.
Arguments at1 {A} t.

Definition get {A : Type} (t : two A) (ch : channel) : A :=
  match ch with Ch0 => at0 t | Ch1 => at1 t end.

Definition set {A : Type} (t : two A) (ch : channel) (v : A) : two A :=
  match ch with
  | Ch0 => Two v (at1 t)
  | Ch1 => Two (at0 t) v
  end.

(** What a tick does to its collaborators: the calls of [filter.feed]
    and of [Out], in program order. *)
Inductive event : Type :=
| EvFeed (ch : channel) (input freq q : Z)
| EvOut (ch : channel) (v : Z).



Fixpoint out_of (ch : channel) (tr : list event) : option Z :=
  match tr with
  | [] => None
  | EvOut Ch0 v :: tr' =>
      match ch with Ch0 => Some v | Ch1 => out_of ch tr' end
  | EvOut Ch1 v :: tr' =>
      match ch with Ch1 => Some v | Ch0 => out_of ch tr' end
  | EvFeed _ _ _ _ :: tr' => out_of ch tr'
  end.

Fixpoint fed_to (ch : channel) (tr : list event) : option Z :=
  match tr with
  | [] => None
  | EvFeed Ch0 x _ _ :: tr' =>
      match ch with Ch0 => Some x | Ch1 => fed_to ch tr' end
  | EvFeed Ch1 x _ _ :: tr' =>
      match ch with Ch1 => Some x | Ch0 => fed_to ch tr' end
  | EvOut _ _ :: tr' => fed_to ch tr'
  end.

Record FilterState : Type := mkFilterState { f : Z; q : Z; mode : Z }.

Definition FILTER_MODE_OFF : Z := 0.
Definition FILTER_MODE_LP : Z := 1.
Definition FILTER_MODE_BP : Z := 2.
Definition FILTER_MODE_HP : Z := 3.
Definition FILTER_MODE_NOTCH : Z := 4.

Definition NOISE_MODE_WHITE : Z := 0.
Definition NOISE_MODE_BITFLIP : Z := 1.
Definition NOISE_MODE_CRACKLE : Z := 2.
Definition NOISE_MODE_LINEIN : Z := 3.

(** The switch over the filter mode; without a matching case the local
    [signal[ch]] keeps its indeterminate content [undef]. *)
Definition tap {F : Type} `{Env F} (m : Z) (noise : Z) (flt : F) (undef : Z) : Z :=
  if m =? FILTER_MODE_OFF then noise
  else if m =? FILTER_MODE_LP then i16 (get_lp flt)
  else if m =? FILTER_MODE_BP then i16 (get_bp flt)
  else if m =? FILTER_MODE_HP then i16 (get_hp flt)
  else if m =? FILTER_MODE_NOTCH then i16 (get_no flt)
  else undef.

(** The phase clock shared by the versions with a 64-bit phase. *)
Definition CLK_PHI_MAX : Z := 65535.
Definition FSAMPLE_CHZ : Z := 1666667.

Definition CLKSetCFreq (cfreq : Z) : Z :=
  Z.quot (u64 (u64 cfreq * CLK_PHI_MAX)) FSAMPLE_CHZ.

(** [clk_phi += clk_dphi; if (clk_phi >= CLK_PHI_MAX) clk_phi -= CLK_PHI_MAX;]
    returning the new phase and whether the phase wrapped. *)
Definition clk_advance (clk_phi clk_dphi : Z) : Z * bool :=
  let phi := u64 (clk_phi + clk_dphi) in
  if phi >=? CLK_PHI_MAX then (u64 (phi - CLK_PHI_MAX), true) else (phi, false).

(** [n] consecutive advances: final phase and number of wraps. *)
Fixpoint clk_run (n : nat) (clk_phi clk_dphi : Z) : Z * Z :=
  match n with
  | O => (clk_phi, 0)
  | S n' =>
      let '(phi, wrapped) := clk_advance clk_phi clk_dphi in
      let '(phi', wraps) := clk_run n' phi clk_dphi in
      (phi', (if wrapped then 1 else 0) + wraps)
  end.

(** The two folders that both later versions carry unchanged. *)
Definition WaveFolderSimple (signal limit : Z) : Z :=
  let signal := if signal >? limit then i16 (2 * limit - signal) else signal in
  let signal := if signal <? - limit then i16 (-2 * limit - signal) else signal in
  signal.

Definition WaveFolder (signal limit : Z) : result Z :=
  let signal := i16 (signal + limit) in
  r <- crem signal (2 * limit) ;;
  let out := i16 r in
  let out := if out <? 0 then i16 (- out) else out in
  d <- cdiv signal (2 * limit) ;;
  let out := if Z.rem d 2 =? 0 then i16 (2 * limit - out) else out in
  Ok (i16 (out - limit)).

(* ------------------------------------------------------------------ *)
(** ** HEM_NoiseLake.ino: two filtered channels, Crackle noise *)

Module NoiseLake.

Definition BNC_MAX_PARAM : Z := 63.
Definition NOISE_VALUE_MAX : Z := 2047.

Definition FREQ_SCALE : list Z :=
  [   50;    55;    60;    66;    72;    79;    87;    95;   105;
     115;   126;   138;   151;   166;   182;   199;   219;   240;
     263;   288;   316;   347;   380;   417;   457;   501;   550;
     603;   661;   725;   795;   872;   956;  1048;  1150;  1261;
    1382;  1516;  1662;  1823;  1999;  2192;  2404;  2636;  2891;
    3170;  3476;  3812;  4180;  4584;  5026;  5512;  6044;  6628;
    7269;  7971;  8741;  9585; 10511; 11526; 12639; 13860; 15199;
   16667].

Definition Parameter2Frequency (p : Z) : result Z :=
  let p := u8 p in
  v <- Proportion p BNC_MAX_PARAM 969 ;;
  Ok (u16 (v + 30)).

Definition Parameter2Clk (p : Z) : result Z :=
  let p := u8 p in
  let p := if p <? 64 then p else 63 in
  v <- lookup FREQ_SCALE p ;;
  Ok (u16 v).

(** The noise source of one tick: new phase and new noise value.
    [rnd1] and [rnd2] are the raw generator words of the first and of
    the second call of [random] in the tick. *)
Definition noise_source (noise_mode clk_phi clk_dphi noise rnd1 rnd2 : Z)
  : result (Z * Z) :=
  if noise_mode =? NOISE_MODE_CRACKLE then
    let eta := u16 (random rnd1 0 CLK_PHI_MAX) in
    if eta <? clk_dphi then
      d <- cdiv clk_dphi eta ;;
      let a := i16 d in
      let a := if a >? 8 then 8 else a in
      let a := i16 (a * (if random_to rnd2 2 >? 0 then 1 else -1)) in
      Ok (clk_phi, i16 (Z.quot (a * NOISE_VALUE_MAX) 8))
    else
      Ok (clk_phi, i16 (Z.quot (noise * 3) 4))
  else
    let '(phi, wrapped) := clk_advance clk_phi clk_dphi in
    if wrapped then
      if noise_mode =? NOISE_MODE_BITFLIP then
        let n := i16 (noise + NOISE_VALUE_MAX) in
        let n := i16 (Z.lxor n (Z.shiftl 1 (random rnd1 0 12))) in
        let n := i16 (n - NOISE_VALUE_MAX) in
        Ok (phi, n)
      else
        Ok (phi, i16 (random rnd1 (- NOISE_VALUE_MAX) NOISE_VALUE_MAX))
    else
      Ok (phi, noise).

Section Applet.

Context {F : Type} `{Env F}.

Record state : Type := mkState {
  cursor : Z;
  noise_mode : Z;
  filter : two F;
  state_filter : two FilterState;
  state_clock : Z;
  clk_phi : Z;
  clk_dphi : Z;
  noise : Z;
  _noise : two Z
}.

(** What the host hands to one tick. *)
Record tick_in : Type := mkTickIn {
  rnd1 : Z;
  rnd2 : Z;
  Gate : two bool;
  undef_signal : two Z
}.

(** The object as the runtime builds it: static storage is zeroed, then
    the member initialisers run. *)
Definition power_on : state :=
  {| cursor := 0; noise_mode := 0;
     filter := Two filter_init filter_init;
     state_filter := Two (mkFilterState 0 0 0) (mkFilterState 0 0 0);
     state_clock := 63; clk_phi := 0; clk_dphi := 0;
     noise := 0; _noise := Two 0 0 |}.

Definition Start (s : state) (rnd : Z) : state :=
  {| cursor := cursor s;
     noise_mode := NOISE_MODE_BITFLIP;
     filter := filter s;
     state_filter :=
       Two (mkFilterState 32 32 FILTER_MODE_LP) (mkFilterState 32 32 FILTER_MODE_BP);
     state_clock := state_clock s;
     clk_phi := clk_phi s;
     clk_dphi := CLKSetCFreq FSAMPLE_CHZ;
     noise := i16 (random rnd 0 NOISE_VALUE_MAX);
     _noise := _noise s |}.

(** The body of [ForEachChannel(ch)] in [Controller]. *)
Definition channel_body (i : tick_in) (ch : channel) (acc : state * list event)
  : result (state * list event) :=
  let '(s, tr) := acc in
  let held := if negb (get (Gate i) ch) then set (_noise s) ch (noise s) else _noise s in
  let sf := get (state_filter s) ch in
  p2f <- Parameter2Frequency (f sf) ;;
  let freq := i32 p2f in
  let freq := i32 (freq * 100) in
  pq <- Proportion (q sf) BNC_MAX_PARAM 2020 ;;
  let qv := i32 pq in
  let flt := feed (get (filter s) ch) (get held ch) freq qv in
  let signal := tap (mode sf) (get held ch) flt (get (undef_signal i) ch) in
  Ok ({| cursor := cursor s; noise_mode := noise_mode s;
         filter := set (filter s) ch flt;
         state_filter := state_filter s;
         state_clock := state_clock s;
         clk_phi := clk_phi s; clk_dphi := clk_dphi s;
         noise := noise s; _noise := held |},
      tr ++ [EvFeed ch (get held ch) freq qv; EvOut ch (Z.quot signal 2)]).

Definition Controller (s : state) (i : tick_in) : result (state * list event) :=
  '(phi, n) <- noise_source (noise_mode s) (clk_phi s) (clk_dphi s) (noise s)
                            (rnd1 i) (rnd2 i) ;;
  let s1 := {| cursor := cursor s; noise_mode := noise_mode s;
               filter := filter s; state_filter := state_filter s;
               state_clock := state_clock s;
               clk_phi := phi; clk_dphi := clk_dphi s;
               noise := n; _noise := _noise s |} in
  r0 <- channel_body i Ch0 (s1, []) ;;
  channel_body i Ch1 r0.

Definition OnButtonPress (s : state) : state :=
  let c := i32 (cursor s + 1) in
  {| cursor := if c >? 8 then 0 else c; noise_mode := noise_mode s;
     filter := filter s; state_filter := state_filter s;
     state_clock := state_clock s;
     clk_phi := clk_phi s; clk_dphi := clk_dphi s;
     noise := noise s; _noise := _noise s |}.

Definition with_filter_state (s : state) (ch : channel) (sf : FilterState) : state :=
  {| cursor := cursor s; noise_mode := noise_mode s;
     filter := filter s; state_filter := set (state_filter s) ch sf;
     state_clock := state_clock s;
     clk_phi := clk_phi s; clk_dphi := clk_dphi s;
     noise := noise s; _noise := _noise s |}.

Definition OnEncoderMove (s : state) (direction : Z) : result state :=
  let sf0 := get (state_filter s) Ch0 in
  let sf1 := get (state_filter s) Ch1 in
  match cursor s with
  | 0 =>
      let sc := u8 (constrain (state_clock s + direction) 0 BNC_MAX_PARAM) in
      clk <- Parameter2Clk sc ;;
      Ok {| cursor := cursor s; noise_mode := noise_mode s;
            filter := filter s; state_filter := state_filter s;
            state_clock := sc;
            clk_phi := clk_phi s; clk_dphi := CLKSetCFreq (clk * 100);
            noise := noise s; _noise := _noise s |}
  | 1 =>
      Ok {| cursor := cursor s;
            noise_mode := u8 (constrain (noise_mode s + direction) 0 2);
            filter := filter s; state_filter := state_filter s;
            state_clock := state_clock s;
            clk_phi := clk_phi s; clk_dphi := clk_dphi s;
            noise := noise s; _noise := _noise s |}
  | 2 => Ok (with_filter_state s Ch0
               (mkFilterState (f sf0) (q sf0) (u8 (constrain (mode sf0 + direction) 0 4))))
  | 3 => Ok (with_filter_state s Ch1
               (mkFilterState (f sf1) (q sf1) (u8 (constrain (mode sf1 + direction) 0 4))))
  | 4 => Ok (with_filter_state s Ch0
               (mkFilterState (u8 (constrain (f sf0 + direction) 0 BNC_MAX_PARAM))
                              (q sf0) (mode sf0)))
  | 5 => Ok (with_filter_state s Ch1
               (mkFilterState (u8 (constrain (f sf1 + direction) 0 BNC_MAX_PARAM))
                              (q sf1) (mode sf1)))
  | 6 => Ok (with_filter_state s Ch0
               (mkFilterState (f sf0)
                              (u8 (constrain (q sf0 + direction) 0 BNC_MAX_PARAM))
                              (mode sf0)))
  | 7 => Ok (with_filter_state s Ch1
               (mkFilterState (f sf1)
                              (u8 (constrain (q sf1 + direction) 0 BNC_MAX_PARAM))
                              (mode sf1)))
  | _ => Ok s
  end.

End Applet.

Arguments state F : clear implicits.

End NoiseLake.

(* ------------------------------------------------------------------ *)
(** ** The early draft: unsigned noise, refreshed on every tick *)

Module NoiseLakeDraft.

Definition BNC_MAX_PARAM : Z := 63.
Definition NOISE_VALUE_MAX : Z := 4095.
Definition FSAMPLE : Z := 1666667.

Definition CLKSetFreq (cfreq : Z) : Z :=
  Z.quot (u32 (u32 cfreq * CLK_PHI_MAX)) FSAMPLE.

Definition Parameter2Frequency (p : Z) : result Z :=
  let p := u8 p in
  v <- Proportion p BNC_MAX_PARAM 969 ;;
  Ok (u16 (v + 30)).

(** The 32-bit phase clock followed by the unconditional refresh. *)
Definition noise_source (noise_mode clk_phi clk_dphi noise rnd1 : Z) : Z * Z :=
  let phi := u32 (clk_phi + clk_dphi) in
  let phi := if phi >=? CLK_PHI_MAX then u32 (phi - CLK_PHI_MAX) else phi in
  if noise_mode =? NOISE_MODE_BITFLIP then
    (phi, i16 (Z.lxor noise (Z.shiftl 1 (random rnd1 0 12))))
  else
    (phi, i16 (random rnd1 0 NOISE_VALUE_MAX)).

Section Applet.

Context {F : Type} `{Env F}.

Record state : Type := mkState {
  cursor : Z;
  call_count : Z;
  noise_mode : Z;
  filter : two F;
  state_filter : two FilterState;
  state_clock : Z;
  clk_phi : Z;
  clk_dphi : Z;
  noise : Z
}.

(** [undef_noise] is the content of the local array [_noise] on entry. *)
Record tick_in : Type := mkTickIn {
  rnd1 : Z;
  Gate : two bool;
  undef_noise : two Z;
  undef_signal : two Z
}.

Definition power_on : state :=
  {| cursor := 0; call_count := 0; noise_mode := 0;
     filter := Two filter_init filter_init;
     state_filter := Two (mkFilterState 0 0 0) (mkFilterState 0 0 0);
     state_clock := 63; clk_phi := 0; clk_dphi := 0; noise := 0 |}.

Definition Start (s : state) (rnd : Z) : state :=
  {| cursor := cursor s; call_count := 0;
     noise_mode := NOISE_MODE_BITFLIP;
     filter := filter s;
     state_filter :=
       Two (mkFilterState 32 32 FILTER_MODE_LP) (mkFilterState 32 32 FILTER_MODE_BP);
     state_clock := state_clock s;
     clk_phi := clk_phi s;
     clk_dphi := CLKSetFreq FSAMPLE;
     noise := i16 (random rnd 0 NOISE_VALUE_MAX) |}.

Definition channel_body (i : tick_in) (ch : channel)
  (acc : state * two Z * list event) : result (state * two Z * list event) :=
  let '(s, _noise, tr) := acc in
  let held := if negb (get (Gate i) ch) then set _noise ch (noise s) else _noise in
  let sf := get (state_filter s) ch in
  p2f <- Parameter2Frequency (f sf) ;;
  let freq := i32 p2f in
  let freq := i32 (freq * 100) in
  pq <- Proportion (q sf) BNC_MAX_PARAM 2040 ;;
  let qv := i32 pq in
  let flt := feed (get (filter s) ch) (get held ch) freq qv in
  let signal := tap (mode sf) (get held ch) flt (get (undef_signal i) ch) in
  Ok ({| cursor := cursor s; call_count := call_count s;
         noise_mode := noise_mode s;
         filter := set (filter s) ch flt;
         state_filter := state_filter s;
         state_clock := state_clock s;
         clk_phi := clk_phi s; clk_dphi := clk_dphi s;
         noise := noise s |},
      held,
      tr ++ [EvFeed ch (get held ch) freq qv; EvOut ch signal]).

Definition Controller (s : state) (i : tick_in) : result (state * list event) :=
  let '(phi, n) := noise_source (noise_mode s) (clk_phi s) (clk_dphi s) (noise s)
                                (rnd1 i) in
  let s1 := {| cursor := cursor s; call_count := call_count s;
               noise_mode := noise_mode s;
               filter := filter s; state_filter := state_filter s;
               state_clock := state_clock s;
               clk_phi := phi; clk_dphi := clk_dphi s;
               noise := n |} in
  r0 <- channel_body i Ch0 (s1, undef_noise i, []) ;;
  '(s2, _, tr) <- channel_body i Ch1 r0 ;;
  Ok (s2, tr).

End Applet.

Arguments state F : clear implicits.

End NoiseLakeDraft.

(* ------------------------------------------------------------------ *)
(** ** The single-filter version with the interpolated wavefolder *)

Module NoiseLakeFold.

Definition NL_MAX_PARAM : Z := 111.
Definition NOISE_VALUE_MAX : Z := 2047.

Definition CFREQ_SCALE : list Z :=
  [    2750;    2914;    3087;    3270;    3465;    3671;    3889;
       4120;    4365;    4625;    4900;    5191;    5500;    5827;
       6174;    6541;    6930;    7342;    7778;    8241;    8731;
       9250;    9800;   10383;   11000;   11654;   12347;   13081;
      13859;   14683;   15556;   16481;   17461;   18500;   19600;
      20765;   22000;   23308;   24694;   26163;   27718;   29366;
      31113;   32963;   34923;   36999;   39200;   41530;   44000;
      46616;   49388;   52325;   55437;   58733;   62225;   65926;
      69846;   73999;   78399;   83061;   88000;   93233;   98777;
     104650;  110873;  117466;  124451;  131851;  139691;  147998;
     156798;  166122;  176000;  186466;  197553;  209300;  221746;
     234932;  248902;  263702;  279383;  295996;  313596;  332244;
     352000;  372931;  395107;  418601;  443492;  469864;  497803;
     527404;  558765;  591991;  627193;  664488;  704000;  745862;
     790213;  837202;  886984;  939727;  995606; 1054808; 1117530;
    1183982; 1254385; 1328975; 1408000; 1491724; 1580427; 1666667 ].
Definition CFREQ_SCALE_IDX_C7 : Z := 75.

Definition FOLDCURVE : list Z :=
  [     0;   406;   796;  1154;  1466;  1720;  1906;  2017;  2047;
     1997;  1867;  1663;  1393;  1068;   700;   305;  -102;  -505;
     -889; -1237; -1536; -1774; -1941; -2032; -2042; -1971; -1822;
    -1601; -1316;  -979;  -604;  -204;   204;   604;   979;  1316;
     1601;  1822;  1971;  2042;  2032;  1941;  1774;  1536;  1237;
      889;   505;   102;  -305;  -610;  -802;  -892;  -894;  -830;
     -719;  -582;  -439;  -305;  -191;  -104;   -46;   -14;    0;
        0 ].
Definition FOLDCURVE_N : Z := 64.

(** [dx = 4*(NOISE_VALUE_MAX+1)/FOLDCURVE_N], the width of a bucket. *)
Definition dx : Z := i16 (Z.quot (4 * (NOISE_VALUE_MAX + 1)) FOLDCURVE_N).

(** [i = t / dx; i = i < FOLDCURVE_N - 1 ? i : FOLDCURVE_N - 2;] *)
Definition bucket (t : Z) : Z :=
  let i := u8 (Z.quot t dx) in
  if i <? FOLDCURVE_N - 1 then i else FOLDCURVE_N - 2.

Definition InterpolationFolder (x : Z) : result Z :=
  y <- (if x >=? 0 then
          let i := bucket x in
          a <- lookup FOLDCURVE i ;;
          b <- lookup FOLDCURVE (i + 1) ;;
          Ok (i32 (i32 (a * ((i + 1) * dx - x)) + i32 (b * (x - i * dx))))
        else
          let i := bucket (-1 * x) in
          a <- lookup FOLDCURVE i ;;
          b <- lookup FOLDCURVE (i + 1) ;;
          Ok (i32 (i32 (-1 * a * ((i + 1) * dx + x)) + i32 (b * (x + i * dx))))) ;;
  let y := i32 (Z.quot y dx) in
  Ok (i16 y).

Definition Parameter2Frequency (p : Z) : result Z :=
  let p := u8 p in
  let p := if p >? CFREQ_SCALE_IDX_C7 then CFREQ_SCALE_IDX_C7 else p in
  v <- lookup CFREQ_SCALE p ;;
  Ok (u32 v).

Definition Parameter2Clk (p : Z) : result Z :=
  let p := u8 p in
  let p := if p <? 112 then p else 111 in
  v <- lookup CFREQ_SCALE p ;;
  Ok (u32 v).

Section Applet.

Context {F : Type} `{Env F}.

(** The noise source of one tick; [in0] is what [In(0)] reads. *)
Definition noise_source (noise_mode clk_phi clk_dphi noise rnd1 rnd2 in0 : Z)
  : result (Z * Z) :=
  if noise_mode =? NOISE_MODE_CRACKLE then
    let eta := u16 (random rnd1 0 CLK_PHI_MAX) in
    if eta <? clk_dphi then
      d <- cdiv clk_dphi eta ;;
      let a := i16 d in
      let a := if a >? 8 then 8 else a in
      let a := i16 (a * (if random_to rnd2 2 >? 0 then 1 else -1)) in
      Ok (clk_phi, i16 (Z.quot (a * NOISE_VALUE_MAX) 8))
    else
      Ok (clk_phi, i16 (Z.quot (noise * 3) 4))
  else
    let '(phi, wrapped) := clk_advance clk_phi clk_dphi in
    if wrapped then
      if noise_mode =? NOISE_MODE_BITFLIP then
        let n := i16 (noise + NOISE_VALUE_MAX) in
        let n := i16 (Z.lxor n (Z.shiftl 1 (random rnd1 0 12))) in
        let n := i16 (n - NOISE_VALUE_MAX) in
        Ok (phi, n)
      else if noise_mode =? NOISE_MODE_LINEIN then
        v <- Proportion in0 HEMISPHERE_MAX_CV NOISE_VALUE_MAX ;;
        Ok (phi, i16 v)
      else
        Ok (phi, i16 (random rnd1 (- NOISE_VALUE_MAX) NOISE_VALUE_MAX))
    else
      Ok (phi, noise).

Record state : Type := mkState {
  cursor : Z;
  noise_mode : Z;
  filter : F;
  state_clock : Z;
  state_filter : FilterState;
  state_wavefolder : Z;
  clk_phi : Z;
  clk_dphi : Z;
  noise : Z
}.

Record tick_in : Type := mkTickIn {
  rnd1 : Z;
  rnd2 : Z;
  Gate : two bool;
  In0 : Z;
  undef_signal : Z
}.

Definition power_on : state :=
  {| cursor := 0; noise_mode := 0; filter := filter_init;
     state_clock := 63; state_filter := mkFilterState 0 0 0;
     state_wavefolder := 0; clk_phi := 0; clk_dphi := 0; noise := 0 |}.

Definition Start (s : state) (rnd : Z) : state :=
  {| cursor := cursor s;
     noise_mode := NOISE_MODE_BITFLIP;
     filter := filter s;
     state_clock := state_clock s;
     state_filter := mkFilterState 32 32 FILTER_MODE_LP;
     state_wavefolder := 1;
     clk_phi := clk_phi s;
     clk_dphi := CLKSetCFreq FSAMPLE_CHZ;
     noise := i16 (random rnd 0 NOISE_VALUE_MAX) |}.

Definition Controller (s : state) (i : tick_in) : result (state * list event) :=
  '(phi, n) <- noise_source (noise_mode s) (clk_phi s) (clk_dphi s) (noise s)
                            (rnd1 i) (rnd2 i) (In0 i) ;;
  let sf := state_filter s in
  p2f <- Parameter2Frequency (f sf) ;;
  let freq := i32 p2f in
  pq <- Proportion (q sf) NL_MAX_PARAM 2020 ;;
  let qv := i32 pq in
  let flt := feed (filter s) n freq qv in
  let signal0 := tap (mode sf) n flt (undef_signal i) in
  drive <- Proportion (state_wavefolder s) (Z.quot NL_MAX_PARAM 4) signal0 ;;
  folded <- InterpolationFolder (i16 drive) ;;
  let signal1 := i16 (4 * folded) in
  Ok ({| cursor := cursor s; noise_mode := noise_mode s;
         filter := flt;
         state_clock := state_clock s; state_filter := sf;
         state_wavefolder := state_wavefolder s;
         clk_phi := phi; clk_dphi := clk_dphi s; noise := n |},
      [EvFeed Ch0 n freq qv; EvOut Ch0 (Z.quot signal0 2); EvOut Ch1 (Z.quot signal1 2)]).

Definition OnButtonPress (s : state) : state :=
  let c := i32 (cursor s + 1) in
  {| cursor := if c >? 5 then 0 else c; noise_mode := noise_mode s;
     filter := filter s; state_clock := state_clock s;
     state_filter := state_filter s; state_wavefolder := state_wavefolder s;
     clk_phi := clk_phi s; clk_dphi := clk_dphi s; noise := noise s |}.

Definition with_filter_state (s : state) (sf : FilterState) : state :=
  {| cursor := cursor s; noise_mode := noise_mode s;
     filter := filter s; state_clock := state_clock s;
     state_filter := sf; state_wavefolder := state_wavefolder s;
     clk_phi := clk_phi s; clk_dphi := clk_dphi s; noise := noise s |}.

Definition OnEncoderMove (s : state) (direction : Z) : result state :=
  let sf := state_filter s in
  match cursor s with
  | 0 =>
      let sc := u8 (constrain (state_clock s + direction) 0 NL_MAX_PARAM) in
      clk <- Parameter2Clk sc ;;
      Ok {| cursor := cursor s; noise_mode := noise_mode s;
            filter := filter s; state_clock := sc;
            state_filter := sf; state_wavefolder := state_wavefolder s;
            clk_phi := clk_phi s; clk_dphi := CLKSetCFreq clk;
            noise := noise s |}
  | 1 =>
      Ok {| cursor := cursor s;
            noise_mode := u8 (constrain (noise_mode s + direction) 0 3);
            filter := filter s; state_clock := state_clock s;
            state_filter := sf; state_wavefolder := state_wavefolder s;
            clk_phi := clk_phi s; clk_dphi := clk_dphi s;
            noise := noise s |}
  | 2 => Ok (with_filter_state s
               (mkFilterState (f sf) (q sf) (u8 (constrain (mode sf + direction) 0 4))))
  | 3 => Ok (with_filter_state s
               (mkFilterState (u8 (constrain (f sf + direction) 0 CFREQ_SCALE_IDX_C7))
                              (q sf) (mode sf)))
  | 4 => Ok (with_filter_state s
               (mkFilterState (f sf)
                              (u8 (constrain (q sf + direction) 0 NL_MAX_PARAM))
                              (mode sf)))
  | 5 =>
      Ok {| cursor := cursor s; noise_mode := noise_mode s;
            filter := filter s; state_clock := state_clock s;
            state_filter := sf;
            state_wavefolder :=
              i16 (constrain (state_wavefolder s + direction) 1 NL_MAX_PARAM);
            clk_phi := clk_phi s; clk_dphi := clk_dphi s;
            noise := noise s |}
  | _ => Ok s
  end.

End Applet.

Arguments state F : clear implicits.

End NoiseLakeFold.

(* ------------------------------------------------------------------ *)
(** ** A concrete environment for running examples *)

Module SVF.

(** Modelled from the spec: the two-integrator loop of section 4.3 with
    the coefficients taken as given (the normalisation of tiny_dsp.h is
    not part of the sources at hand). *)
Record svf : Type := mkSvf { lp : Z; bp : Z; hp : Z; notch : Z }.

Definition svf_feed (s : svf) (input fc qc : Z) : svf :=
  let delta := input - lp s - qc * bp s in
  let bp' := bp s + fc * delta in
  let lp' := lp s + fc * bp' in
  let hp' := input - lp' - qc * bp' in
  mkSvf lp' bp' hp' (hp' + lp').

#[global] Instance svf_env : Env svf := {|
  filter_init := mkSvf 0 0 0 0;
  feed := svf_feed;
  get_lp := lp;
  get_bp := bp;
  get_hp := hp;
  get_no := notch;
  HEMISPHERE_MAX_CV := 7680
|}.

End SVF.

(* ------------------------------------------------------------------ *)
(** ** Auxiliary notions used to state the properties *)

(** The triangle wave of period [4 * limit] that the modulo folder traces,
    as a function of the shifted input [s = signal + limit]. *)
Definition triangle (s limit : Z) : Z :=
  Z.abs (s mod (4 * limit) - 2 * limit) - limit.

(** The arithmetic of [WaveFolder] once every store is known to fit. *)
Definition fold_raw (s limit : Z) : Z :=
  (if Z.rem (Z.quot s (2 * limit)) 2 =? 0
   then 2 * limit - Z.abs (Z.rem s (2 * limit))
   else Z.abs (Z.rem s (2 * limit))) - limit.

(** The weighted sum of two neighbouring curve entries [a], [b] for a
    magnitude [t] in bucket [i], and the interpolated value. *)
Definition blend (a b i t : Z) : Z :=
  a * ((i + 1) * NoiseLakeFold.dx - t) + b * (t - i * NoiseLakeFold.dx).

Definition entry (i : Z) : Z := nth (Z.to_nat i) NoiseLakeFold.FOLDCURVE 0.

Definition interp (t : Z) : Z :=
  let i := NoiseLakeFold.bucket t in
  Z.quot (blend (entry i) (entry (i + 1)) i t) NoiseLakeFold.dx.

(** A table whose entries never decrease, and one whose entries fit
    below a bound. *)
Fixpoint nondecreasing (l : list Z) : bool :=
  match l with
  | a :: (b :: _) as t => (a <=? b) && nondecreasing t
  | _ => true
  end.

Definition all_below (bound : Z) (l : list Z) : bool :=
  forallb (fun v => (0 <=? v) && (v <? bound)) l.

(** The bias-XOR-unbias sequence on an [int16_t] noise value, flipping
    bit [k]. *)
Definition bitflip (bias noise k : Z) : Z :=
  i16 (i16 (Z.lxor (i16 (noise + bias)) (Z.shiftl 1 k)) - bias).

Section TickOfNoiseLake.

Import NoiseLake.
Context {F : Type} `{Env F}.

(** The frequency and resonance that [Controller] hands to [feed]. *)
Definition fed_freq (sf : FilterState) : Z :=
  i32 (i32 (u16 (Z.quot (u8 (f sf) * 969) 63 + 30)) * 100).

Definition fed_q (sf : FilterState) : Z := i32 (Z.quot (q sf * 2020) 63).

(** The sample a channel holds after the gate test, when the noise
    source has produced [n]. *)
Definition held (i : tick_in) (s : state F) (n : Z) (ch : channel) : Z :=
  if get (Gate i) ch then get (_noise s) ch else n.

(** State and trace of a tick whose noise source produced phase [phi]
    and noise [n]. *)
Definition after_tick (s : state F) (i : tick_in) (phi n : Z) : state F :=
  {| cursor := cursor s; noise_mode := noise_mode s;
     filter :=
       Two (feed (get (filter s) Ch0) (held i s n Ch0)
                 (fed_freq (get (state_filter s) Ch0)) (fed_q (get (state_filter s) Ch0)))
           (feed (get (filter s) Ch1) (held i s n Ch1)
                 (fed_freq (get (state_filter s) Ch1)) (fed_q (get (state_filter s) Ch1)));
     state_filter := state_filter s;
     state_clock := state_clock s;
     clk_phi := phi; clk_dphi := clk_dphi s;
     noise := n;
     _noise := Two (held i s n Ch0) (held i s n Ch1) |}.

Definition channel_trace (s : state F) (i : tick_in) (n : Z) (ch : channel) : list event :=
  let sf := get (state_filter s) ch in
  let x := held i s n ch in
  [EvFeed ch x (fed_freq sf) (fed_q sf);
   EvOut ch (Z.quot (tap (mode sf) x
                       (feed (get (filter s) ch) x (fed_freq sf) (fed_q sf))
                       (get (undef_signal i) ch)) 2)].

End TickOfNoiseLake.

(* ------------------------------------------------------------------ *)
(** ** Concrete runs, on the filter of module [SVF] *)

Module Run.

Import SVF.

(** HEM_NoiseLake.ino after [Start], the generator having drawn 2045. *)
Definition started : NoiseLake.state svf := NoiseLake.Start NoiseLake.power_on 2045.

(** All gates low, respectively high; no garbage in the locals. *)
Definition tick (r1 r2 : Z) (g : bool) : NoiseLake.tick_in :=
  NoiseLake.mkTickIn r1 r2 (Two g g) (Two 0 0).

(** Button to the noise-mode cursor, encoder one step up: Crackle. *)
Definition crackle_selected : result (NoiseLake.state svf) :=
  NoiseLake.OnEncoderMove (NoiseLake.OnButtonPress started) 1.

(** Encoder one step down on the noise mode (White), then button and
    one step down on the mode of channel 0 (Off). *)
Definition white_off_selected : result (NoiseLake.state svf) :=
  s <- NoiseLake.OnEncoderMove (NoiseLake.OnButtonPress started) (-1) ;;
  NoiseLake.OnEncoderMove (NoiseLake.OnButtonPress s) (-1).

(** The wavefolder version after [Start], and its tick input. *)
Definition fold_started : NoiseLakeFold.state svf :=
  NoiseLakeFold.Start NoiseLakeFold.power_on 5.

Definition fold_tick (r1 r2 : Z) (g : bool) : NoiseLakeFold.tick_in :=
  NoiseLakeFold.mkTickIn r1 r2 (Two g g) 0 0.

Definition fold_crackle_selected : result (NoiseLakeFold.state svf) :=
  NoiseLakeFold.OnEncoderMove (NoiseLakeFold.OnButtonPress fold_started) 1.

(** The draft in the configuration of [Start] with noise value 1, its
    phase 59 increments of 1110 past 0, one increment short of the first
    wrap. *)
Definition draft_before_wrap : NoiseLakeDraft.state svf :=
  {| NoiseLakeDraft.cursor := 0;
     NoiseLakeDraft.call_count := 0;
     NoiseLakeDraft.noise_mode := NOISE_MODE_BITFLIP;
     NoiseLakeDraft.filter := Two filter_init filter_init;
     NoiseLakeDraft.state_filter :=
       Two (mkFilterState 32 32 FILTER_MODE_LP) (mkFilterState 32 32 FILTER_MODE_BP);
     NoiseLakeDraft.state_clock := 63;
     NoiseLakeDraft.clk_phi := 65490;
     NoiseLakeDraft.clk_dphi := NoiseLakeDraft.CLKSetFreq NoiseLakeDraft.FSAMPLE;
     NoiseLakeDraft.noise := 1 |}.

Definition draft_tick (r1 : Z) (g : bool) : NoiseLakeDraft.tick_in :=
  NoiseLakeDraft.mkTickIn r1 (Two g g) (Two 0 0) (Two 0 0).

(** State and trace of a completed tick ([d] and the empty trace stand
    in for a faulted one). *)
Definition state_of {S : Type} (r : result (S * list event)) (d : S) : S :=
  match r with Ok (s, _) => s | Fault _ => d end.

Definition trace_of {S : Type} (r : result (S * list event)) : list event :=
  match r with Ok (_, tr) => tr | Fault _ => [] end.

Definition unwrap {S : Type} (r : result S) (d : S) : S :=
  match r with Ok s => s | Fault _ => d end.

(** BitFlip from 2045: the first tick flips bit 1, the second bit 0. *)
Definition flip1 := NoiseLake.Controller started (tick 1 0 false).
Definition flip2 := NoiseLake.Controller (state_of flip1 started) (tick 0 0 false).
Definition flip2_held := NoiseLake.Controller (state_of flip1 started) (tick 0 0 true).

(** White, channel 0 Off: a tick with the gates low, then one with the
    gates high. *)
Definition white_off : NoiseLake.state svf := unwrap white_off_selected started.
Definition white1 := NoiseLake.Controller white_off (tick 3047 0 false).
Definition white2 := NoiseLake.Controller (state_of white1 white_off) (tick 5000 0 true).

(** The wavefolder version in BitFlip, both ticks with the gates high. *)
Definition fold1 := NoiseLakeFold.Controller fold_started (fold_tick 0 0 true).
Definition fold2 :=
  NoiseLakeFold.Controller (state_of fold1 fold_started) (fold_tick 1 0 true).

(** The draft over the wrap, flipping bit 0. *)
Definition draft1 := NoiseLakeDraft.Controller draft_before_wrap (draft_tick 0 false).

End Run.

(* ------------------------------------------------------------------ *)
(** ** The filter icons of the display *)

Module FilterIcon.

(** A call [gfxLine(x, y, x2, y2)] of the host. *)
Record line : Type := Line { x1 : Z; y1 : Z; x2 : Z; y2 : Z }.

(** The four icons, as the calls of [gfxLine] they make in program
    order; [x], [y] and [q] arrive as [byte] and [uint8_t] values. *)
Definition DrawFilterLP (x y q : Z) : list line :=
  let x := u8 x in
  let y := u8 y in
  let q := u8 q in
  let q := u8 (q + 1) in
  let q := u8 (Z.quot q 16) in
  let y := u8 (y + 7) in
  let yc := u8 (y - 4) in
  [Line x yc (x + 6) yc;
   Line (x + 6) yc (x + 9) (yc - q + 1);
   Line (x + 9) (yc - q + 1) (x + 12) (yc - q + 2);
   Line (x + 12) (yc - q + 2) (x + 15) y].

Definition DrawFilterHP (x y q : Z) : list line :=
  let x := u8 x in
  let y := u8 y in
  let q := u8 q in
  let q := u8 (q + 1) in
  let q := u8 (Z.quot q 16) in
  let y := u8 (y + 7) in
  let yc := u8 (y - 4) in
  [Line (15 + x) yc (9 + x) yc;
   Line (9 + x) yc (6 + x) (yc - q + 1);
   Line (6 + x) (yc - q + 1) (3 + x) (yc - q + 2);
   Line (3 + x) (yc - q + 2) (0 + x) y].

Definition DrawFilterBP (x y q : Z) : list line :=
  let x := u8 x in
  let y := u8 y in
  let q := u8 q in
  let q := u8 (q + 1) in
  let q := u8 (Z.quot q 16) in
  let y := u8 (y + 7) in
  let yc := u8 (y - 4) in
  [Line x y (x + 5) y;
   Line (x + 5) y (x + 7) (yc - q + 1);
   Line (x + 7) (yc - q + 1) (x + 9) (yc - q + 1);
   Line (x + 9) (yc - q + 1) (x + 10) y;
   Line (x + 10) y (x + 15) y].

Definition DrawFilterNotch (x y q : Z) : list line :=
  let x := u8 x in
  let y := u8 y in
  let q := u8 q in
  let q := u8 (q + 1) in
  let q := u8 (Z.quot q 16) in
  let y := u8 (y + 7) in
  let yc := u8 (y - 4) in
  [Line x yc (x + 5) yc;
   Line (x + 5) yc (x + 7) (yc + q);
   Line (x + 7) (yc + q) (x + 9) (yc + q);
   Line (x + 9) (yc + q) (x + 10) yc;
   Line (x + 10) yc (x + 15) yc].

(** Every line starts where the one before it ends. *)
Fixpoint chained (l : list line) : Prop :=
  match l with
  | a :: ((b :: _) as t) => x2 a = x1 b /\ y2 a = y1 b /\ chained t
  | _ => True
  end.

(** First and last point of a polyline. *)
Definition first_point (l : list line) : option (Z * Z) :=
  match l with
  | a :: _ => Some (x1 a, y1 a)
  | [] => None
  end.

Definition last_point (l : list line) : option (Z * Z) :=
  match rev l with
  | a :: _ => Some (x2 a, y2 a)
  | [] => None
  end.

(** The image of a polyline under the reflection of the 16 columns
    [x .. x + 15] about their middle. *)
Definition mirror (x : Z) (l : list line) : list line :=
  map (fun a => Line (2 * x + 15 - x1 a) (y1 a) (2 * x + 15 - x2 a) (y2 a)) l.

(** The box of 16 columns and 8 rows whose top-left corner is
    [(x, y)]: the width the icons are written for, and the rows from
    [y] down to the base line [y + 7]. *)
Definition in_cell (x y : Z) (a : line) : bool :=
  (x <=? x1 a) && (x1 a <=? x + 15) && (x <=? x2 a) && (x2 a <=? x + 15)
  && (y <=? y1 a) && (y1 a <=? y + 7) && (y <=? y2 a) && (y2 a <=? y + 7).

End FilterIcon.

(* ------------------------------------------------------------------ *)
(** ** Ranges of the control parameters *)

Definition filter_params_in_range (fmax : Z) (sf : FilterState) : Prop :=
  0 <= f sf <= fmax /\ 0 <= q sf <= 63 /\ 0 <= mode sf <= 4.

(** HEM_NoiseLake.ino: what [constrain] allows for each parameter. *)
Definition params_in_range {F : Type} (s : NoiseLake.state F) : Prop :=
  0 <= NoiseLake.state_clock s <= NoiseLake.BNC_MAX_PARAM /\
  0 <= NoiseLake.noise_mode s <= 2 /\
  filter_params_in_range 63 (get (NoiseLake.state_filter s) Ch0) /\
  filter_params_in_range 63 (get (NoiseLake.state_filter s) Ch1).

(** The wavefolder version: parameters within what [constrain] allows,
    phase and increment within the period of the clock. *)
Definition fold_in_range {F : Type} (s : NoiseLakeFold.state F) : Prop :=
  0 <= NoiseLakeFold.state_clock s <= NoiseLakeFold.NL_MAX_PARAM /\
  0 <= NoiseLakeFold.noise_mode s <= 3 /\
  0 <= f (NoiseLakeFold.state_filter s) <= NoiseLakeFold.CFREQ_SCALE_IDX_C7 /\
  0 <= q (NoiseLakeFold.state_filter s) <= NoiseLakeFold.NL_MAX_PARAM /\
  0 <= mode (NoiseLakeFold.state_filter s) <= 4 /\
  0 <= NoiseLakeFold.state_wavefolder s <= NoiseLakeFold.NL_MAX_PARAM /\
  0 <= NoiseLakeFold.clk_phi s < CLK_PHI_MAX /\
  0 <= NoiseLakeFold.clk_dphi s <= CLK_PHI_MAX.

(** An encoder step of the host: an [int] whose sum with a parameter is
    still an [int]. *)
Definition int_direction (d : Z) : Prop := -2147483648 <= d <= 2147483392.

(** The parameter the cursor of HEM_NoiseLake.ino points at, with the
    upper bound its case of [OnEncoderMove] constrains it to. *)
Definition addressed {F : Type} (s : NoiseLake.state F) : option (Z * Z) :=
  let sf0 := get (NoiseLake.state_filter s) Ch0 in
  let sf1 := get (NoiseLake.state_filter s) Ch1 in
  match NoiseLake.cursor s with
  | 0 => Some (NoiseLake.state_clock s, NoiseLake.BNC_MAX_PARAM)
  | 1 => Some (NoiseLake.noise_mode s, 2)
  | 2 => Some (mode sf0, 4)
  | 3 => Some (mode sf1, 4)
  | 4 => Some (f sf0, NoiseLake.BNC_MAX_PARAM)
  | 5 => Some (f sf1, NoiseLake.BNC_MAX_PARAM)
  | 6 => Some (q sf0, NoiseLake.BNC_MAX_PARAM)
  | 7 => Some (q sf1, NoiseLake.BNC_MAX_PARAM)
  | _ => None
  end.

(** The states the host can drive each applet into: from the object as
    built, by [Start], button presses, encoder steps and completed
    ticks. *)
Inductive reachable {F : Type} `{Env F} : NoiseLake.state F -> Prop :=
| reach_power_on : reachable NoiseLake.power_on
| reach_Start (s : NoiseLake.state F) (rnd : Z) :
    reachable s -> reachable (NoiseLake.Start s rnd)
| reach_button (s : NoiseLake.state F) :
    reachable s -> reachable (NoiseLake.OnButtonPress s)
| reach_encoder (s s' : NoiseLake.state F) (d : Z) :
    reachable s -> int_direction d -> NoiseLake.OnEncoderMove s d = Ok s' ->
    reachable s'
| reach_tick (s s' : NoiseLake.state F) (i : NoiseLake.tick_in) (tr : list event) :
    reachable s -> NoiseLake.Controller s i = Ok (s', tr) -> reachable s'.

Inductive fold_reachable {F : Type} `{Env F} : NoiseLakeFold.state F -> Prop :=
| fold_reach_power_on : fold_reachable NoiseLakeFold.power_on
| fold_reach_Start (s : NoiseLakeFold.state F) (rnd : Z) :
    fold_reachable s -> fold_reachable (NoiseLakeFold.Start s rnd)
| fold_reach_button (s : NoiseLakeFold.state F) :
    fold_reachable s -> fold_reachable (NoiseLakeFold.OnButtonPress s)
| fold_reach_encoder (s s' : NoiseLakeFold.state F) (d : Z) :
    fold_reachable s -> int_direction d ->
    NoiseLakeFold.OnEncoderMove s d = Ok s' -> fold_reachable s'
| fold_reach_tick (s s' : NoiseLakeFold.state F) (i : NoiseLakeFold.tick_in)
    (tr : list event) :
    fold_reachable s -> NoiseLakeFold.Controller s i = Ok (s', tr) ->
    fold_reachable s'.

(* ------------------------------------------------------------------ *)
(** ** Further concrete runs *)

Module Scenario.

Import SVF.

(** HEM_NoiseLake.ino after [Start]: encoder one step down on the clock
    rate (parameter 62), then button and encoder one step up on the
    noise mode: Crackle. *)
Definition crackle_at_62 : result (NoiseLake.state svf) :=
  s <- NoiseLake.OnEncoderMove Run.started (-1) ;;
  NoiseLake.OnEncoderMove (NoiseLake.OnButtonPress s) 1.

(** The wavefolder version after [Start]: encoder up to the top of the
    clock rate (parameter 111), then White noise and filter mode Off. *)
Definition fold_white_off_selected : result (NoiseLakeFold.state svf) :=
  s <- NoiseLakeFold.OnEncoderMove Run.fold_started 48 ;;
  s <- NoiseLakeFold.OnEncoderMove (NoiseLakeFold.OnButtonPress s) (-1) ;;
  NoiseLakeFold.OnEncoderMove (NoiseLakeFold.OnButtonPress s) (-1).

Definition fold_white_off : NoiseLakeFold.state svf :=
  Run.unwrap fold_white_off_selected Run.fold_started.

Definition fold_white1 :=
  NoiseLakeFold.Controller fold_white_off (Run.fold_tick 3047 0 true).

(** A tick of the draft with both gates high, the local array [_noise]
    holding 777 and 888 on entry. *)
Definition draft_tick_held : NoiseLakeDraft.tick_in :=
  NoiseLakeDraft.mkTickIn 0 (Two true true) (Two 777 888) (Two 0 0).

Definition draft2 :=
  NoiseLakeDraft.Controller (Run.state_of Run.draft1 Run.draft_before_wrap)
    draft_tick_held.

End Scenario.

(** Case analysis on the value of a cursor, as the [switch] makes it. *)
Ltac split_cursor c :=
  let p := fresh "p" in
  destruct c as [|p|p];
  [| repeat (match goal with
             | |- context [match ?x with xH => _ | _ => _ end] => destruct x
             | H : context [match ?x with xH => _ | _ => _ end] |- _ => destruct x
             end) |].

(* ================================================================== *)
(** * Properties *)

(** ** Fixed-width arithmetic *)

Lemma uwrap_small (w x : Z) : 0 <= x < 2 ^ w -> uwrap w x = x.
Proof. intros Hx. unfold uwrap. now apply Z.mod_small. Qed.

Lemma u8_small (x : Z) : 0 <= x < 256 -> u8 x = x.
Proof. intros Hx. apply uwrap_small. simpl. lia. Qed.

Lemma u8_range (x : Z) : 0 <= u8 x < 256.
Proof. unfold u8, uwrap. change (2 ^ 8) with 256. lia. Qed.

Lemma u16_small (x : Z) : 0 <= x < 65536 -> u16 x = x.
Proof. intros Hx. apply uwrap_small. simpl. lia. Qed.

Lemma u16_range (x : Z) : 0 <= u16 x < 65536.
Proof. unfold u16, uwrap. change (2 ^ 16) with 65536. lia. Qed.

Lemma u32_small (x : Z) : 0 <= x < 4294967296 -> u32 x = x.
Proof. intros Hx. apply uwrap_small. simpl. lia. Qed.

Lemma u64_small (x : Z) : 0 <= x < 18446744073709551616 -> u64 x = x.
Proof. intros Hx. apply uwrap_small. simpl. lia. Qed.

Lemma i16_small (x : Z) : in_i16 x -> i16 x = x.
Proof.
  unfold in_i16, i16, swrap. intros Hx.
  change (2 ^ (16 - 1)) with 32768. change (2 ^ 16) with 65536.
  rewrite Z.mod_small; lia.
Qed.

Lemma i16_range (x : Z) : in_i16 (i16 x).
Proof.
  unfold in_i16, i16, swrap.
  change (2 ^ (16 - 1)) with 32768. change (2 ^ 16) with 65536. lia.
Qed.

Lemma i32_small (x : Z) : -2147483648 <= x <= 2147483647 -> i32 x = x.
Proof.
  unfold i32, swrap. intros Hx.
  change (2 ^ (32 - 1)) with 2147483648. change (2 ^ 32) with 4294967296.
  rewrite Z.mod_small; lia.
Qed.

(** ** Random draws stay inside their half-open range *)

Lemma random_range (r lo hi : Z) : lo < hi -> lo <= random r lo hi < hi.
Proof.
  intros Hlt. unfold random, random_to.
  destruct (Z.geb_spec lo hi); [lia|].
  destruct (Z.eqb_spec (hi - lo) 0); [lia|].
  pose proof (Z.mod_pos_bound r (hi - lo)). lia.
Qed.

Lemma random_to_range (r howbig : Z) : 0 < howbig -> 0 <= random_to r howbig < howbig.
Proof.
  intros Hpos. unfold random_to.
  destruct (Z.eqb_spec howbig 0); [lia|].
  apply Z.mod_pos_bound. lia.
Qed.

(** ** The phase clock *)

Lemma CLKSetCFreq_exact (cfreq : Z) :
  0 <= cfreq <= FSAMPLE_CHZ ->
  CLKSetCFreq cfreq = (cfreq * CLK_PHI_MAX) / FSAMPLE_CHZ.
Proof.
  intros Hc. unfold CLKSetCFreq, FSAMPLE_CHZ, CLK_PHI_MAX in *.
  rewrite (u64_small cfreq) by lia.
  rewrite u64_small by lia.
  apply Z.quot_div_nonneg; lia.
Qed.

Lemma CLKSetCFreq_bound (cfreq : Z) :
  0 <= cfreq <= FSAMPLE_CHZ -> 0 <= CLKSetCFreq cfreq <= CLK_PHI_MAX.
Proof.
  intros Hc. rewrite CLKSetCFreq_exact by assumption.
  unfold FSAMPLE_CHZ, CLK_PHI_MAX in *. lia.
Qed.

Lemma clk_advance_spec (clk_phi clk_dphi : Z) :
  0 <= clk_phi < CLK_PHI_MAX -> 0 <= clk_dphi <= CLK_PHI_MAX ->
  clk_advance clk_phi clk_dphi =
    if CLK_PHI_MAX <=? clk_phi + clk_dphi
    then (clk_phi + clk_dphi - CLK_PHI_MAX, true)
    else (clk_phi + clk_dphi, false).
Proof.
  intros Hphi Hd. unfold clk_advance, CLK_PHI_MAX in *.
  rewrite (u64_small (clk_phi + clk_dphi)) by lia.
  destruct (Z.geb_spec (clk_phi + clk_dphi) 65535);
    destruct (Z.leb_spec 65535 (clk_phi + clk_dphi)); try lia; [|reflexivity].
  rewrite u64_small by lia. reflexivity.
Qed.

Lemma clk_advance_mod (clk_phi clk_dphi : Z) :
  0 <= clk_phi < CLK_PHI_MAX -> 0 <= clk_dphi <= CLK_PHI_MAX ->
  clk_advance clk_phi clk_dphi =
    ((clk_phi + clk_dphi) mod CLK_PHI_MAX,
     CLK_PHI_MAX <=? clk_phi + clk_dphi).
Proof.
  intros Hphi Hd. rewrite clk_advance_spec by assumption.
  unfold CLK_PHI_MAX in *.
  destruct (Z.leb_spec 65535 (clk_phi + clk_dphi)); f_equal; lia.
Qed.

Lemma clk_run_spec (n : nat) : forall clk_phi clk_dphi : Z,
  0 <= clk_phi < CLK_PHI_MAX -> 0 <= clk_dphi <= CLK_PHI_MAX ->
  clk_run n clk_phi clk_dphi =
    ((clk_phi + Z.of_nat n * clk_dphi) mod CLK_PHI_MAX,
     (clk_phi + Z.of_nat n * clk_dphi) / CLK_PHI_MAX).
Proof.
  induction n as [|n IH]; intros clk_phi clk_dphi Hphi Hd.
  - simpl. unfold CLK_PHI_MAX in *. f_equal; lia.
  - cbn [clk_run]. rewrite clk_advance_mod by assumption.
    rewrite IH; [|unfold CLK_PHI_MAX in *; lia|assumption].
    replace (clk_phi + Z.of_nat (S n) * clk_dphi)
      with ((clk_phi + clk_dphi) + Z.of_nat n * clk_dphi) by lia.
    set (a := clk_phi + clk_dphi). set (b := Z.of_nat n * clk_dphi).
    assert (Ha : 0 <= a < 2 * CLK_PHI_MAX) by (unfold a, CLK_PHI_MAX in *; lia).
    assert (Hb : 0 <= b) by (unfold b; lia).
    clearbody a b. unfold CLK_PHI_MAX in *.
    destruct (Z.leb_spec 65535 a) as [Hw|Hw].
    + replace (a mod 65535) with (a - 65535) by lia.
      replace (a + b) with ((a - 65535 + b) + 1 * 65535) by lia.
      rewrite Z.mod_add, Z.div_add by lia.
      f_equal. lia.
    + rewrite (Z.mod_small a) by lia. f_equal.
Qed.

(** C3. With [0 <= clk_phi < CLK_PHI_MAX] and an increment set by
    [CLKSetCFreq cfreq] for [cfreq <= FSAMPLE_CHZ], the increment is the
    truncated quotient and at most [CLK_PHI_MAX]; one advance keeps the
    phase in range, wraps exactly when the sum reaches [CLK_PHI_MAX] and
    then carries the residue [sum - CLK_PHI_MAX]; after [n] advances the
    number of wraps is [floor ((clk_phi + n * clk_dphi) / CLK_PHI_MAX)],
    so it differs from [n * clk_dphi / CLK_PHI_MAX] by less than one. *)
Theorem clock_phase_invariant (clk_phi cfreq : Z) :
  0 <= clk_phi < CLK_PHI_MAX ->
  0 <= cfreq <= FSAMPLE_CHZ ->
  let clk_dphi := CLKSetCFreq cfreq in
  clk_dphi = (cfreq * CLK_PHI_MAX) / FSAMPLE_CHZ /\
  0 <= clk_dphi <= CLK_PHI_MAX /\
  (let '(phi', wrapped) := clk_advance clk_phi clk_dphi in
   0 <= phi' < CLK_PHI_MAX /\
   (wrapped = true <-> CLK_PHI_MAX <= clk_phi + clk_dphi) /\
   (wrapped = true -> phi' = clk_phi + clk_dphi - CLK_PHI_MAX) /\
   (wrapped = false -> phi' = clk_phi + clk_dphi)) /\
  (forall n : nat,
     let '(phi_n, wraps) := clk_run n clk_phi clk_dphi in
     0 <= phi_n < CLK_PHI_MAX /\
     wraps = (clk_phi + Z.of_nat n * clk_dphi) / CLK_PHI_MAX /\
     Z.of_nat n * clk_dphi - CLK_PHI_MAX < wraps * CLK_PHI_MAX
       <= Z.of_nat n * clk_dphi + clk_phi).
Proof.
  intros Hphi Hc clk_dphi.
  pose proof (CLKSetCFreq_bound cfreq Hc) as Hd. fold clk_dphi in Hd.
  split; [apply CLKSetCFreq_exact; assumption|].
  split; [assumption|]. split.
  - rewrite clk_advance_spec by assumption. unfold CLK_PHI_MAX in *.
    destruct (Z.leb_spec 65535 (clk_phi + clk_dphi)).
    + repeat split; intros; try lia; congruence.
    + repeat split; intros; try lia; congruence.
  - intros n. rewrite clk_run_spec by assumption.
    unfold CLK_PHI_MAX in *. repeat split; lia.
Qed.

Lemma clock_phase_invariant_witness :
  let '(phi_n, wraps) := clk_run 5 65000 (CLKSetCFreq 1000000) in
  phi_n = 65000 + 5 * 39320 - 3 * 65535 /\ wraps = 3.
Proof.
  pose proof (clock_phase_invariant 65000 1000000) as Hc.
  cbv zeta in Hc.
  destruct Hc as (_ & _ & _ & Hn);
    [unfold CLK_PHI_MAX; lia | unfold FSAMPLE_CHZ; lia |].
  specialize (Hn 5%nat).
  destruct (clk_run 5 65000 (CLKSetCFreq 1000000)) as [phi_n wraps] eqn:E.
  vm_compute in E. injection E as <- <-. split; reflexivity.
Defined.

(** ** The modulo wavefolder *)

Lemma fold_raw_nonneg (s limit : Z) :
  0 < limit -> 0 <= s -> fold_raw s limit = triangle s limit.
Proof.
  intros Hl Hs. unfold fold_raw, triangle.
  pose proof (Z.quot_rem' s (2 * limit)) as Hqr.
  pose proof (Z.quot_rem' (Z.quot s (2 * limit)) 2) as Hp.
  pose proof (Z.rem_bound_pos s (2 * limit) Hs ltac:(lia)) as Hr.
  assert (Hq : 0 <= Z.quot s (2 * limit)) by (apply Z.quot_pos; lia).
  pose proof (Z.rem_bound_pos _ 2 Hq ltac:(lia)) as Hr2.
  set (r := Z.rem s (2 * limit)) in *. set (d := Z.quot s (2 * limit)) in *.
  set (p := Z.rem d 2) in *. set (h := Z.quot d 2) in *.
  destruct (Z.eqb_spec p 0) as [E|E].
  - assert (Hm : s mod (4 * limit) = r).
    { symmetry. apply (Z.mod_unique_pos s (4 * limit) h); nia. }
    rewrite Hm. lia.
  - assert (Hm : s mod (4 * limit) = r + 2 * limit).
    { symmetry. apply (Z.mod_unique_pos s (4 * limit) h); nia. }
    rewrite Hm. lia.
Qed.

Lemma fold_raw_even (s limit : Z) :
  0 < limit -> fold_raw (- s) limit = fold_raw s limit.
Proof.
  intros Hl. unfold fold_raw.
  - rewrite Z.quot_opp_l, Z.rem_opp_l, Z.rem_opp_l, Z.abs_opp by lia.
    generalize (Z.abs (Z.rem s (2 * limit))) as r.
    generalize (Z.rem (Z.quot s (2 * limit)) 2) as p. intros p r.
    destruct (Z.eqb_spec p 0); destruct (Z.eqb_spec (- p) 0); lia.
Qed.

Lemma triangle_even (s limit : Z) : 0 < limit -> triangle (- s) limit = triangle s limit.
Proof.
  intros Hl. unfold triangle.
  destruct (Z.eq_dec (s mod (4 * limit)) 0) as [E|E].
  - rewrite Z.mod_opp_l_z by lia. rewrite E. reflexivity.
  - rewrite Z.mod_opp_l_nz by lia. lia.
Qed.

Lemma fold_raw_triangle (s limit : Z) :
  0 < limit -> fold_raw s limit = triangle s limit.
Proof.
  intros Hl. destruct (Z.le_gt_cases 0 s) as [Hs|Hs].
  - now apply fold_raw_nonneg.
  - rewrite <- (Z.opp_involutive s), fold_raw_even, triangle_even by assumption.
    apply fold_raw_nonneg; lia.
Qed.

Lemma triangle_period (s limit k : Z) :
  0 < limit -> triangle (s + 4 * limit * k) limit = triangle s limit.
Proof.
  intros Hl. unfold triangle.
  replace (s + 4 * limit * k) with (s + k * (4 * limit)) by lia.
  rewrite Z.mod_add by lia. reflexivity.
Qed.

Lemma triangle_half_period (s limit : Z) :
  0 < limit -> triangle (s + 2 * limit) limit = - triangle s limit.
Proof.
  intros Hl. unfold triangle.
  pose proof (Z.mod_pos_bound s (4 * limit) ltac:(lia)) as Hb.
  destruct (Z.lt_ge_cases (s mod (4 * limit)) (2 * limit)) as [Hlt|Hge].
  - assert (Hm : (s + 2 * limit) mod (4 * limit) = s mod (4 * limit) + 2 * limit).
    { symmetry. apply (Z.mod_unique_pos _ _ (s / (4 * limit))); [lia|].
      pose proof (Z.div_mod s (4 * limit) ltac:(lia)). lia. }
    rewrite Hm. lia.
  - assert (Hm : (s + 2 * limit) mod (4 * limit) = s mod (4 * limit) - 2 * limit).
    { symmetry. apply (Z.mod_unique_pos _ _ (s / (4 * limit) + 1)); [lia|].
      pose proof (Z.div_mod s (4 * limit) ltac:(lia)). lia. }
    rewrite Hm. lia.
Qed.

Lemma triangle_bound (s limit : Z) : 0 < limit -> - limit <= triangle s limit <= limit.
Proof.
  intros Hl. unfold triangle.
  pose proof (Z.mod_pos_bound s (4 * limit) ltac:(lia)). lia.
Qed.

Lemma WaveFolder_triangle (x limit : Z) :
  0 < limit -> 2 * limit <= 32767 -> in_i16 (x + limit) ->
  WaveFolder x limit = Ok (triangle (x + limit) limit).
Proof.
  intros Hl Hl2 Hs. unfold WaveFolder, crem, cdiv.
  rewrite (i16_small (x + limit)) by assumption.
  destruct (Z.eqb_spec (2 * limit) 0) as [E|_]; [lia|]. cbn [bind].
  set (s := x + limit) in *.
  assert (Hr : Z.abs (Z.rem s (2 * limit)) < 2 * limit).
  { pose proof (Z.rem_bound_abs s (2 * limit) ltac:(lia)). lia. }
  rewrite (i16_small (Z.rem s (2 * limit))) by (unfold in_i16; lia).
  assert (Habs : (if Z.rem s (2 * limit) <? 0 then i16 (- Z.rem s (2 * limit))
                  else Z.rem s (2 * limit)) = Z.abs (Z.rem s (2 * limit))).
  { destruct (Z.ltb_spec (Z.rem s (2 * limit)) 0).
    - rewrite i16_small by (unfold in_i16; lia). lia.
    - lia. }
  rewrite Habs. rewrite <- fold_raw_triangle by assumption. unfold fold_raw.
  f_equal.
  destruct (Z.rem (Z.quot s (2 * limit)) 2 =? 0).
  - rewrite (i16_small (2 * limit - _)) by (unfold in_i16; lia).
    apply i16_small. unfold in_i16. lia.
  - apply i16_small. unfold in_i16. lia.
Qed.

(** C6, amended. The modulo wavefolder has period [4 * limit]: for every
    [limit > 0] with [2 * limit] an [int16_t], every integer [k] and every
    [x] for which [x + limit] and the shifted [x + 4 * limit * k + limit]
    are [int16_t] values, [WaveFolder (x + 4 * limit * k) limit] equals
    [WaveFolder x limit], and both are values within [- limit, limit].
    A shift by the half period [2 * limit] negates the result. *)
Theorem WaveFolder_period (x limit k : Z) :
  0 < limit -> 2 * limit <= 32767 ->
  in_i16 (x + limit) -> in_i16 (x + 4 * limit * k + limit) ->
  exists y : Z,
    WaveFolder x limit = Ok y /\
    WaveFolder (x + 4 * limit * k) limit = Ok y /\
    - limit <= y <= limit /\
    (in_i16 (x + 2 * limit + limit) ->
     WaveFolder (x + 2 * limit) limit = Ok (- y)).
Proof.
  intros Hl Hl2 Hx Hxk. exists (triangle (x + limit) limit).
  split; [now apply WaveFolder_triangle|].
  split.
  - rewrite WaveFolder_triangle by assumption.
    replace (x + 4 * limit * k + limit) with (x + limit + 4 * limit * k) by lia.
    now rewrite triangle_period.
  - split; [now apply triangle_bound|].
    intros Hh. rewrite WaveFolder_triangle by assumption.
    replace (x + 2 * limit + limit) with (x + limit + 2 * limit) by lia.
    now rewrite triangle_half_period.
Qed.

Lemma WaveFolder_period_witness :
  WaveFolder 3 10 = Ok (- 3) /\ WaveFolder (3 + 4 * 10 * 2) 10 = Ok (- 3) /\
  WaveFolder (3 + 2 * 10) 10 = Ok 3.
Proof.
  destruct (WaveFolder_period 3 10 2) as (y & Hy & Hk & _ & Hh);
    try (unfold in_i16; lia).
  assert (y = -3) as -> by (vm_compute in Hy; congruence).
  split; [exact Hy|]. split; [exact Hk|].
  apply Hh. unfold in_i16. lia.
Defined.

(** C6, as stated, fails: a shift by [2 * limit] changes the result. *)
Lemma WaveFolder_not_2limit_periodic :
  0 < 10 /\ in_i16 3 /\ in_i16 (3 + 2 * 10 * 1) /\
  WaveFolder 3 10 = Ok (- 3) /\
  WaveFolder (3 + 2 * 10 * 1) 10 = Ok 3 /\
  WaveFolder (3 + 2 * 10 * 1) 10 <> WaveFolder 3 10.
Proof.
  repeat split; try (unfold in_i16; lia).
  vm_compute. discriminate.
Qed.

(** ** The interpolated-table folder *)

Lemma lookup_nth (tbl : list Z) (i : Z) :
  0 <= i < Z.of_nat (length tbl) -> lookup tbl i = Ok (nth (Z.to_nat i) tbl 0).
Proof.
  intros Hi. unfold lookup.
  destruct (Z.ltb_spec i 0); [lia|].
  destruct (nth_error tbl (Z.to_nat i)) as [v|] eqn:E.
  - now rewrite (nth_error_nth _ _ _ E).
  - apply nth_error_None in E. lia.
Qed.

Lemma nth_Forall (P : Z -> Prop) (tbl : list Z) (i : Z) :
  Forall P tbl -> 0 <= i < Z.of_nat (length tbl) -> P (nth (Z.to_nat i) tbl 0).
Proof.
  intros HP Hi. rewrite Forall_forall in HP. apply HP, nth_In. lia.
Qed.

Section InterpolatedFold.

Import NoiseLakeFold.

Lemma FOLDCURVE_bound : Forall (fun v => -2047 <= v <= 2047) FOLDCURVE.
Proof. unfold FOLDCURVE. repeat (constructor; [lia|]). constructor. Qed.

Lemma entry_bound (i : Z) : 0 <= i < 64 -> -2047 <= entry i <= 2047.
Proof. intros Hi. apply (nth_Forall _ _ _ FOLDCURVE_bound). exact Hi. Qed.

Lemma lookup_entry (i : Z) : 0 <= i < 64 -> lookup FOLDCURVE i = Ok (entry i).
Proof. intros Hi. apply lookup_nth. exact Hi. Qed.

Lemma dx_value : dx = 128.
Proof. reflexivity. Qed.

Lemma bucket_range (t : Z) : 0 <= bucket t <= 62.
Proof.
  unfold bucket, FOLDCURVE_N. pose proof (u8_range (Z.quot t dx)).
  destruct (Z.ltb_spec (u8 (Z.quot t dx)) (64 - 1)); lia.
Qed.

Lemma bucket_nonneg (t : Z) :
  0 <= t <= 32767 -> bucket t = Z.min (t / 128) 62.
Proof.
  intros Ht. unfold bucket, FOLDCURVE_N. rewrite dx_value.
  rewrite Z.quot_div_nonneg by lia.
  rewrite u8_small by lia.
  destruct (Z.ltb_spec (t / 128) (64 - 1)); lia.
Qed.

Lemma blend_bound (i t : Z) :
  0 <= t <= 32767 -> i = bucket t ->
  -2047 * 128 <= blend (entry i) (entry (i + 1)) i t <= 2047 * 128.
Proof.
  intros Ht Hi. rewrite bucket_nonneg in Hi by assumption.
  unfold blend. rewrite dx_value.
  destruct (Z.eq_dec i 62) as [->|Hne].
  - change (entry 62) with 0. change (entry (62 + 1)) with 0. lia.
  - assert (Hi' : i = t / 128) by lia.
    assert (Hr : 0 <= i < 62) by lia.
    pose proof (entry_bound i ltac:(lia)) as Ha.
    pose proof (entry_bound (i + 1) ltac:(lia)) as Hb.
    assert (Hw : 0 <= t - i * 128 < 128) by lia.
    generalize dependent (entry i). generalize dependent (entry (i + 1)).
    intros b Hb a Ha. nia.
Qed.

Lemma blend_wide (a b i t : Z) :
  -2047 <= a <= 2047 -> 0 <= i <= 62 -> -32768 <= t <= 32767 ->
  -100000000 <= a * ((i + 1) * 128 - t) <= 100000000 /\
  -100000000 <= a * (t - i * 128) <= 100000000.
Proof. intros Ha Hi Ht. nia. Qed.

Lemma interp_bound (t : Z) : 0 <= t <= 32767 -> -2047 <= interp t <= 2047.
Proof.
  intros Ht. unfold interp. cbv zeta.
  pose proof (blend_bound (bucket t) t Ht eq_refl) as Hb.
  rewrite dx_value.
  generalize dependent (blend (entry (bucket t)) (entry (bucket t + 1)) (bucket t) t).
  intros y Hy. lia.
Qed.

Lemma InterpolationFolder_nonneg (x : Z) :
  0 <= x <= 32767 -> InterpolationFolder x = Ok (interp x).
Proof.
  intros Hx. unfold InterpolationFolder.
  destruct (Z.geb_spec x 0); [|lia].
  pose proof (bucket_range x) as Hi.
  pose proof (interp_bound x Hx) as Hy.
  pose proof (blend_bound (bucket x) x Hx eq_refl) as Hb.
  unfold interp in *. cbv zeta in *.
  set (i := bucket x) in *.
  rewrite (lookup_entry i), (lookup_entry (i + 1)) by lia. cbn [bind].
  pose proof (entry_bound i ltac:(lia)) as Ha.
  pose proof (entry_bound (i + 1) ltac:(lia)) as Hb'.
  rewrite dx_value in *.
  destruct (blend_wide (entry i) (entry (i + 1)) i x Ha Hi ltac:(lia)) as [H1 _].
  destruct (blend_wide (entry (i + 1)) (entry i) i x Hb' Hi ltac:(lia)) as [_ H2].
  rewrite (i32_small (entry i * _)) by lia.
  rewrite (i32_small (entry (i + 1) * _)) by lia.
  unfold blend in *. rewrite dx_value in *.
  rewrite (i32_small (_ + _)) by lia.
  rewrite i32_small by lia.
  rewrite i16_small by (unfold in_i16; lia).
  reflexivity.
Qed.

Lemma InterpolationFolder_neg (x : Z) :
  -32767 <= x < 0 -> InterpolationFolder x = Ok (- interp (- x)).
Proof.
  intros Hx. unfold InterpolationFolder.
  destruct (Z.geb_spec x 0); [lia|].
  replace (-1 * x) with (- x) by lia.
  pose proof (bucket_range (- x)) as Hi.
  pose proof (interp_bound (- x) ltac:(lia)) as Hy.
  pose proof (blend_bound (bucket (- x)) (- x) ltac:(lia) eq_refl) as Hb.
  unfold interp in *. cbv zeta in *.
  set (i := bucket (- x)) in *.
  rewrite (lookup_entry i), (lookup_entry (i + 1)) by lia. cbn [bind].
  pose proof (entry_bound i ltac:(lia)) as Ha.
  pose proof (entry_bound (i + 1) ltac:(lia)) as Hb'.
  rewrite dx_value in *.
  destruct (blend_wide (entry i) (entry (i + 1)) i (- x) Ha Hi ltac:(lia)) as [H1 _].
  destruct (blend_wide (entry (i + 1)) (entry i) i (- x) Hb' Hi ltac:(lia)) as [_ H2].
  replace (-1 * entry i * ((i + 1) * 128 + x))
    with (- (entry i * ((i + 1) * 128 - - x))) by ring.
  replace (entry (i + 1) * (x + i * 128))
    with (- (entry (i + 1) * (- x - i * 128))) by ring.
  rewrite (i32_small (- (entry i * _))) by lia.
  rewrite (i32_small (- (entry (i + 1) * _))) by lia.
  unfold blend in *. rewrite dx_value in *.
  set (u := entry i * ((i + 1) * 128 - - x)) in *.
  set (v := entry (i + 1) * (- x - i * 128)) in *.
  replace (- u + - v) with (- (u + v)) by ring.
  rewrite (i32_small (- (u + v))) by lia.
  rewrite Z.quot_opp_l by lia.
  rewrite i32_small by lia.
  rewrite i16_small by (unfold in_i16; lia).
  reflexivity.
Qed.

Lemma interp_zero : interp 0 = 0.
Proof. reflexivity. Qed.

Lemma interp_boundary (i : Z) :
  0 <= i <= 62 -> interp (i * dx) = entry i.
Proof.
  intros Hi. unfold interp. cbv zeta.
  rewrite dx_value.
  rewrite bucket_nonneg by lia.
  replace (i * 128 / 128) with i by (rewrite Z.div_mul; lia).
  rewrite Z.min_l by lia.
  unfold blend. rewrite dx_value.
  replace (entry i * ((i + 1) * 128 - i * 128) + entry (i + 1) * (i * 128 - i * 128))
    with (entry i * 128) by ring.
  apply Z.quot_mul. lia.
Qed.

(** C7. The interpolated-table fold is odd: for every input [x] whose
    negation is again an [int16_t], [InterpolationFolder (-x)] is the
    negation of [InterpolationFolder x]; and at every bucket boundary
    [x = i * dx] with [0 <= i <= FOLDCURVE_N - 2] the result is the table
    entry [FOLDCURVE[i]] itself. No access leaves the table. *)
Theorem InterpolationFolder_odd_and_exact :
  (forall x : Z, -32767 <= x <= 32767 ->
     exists y : Z,
       InterpolationFolder x = Ok y /\ InterpolationFolder (- x) = Ok (- y)) /\
  (forall i : Z, 0 <= i <= FOLDCURVE_N - 2 ->
     exists v : Z,
       lookup FOLDCURVE i = Ok v /\ InterpolationFolder (i * dx) = Ok v).
Proof.
  split.
  - intros x Hx.
    destruct (Z.lt_trichotomy x 0) as [Hn|[->|Hp]].
    + exists (- interp (- x)). split.
      * apply InterpolationFolder_neg. lia.
      * rewrite Z.opp_involutive. apply InterpolationFolder_nonneg. lia.
    + exists 0. split; reflexivity.
    + exists (interp x). split.
      * apply InterpolationFolder_nonneg. lia.
      * rewrite InterpolationFolder_neg by lia.
        now rewrite Z.opp_involutive.
  - intros i Hi. unfold FOLDCURVE_N in Hi. exists (entry i). split.
    + apply lookup_entry. lia.
    + rewrite InterpolationFolder_nonneg by (rewrite dx_value; lia).
      f_equal. apply interp_boundary. lia.
Qed.

Lemma InterpolationFolder_odd_and_exact_witness :
  InterpolationFolder 1000 = Ok 2041 /\ InterpolationFolder (- 1000) = Ok (- 2041) /\
  InterpolationFolder (5 * dx) = Ok 1720.
Proof.
  destruct InterpolationFolder_odd_and_exact as [Hodd Hexact].
  destruct (Hodd 1000 ltac:(lia)) as (y & Hy & Hny).
  destruct (Hexact 5 ltac:(unfold FOLDCURVE_N; lia)) as (v & Hv & Hb).
  assert (y = 2041) as -> by (vm_compute in Hy; congruence).
  assert (v = 1720) as -> by (vm_compute in Hv; congruence).
  split; [exact Hy|]. split; [exact Hny|exact Hb].
Defined.

Lemma InterpolationFolder_total (x : Z) : exists y : Z, InterpolationFolder x = Ok y.
Proof.
  unfold InterpolationFolder.
  destruct (x >=? 0).
  - pose proof (bucket_range x) as Hi.
    rewrite (lookup_entry (bucket x)), (lookup_entry (bucket x + 1)) by lia.
    cbn [bind]. eauto.
  - pose proof (bucket_range (-1 * x)) as Hi.
    rewrite (lookup_entry (bucket (-1 * x))), (lookup_entry (bucket (-1 * x) + 1)) by lia.
    cbn [bind]. eauto.
Qed.

End InterpolatedFold.

(** ** The parameter tables *)

Lemma nondecreasing_head (a : Z) (l : list Z) (j : nat) :
  nondecreasing (a :: l) = true -> (j < length l)%nat -> a <= nth j l 0.
Proof.
  revert a j. induction l as [|b l IH]; intros a j Hs Hj; [simpl in Hj; lia|].
  cbn [nondecreasing] in Hs. apply andb_prop in Hs. destruct Hs as [Hab Hs].
  apply Z.leb_le in Hab.
  destruct j as [|j]; [exact Hab|].
  cbn [nth]. etransitivity; [exact Hab|]. apply IH; [exact Hs|simpl in Hj; lia].
Qed.

Lemma nondecreasing_nth (l : list Z) :
  nondecreasing l = true ->
  forall i j : nat, (i <= j < length l)%nat -> nth i l 0 <= nth j l 0.
Proof.
  induction l as [|a l IH]; intros Hs i j Hij; [simpl in Hij; lia|].
  destruct i as [|i], j as [|j]; try lia.
  - cbn [nth]. apply nondecreasing_head; [exact Hs|simpl in Hij; lia].
  - cbn [nth]. apply IH; [|simpl in Hij; lia].
    destruct l; [reflexivity|]. cbn [nondecreasing] in Hs.
    now apply andb_prop in Hs.
Qed.

Lemma all_below_nth (bound : Z) (l : list Z) (i : Z) :
  all_below bound l = true -> 0 <= i < Z.of_nat (length l) ->
  0 <= nth (Z.to_nat i) l 0 < bound.
Proof.
  intros Hb Hi. unfold all_below in Hb. rewrite forallb_forall in Hb.
  specialize (Hb (nth (Z.to_nat i) l 0) ltac:(apply nth_In; lia)). lia.
Qed.

(** A clamped table lookup, the shape shared by the three mappers:
    in bounds, monotone, constant from the clamp index on. *)
Section ClampedLookup.

Variables (tbl : list Z) (top bound : Z) (wrap : Z -> Z) (mapper : Z -> result Z).
Hypothesis top_in : 0 <= top < Z.of_nat (length tbl).
Hypothesis tbl_sorted : nondecreasing tbl = true.
Hypothesis tbl_below : all_below bound tbl = true.
Hypothesis wrap_small : forall v, 0 <= v < bound -> wrap v = v.
Hypothesis mapper_eq : forall p, 0 <= p < 256 ->
  mapper p = (v <- lookup tbl (Z.min p top) ;; Ok (wrap v)).

Lemma clamped_value (p : Z) :
  0 <= p < 256 -> mapper p = Ok (nth (Z.to_nat (Z.min p top)) tbl 0).
Proof.
  intros Hp. rewrite mapper_eq by assumption.
  rewrite lookup_nth by lia. cbn [bind]. f_equal.
  apply wrap_small. apply all_below_nth; [exact tbl_below|lia].
Qed.

Lemma clamped_monotone (p p' v v' : Z) :
  0 <= p <= p' -> p' < 256 -> mapper p = Ok v -> mapper p' = Ok v' -> v <= v'.
Proof.
  intros Hp Hp' Hv Hv'.
  rewrite clamped_value in Hv, Hv' by lia.
  injection Hv as <-. injection Hv' as <-.
  apply nondecreasing_nth; [exact tbl_sorted|lia].
Qed.

Lemma clamped_top (p : Z) :
  top <= p < 256 -> mapper p = Ok (nth (Z.to_nat top) tbl 0).
Proof.
  intros Hp. rewrite clamped_value by lia. now rewrite Z.min_r by lia.
Qed.

End ClampedLookup.

Lemma Parameter2Clk_shape (p : Z) :
  0 <= p < 256 ->
  NoiseLake.Parameter2Clk p =
    (v <- lookup NoiseLake.FREQ_SCALE (Z.min p 63) ;; Ok (u16 v)).
Proof.
  intros Hp. unfold NoiseLake.Parameter2Clk. rewrite u8_small by assumption.
  destruct (Z.ltb_spec p 64); [rewrite Z.min_l by lia|rewrite Z.min_r by lia];
    reflexivity.
Qed.

Lemma Fold_Parameter2Clk_shape (p : Z) :
  0 <= p < 256 ->
  NoiseLakeFold.Parameter2Clk p =
    (v <- lookup NoiseLakeFold.CFREQ_SCALE (Z.min p 111) ;; Ok (u32 v)).
Proof.
  intros Hp. unfold NoiseLakeFold.Parameter2Clk. rewrite u8_small by assumption.
  destruct (Z.ltb_spec p 112); [rewrite Z.min_l by lia|rewrite Z.min_r by lia];
    reflexivity.
Qed.

Lemma Fold_Parameter2Frequency_shape (p : Z) :
  0 <= p < 256 ->
  NoiseLakeFold.Parameter2Frequency p =
    (v <- lookup NoiseLakeFold.CFREQ_SCALE (Z.min p 75) ;; Ok (u32 v)).
Proof.
  intros Hp. unfold NoiseLakeFold.Parameter2Frequency, NoiseLakeFold.CFREQ_SCALE_IDX_C7.
  rewrite u8_small by assumption.
  destruct (Z.gtb_spec p 75); [rewrite Z.min_r by lia|rewrite Z.min_l by lia];
    reflexivity.
Qed.

Lemma Parameter2Clk_value (p : Z) :
  0 <= p < 256 ->
  NoiseLake.Parameter2Clk p = Ok (nth (Z.to_nat (Z.min p 63)) NoiseLake.FREQ_SCALE 0).
Proof.
  apply (clamped_value NoiseLake.FREQ_SCALE 63 65536 u16);
    [simpl; lia|reflexivity|exact u16_small|exact Parameter2Clk_shape].
Qed.

Lemma Fold_Parameter2Clk_value (p : Z) :
  0 <= p < 256 ->
  NoiseLakeFold.Parameter2Clk p =
    Ok (nth (Z.to_nat (Z.min p 111)) NoiseLakeFold.CFREQ_SCALE 0).
Proof.
  apply (clamped_value NoiseLakeFold.CFREQ_SCALE 111 4294967296 u32);
    [simpl; lia|reflexivity|exact u32_small|exact Fold_Parameter2Clk_shape].
Qed.

Lemma Fold_Parameter2Frequency_value (p : Z) :
  0 <= p < 256 ->
  NoiseLakeFold.Parameter2Frequency p =
    Ok (nth (Z.to_nat (Z.min p 75)) NoiseLakeFold.CFREQ_SCALE 0).
Proof.
  apply (clamped_value NoiseLakeFold.CFREQ_SCALE 75 4294967296 u32);
    [simpl; lia|reflexivity|exact u32_small|exact Fold_Parameter2Frequency_shape].
Qed.

(** The parameter is a [uint8_t]: the lookups see it modulo 256. *)
Lemma Parameter2Clk_u8 (p : Z) :
  NoiseLake.Parameter2Clk p = NoiseLake.Parameter2Clk (u8 p).
Proof.
  unfold NoiseLake.Parameter2Clk. now rewrite (u8_small (u8 p)) by apply u8_range.
Qed.

Lemma Fold_Parameter2Clk_u8 (p : Z) :
  NoiseLakeFold.Parameter2Clk p = NoiseLakeFold.Parameter2Clk (u8 p).
Proof.
  unfold NoiseLakeFold.Parameter2Clk. now rewrite (u8_small (u8 p)) by apply u8_range.
Qed.

Lemma Fold_Parameter2Frequency_u8 (p : Z) :
  NoiseLakeFold.Parameter2Frequency p = NoiseLakeFold.Parameter2Frequency (u8 p).
Proof.
  unfold NoiseLakeFold.Parameter2Frequency.
  now rewrite (u8_small (u8 p)) by apply u8_range.
Qed.

Lemma Fold_Parameter2Frequency_total (p : Z) :
  exists v : Z, NoiseLakeFold.Parameter2Frequency p = Ok v.
Proof.
  rewrite Fold_Parameter2Frequency_u8.
  rewrite Fold_Parameter2Frequency_value by apply u8_range. eauto.
Qed.

(** C8, amended. The three table lookups never leave their table and are
    monotonically non-decreasing in the parameter. [Parameter2Clk] clamps
    every parameter from the maximum on ([BNC_MAX_PARAM = 63], respectively
    [NL_MAX_PARAM = 111]) to the last entry of its table; the table-driven
    [Parameter2Frequency] clamps every parameter from [CFREQ_SCALE_IDX_C7]
    on to entry 75 of [CFREQ_SCALE], which is 209300 and not the last
    entry of that table. *)
Theorem parameter_tables_monotone_and_clamped :
  (forall p : Z, exists v : Z, NoiseLake.Parameter2Clk p = Ok v) /\
  (forall p : Z, exists v : Z, NoiseLakeFold.Parameter2Clk p = Ok v) /\
  (forall p : Z, exists v : Z, NoiseLakeFold.Parameter2Frequency p = Ok v) /\
  (forall p p' v v' : Z, 0 <= p <= p' -> p' < 256 ->
     (NoiseLake.Parameter2Clk p = Ok v ->
      NoiseLake.Parameter2Clk p' = Ok v' -> v <= v') /\
     (NoiseLakeFold.Parameter2Clk p = Ok v ->
      NoiseLakeFold.Parameter2Clk p' = Ok v' -> v <= v') /\
     (NoiseLakeFold.Parameter2Frequency p = Ok v ->
      NoiseLakeFold.Parameter2Frequency p' = Ok v' -> v <= v')) /\
  (forall p : Z, NoiseLake.BNC_MAX_PARAM <= p < 256 ->
     NoiseLake.Parameter2Clk p = Ok (last NoiseLake.FREQ_SCALE 0)) /\
  (forall p : Z, NoiseLakeFold.NL_MAX_PARAM <= p < 256 ->
     NoiseLakeFold.Parameter2Clk p = Ok (last NoiseLakeFold.CFREQ_SCALE 0)) /\
  (forall p : Z, NoiseLakeFold.CFREQ_SCALE_IDX_C7 <= p < 256 ->
     NoiseLakeFold.Parameter2Frequency p =
       lookup NoiseLakeFold.CFREQ_SCALE NoiseLakeFold.CFREQ_SCALE_IDX_C7 /\
     NoiseLakeFold.Parameter2Frequency p = Ok 209300).
Proof.
  repeat split.
  - intros p. rewrite Parameter2Clk_u8, Parameter2Clk_value by apply u8_range. eauto.
  - intros p. rewrite Fold_Parameter2Clk_u8, Fold_Parameter2Clk_value by apply u8_range.
    eauto.
  - apply Fold_Parameter2Frequency_total.
  - eapply (clamped_monotone NoiseLake.FREQ_SCALE 63 65536 u16);
      eauto using u16_small, Parameter2Clk_shape; simpl; lia.
  - eapply (clamped_monotone NoiseLakeFold.CFREQ_SCALE 111 4294967296 u32);
      eauto using u32_small, Fold_Parameter2Clk_shape; simpl; lia.
  - eapply (clamped_monotone NoiseLakeFold.CFREQ_SCALE 75 4294967296 u32);
      eauto using u32_small, Fold_Parameter2Frequency_shape; simpl; lia.
  - intros p Hp. unfold NoiseLake.BNC_MAX_PARAM in Hp.
    rewrite Parameter2Clk_value by lia. rewrite Z.min_r by lia. reflexivity.
  - intros p Hp. unfold NoiseLakeFold.NL_MAX_PARAM in Hp.
    rewrite Fold_Parameter2Clk_value by lia. rewrite Z.min_r by lia. reflexivity.
  - unfold NoiseLakeFold.CFREQ_SCALE_IDX_C7 in *.
    rewrite Fold_Parameter2Frequency_value by lia. rewrite Z.min_r by lia. reflexivity.
  - unfold NoiseLakeFold.CFREQ_SCALE_IDX_C7 in *.
    rewrite Fold_Parameter2Frequency_value by lia. rewrite Z.min_r by lia. reflexivity.
Qed.

Lemma parameter_tables_monotone_and_clamped_witness :
  NoiseLake.Parameter2Clk 200 = Ok 16667 /\
  NoiseLakeFold.Parameter2Clk 200 = Ok 1666667 /\
  NoiseLakeFold.Parameter2Frequency 200 = Ok 209300 /\
  (NoiseLakeFold.Parameter2Frequency 10 = Ok 4900 ->
   NoiseLakeFold.Parameter2Frequency 20 = Ok 8731 -> 4900 <= 8731).
Proof.
  destruct parameter_tables_monotone_and_clamped
    as (_ & _ & _ & Hmono & Hclk & Hclk' & Hfreq).
  split; [exact (Hclk 200 ltac:(unfold NoiseLake.BNC_MAX_PARAM; lia))|].
  split; [exact (Hclk' 200 ltac:(unfold NoiseLakeFold.NL_MAX_PARAM; lia))|].
  split; [exact (proj2 (Hfreq 200 ltac:(unfold NoiseLakeFold.CFREQ_SCALE_IDX_C7; lia)))|].
  exact (proj2 (proj2 (Hmono 10 20 4900 8731 ltac:(lia) ltac:(lia)))).
Defined.

(** C8, as stated, fails for the table-driven [Parameter2Frequency]: at
    the maximum parameter it returns entry 75, not the table's last
    entry. *)
Lemma Parameter2Frequency_not_last_entry :
  NoiseLakeFold.Parameter2Frequency NoiseLakeFold.NL_MAX_PARAM = Ok 209300 /\
  last NoiseLakeFold.CFREQ_SCALE 0 = 1666667 /\
  NoiseLakeFold.Parameter2Frequency NoiseLakeFold.NL_MAX_PARAM
    <> Ok (last NoiseLakeFold.CFREQ_SCALE 0).
Proof.
  split; [reflexivity|]. split; [reflexivity|].
  vm_compute. discriminate.
Qed.

(** ** Flipping one bit *)

Lemma i16_add_idem (a b : Z) : i16 (i16 a + b) = i16 (a + b).
Proof.
  unfold i16, swrap.
  change (2 ^ (16 - 1)) with 32768. change (2 ^ 16) with 65536. lia.
Qed.

Lemma shiftl_one (k : Z) : 0 <= k -> Z.shiftl 1 k = 2 ^ k.
Proof. intros Hk. rewrite Z.shiftl_mul_pow2 by assumption. lia. Qed.

Lemma lxor_pow2_bits (b k j : Z) :
  0 <= k -> 0 <= j ->
  Z.testbit (Z.lxor b (2 ^ k)) j = xorb (Z.testbit b j) (j =? k).
Proof.
  intros Hk Hj. rewrite Z.lxor_spec, Z.pow2_bits_eqb by assumption.
  now rewrite (Z.eqb_sym k j).
Qed.

Lemma lxor_pow2_below (a k n : Z) :
  0 <= a < 2 ^ n -> 0 <= k < n -> 0 <= Z.lxor a (2 ^ k) < 2 ^ n.
Proof.
  intros Ha Hk.
  assert (Hp : 0 < 2 ^ k) by (apply Z.pow_pos_nonneg; lia).
  assert (Hnn : 0 <= Z.lxor a (2 ^ k)) by (apply Z.lxor_nonneg; lia).
  split; [exact Hnn|].
  destruct (Z.eq_dec (Z.lxor a (2 ^ k)) 0) as [->|Hz]; [lia|].
  apply Z.log2_lt_pow2; [lia|].
  pose proof (Z.log2_lxor a (2 ^ k) ltac:(lia) ltac:(lia)) as Hl.
  rewrite Z.log2_pow2 in Hl by lia.
  assert (Hla : Z.log2 a < n).
  { destruct (Z.eq_dec a 0) as [->|Hne]; [simpl; lia|].
    apply Z.log2_lt_pow2; lia. }
  lia.
Qed.

Lemma lxor_pow2_in_i16 (b k : Z) :
  in_i16 b -> 0 <= k < 15 -> in_i16 (Z.lxor b (2 ^ k)).
Proof.
  unfold in_i16. intros Hb Hk.
  destruct (Z.le_gt_cases 0 b) as [Hpos|Hneg].
  - pose proof (lxor_pow2_below b k 15 ltac:(change (2 ^ 15) with 32768; lia) Hk) as Hx.
    change (2 ^ 15) with 32768 in Hx. lia.
  - pose proof (lxor_pow2_below (Z.lnot b) k 15) as Hx.
    change (2 ^ 15) with 32768 in Hx.
    rewrite <- Z.lnot_lxor_l in Hx. unfold Z.lnot in Hx.
    generalize dependent (Z.lxor b (2 ^ k)). intros y Hy. lia.
Qed.

Lemma bitflip_biased (bias noise k : Z) :
  0 <= k < 15 ->
  i16 (bitflip bias noise k + bias) = Z.lxor (i16 (noise + bias)) (2 ^ k).
Proof.
  intros Hk. unfold bitflip. rewrite shiftl_one by lia.
  rewrite i16_add_idem.
  rewrite (i16_small (Z.lxor _ _))
    by (apply lxor_pow2_in_i16; [apply i16_range|exact Hk]).
  replace (Z.lxor (i16 (noise + bias)) (2 ^ k) - bias + bias)
    with (Z.lxor (i16 (noise + bias)) (2 ^ k)) by lia.
  apply i16_small, lxor_pow2_in_i16; [apply i16_range|exact Hk].
Qed.

Lemma bitflip_range (noise k : Z) :
  -2047 <= noise <= 2048 -> 0 <= k < 12 ->
  0 <= noise + 2047 <= 4095 /\
  bitflip 2047 noise k + 2047 = Z.lxor (noise + 2047) (2 ^ k) /\
  0 <= bitflip 2047 noise k + 2047 <= 4095.
Proof.
  intros Hn Hk. split; [lia|].
  pose proof (lxor_pow2_below (noise + 2047) k 12
                ltac:(change (2 ^ 12) with 4096; lia) Hk) as Hx.
  change (2 ^ 12) with 4096 in Hx.
  unfold bitflip. rewrite shiftl_one by lia.
  rewrite (i16_small (noise + 2047)) by (unfold in_i16; lia).
  rewrite (i16_small (Z.lxor _ _)) by (unfold in_i16; lia).
  rewrite i16_small by (unfold in_i16; lia). lia.
Qed.

Lemma bit_draw_range (r : Z) : 0 <= random r 0 12 < 12.
Proof. apply random_range. lia. Qed.

(** ** The noise source of HEM_NoiseLake.ino *)

Lemma Proportion_const (p p_max out_max : Z) :
  p_max <> 0 -> Proportion p p_max out_max = Ok (Z.quot (p * out_max) p_max).
Proof.
  intros Hp. unfold Proportion, cdiv.
  destruct (Z.eqb_spec p_max 0); [contradiction|reflexivity].
Qed.

Lemma Parameter2Frequency_value (p : Z) :
  NoiseLake.Parameter2Frequency p = Ok (u16 (Z.quot (u8 p * 969) 63 + 30)).
Proof.
  unfold NoiseLake.Parameter2Frequency, NoiseLake.BNC_MAX_PARAM.
  now rewrite Proportion_const by discriminate.
Qed.

Lemma Parameter2Frequency_monotone (p p' v v' : Z) :
  0 <= p <= p' -> p' < 256 ->
  NoiseLake.Parameter2Frequency p = Ok v ->
  NoiseLake.Parameter2Frequency p' = Ok v' -> v <= v'.
Proof.
  intros Hp Hp'. rewrite !Parameter2Frequency_value.
  rewrite !u8_small by lia. intros [= <-] [= <-].
  rewrite !Z.quot_div_nonneg by lia.
  rewrite !u16_small by lia. lia.
Qed.

(** The only division of the noise source that can fault is the burst
    amplitude of Crackle, and it does so exactly when the threshold
    [eta] is drawn as 0 while the increment is positive. *)
Lemma noise_source_fault (nm phi dphi noise r1 r2 : Z) (e : fault) :
  NoiseLake.noise_source nm phi dphi noise r1 r2 = Fault e <->
  nm = NOISE_MODE_CRACKLE /\ u16 (random r1 0 CLK_PHI_MAX) = 0 /\ 0 < dphi /\
  e = DivByZero.
Proof.
  unfold NoiseLake.noise_source, cdiv, NOISE_MODE_CRACKLE.
  destruct (Z.eqb_spec nm 2) as [Hm|Hm].
  - set (eta := u16 (random r1 0 CLK_PHI_MAX)).
    destruct (Z.ltb_spec eta dphi) as [Hlt|Hge].
    + destruct (Z.eqb_spec eta 0) as [Hz|Hz]; cbn [bind].
      * split; [intros [= <-]; repeat split; lia|intros (_ & _ & _ & ->); reflexivity].
      * split; [discriminate|intros (_ & Hz' & _); contradiction].
    + split; [discriminate|intros (_ & Hz & Hd & _); lia].
  - destruct (clk_advance phi dphi) as [phi' w].
    destruct w; [destruct (nm =? NOISE_MODE_BITFLIP)|];
      (split; [discriminate|intros (Hm' & _); contradiction]).
Qed.

Lemma noise_source_bitflip (phi dphi noise r1 r2 : Z) :
  snd (clk_advance phi dphi) = true ->
  NoiseLake.noise_source NOISE_MODE_BITFLIP phi dphi noise r1 r2 =
    Ok (fst (clk_advance phi dphi),
        bitflip NoiseLake.NOISE_VALUE_MAX noise (random r1 0 12)).
Proof.
  intros Hw. unfold NoiseLake.noise_source.
  change (NOISE_MODE_BITFLIP =? NOISE_MODE_CRACKLE) with false. cbv iota.
  destruct (clk_advance phi dphi) as [phi' w]. simpl in Hw. subst w.
  now rewrite Z.eqb_refl.
Qed.

(** Without a wrap the noise value is kept, in every clocked mode. *)
Lemma noise_source_no_wrap (nm phi dphi noise r1 r2 : Z) :
  nm <> NOISE_MODE_CRACKLE -> snd (clk_advance phi dphi) = false ->
  NoiseLake.noise_source nm phi dphi noise r1 r2 =
    Ok (fst (clk_advance phi dphi), noise).
Proof.
  intros Hm Hw. unfold NoiseLake.noise_source.
  destruct (Z.eqb_spec nm NOISE_MODE_CRACKLE); [contradiction|].
  destruct (clk_advance phi dphi) as [phi' w]. simpl in Hw. now subst w.
Qed.

Lemma noise_source_white (nm phi dphi noise r1 r2 : Z) :
  nm <> NOISE_MODE_CRACKLE -> nm <> NOISE_MODE_BITFLIP ->
  snd (clk_advance phi dphi) = true ->
  NoiseLake.noise_source nm phi dphi noise r1 r2 =
    Ok (fst (clk_advance phi dphi),
        i16 (random r1 (- NoiseLake.NOISE_VALUE_MAX) NoiseLake.NOISE_VALUE_MAX)).
Proof.
  intros Hm Hb Hw. unfold NoiseLake.noise_source.
  destruct (Z.eqb_spec nm NOISE_MODE_CRACKLE); [contradiction|].
  destruct (clk_advance phi dphi) as [phi' w]. simpl in Hw. subst w.
  destruct (Z.eqb_spec nm NOISE_MODE_BITFLIP); [contradiction|reflexivity].
Qed.

Lemma white_draw_range (r : Z) :
  -2047 <= i16 (random r (- NoiseLake.NOISE_VALUE_MAX) NoiseLake.NOISE_VALUE_MAX) <= 2046.
Proof.
  pose proof (random_range r (- NoiseLake.NOISE_VALUE_MAX) NoiseLake.NOISE_VALUE_MAX
                ltac:(unfold NoiseLake.NOISE_VALUE_MAX; lia)) as Hr.
  unfold NoiseLake.NOISE_VALUE_MAX in *.
  rewrite i16_small by (unfold in_i16; lia). lia.
Qed.

(** The amplitude of a Crackle burst whose quotient fits an [int16_t]. *)
Lemma crackle_burst_range (d r2 : Z) :
  1 <= d <= 32767 ->
  let a := i16 d in
  let a := if a >? 8 then 8 else a in
  let a := i16 (a * (if random_to r2 2 >? 0 then 1 else -1)) in
  -2047 <= i16 (Z.quot (a * NoiseLake.NOISE_VALUE_MAX) 8) <= 2047.
Proof.
  intros Hd. cbv zeta. unfold NoiseLake.NOISE_VALUE_MAX.
  rewrite (i16_small d) by (unfold in_i16; lia).
  set (a := if d >? 8 then 8 else d).
  assert (Ha : 1 <= a <= 8) by (unfold a; destruct (Z.gtb_spec d 8); lia).
  clearbody a.
  destruct (random_to r2 2 >? 0).
  - rewrite (i16_small (a * 1)) by (unfold in_i16; lia).
    rewrite i16_small by (unfold in_i16; lia). lia.
  - rewrite (i16_small (a * -1)) by (unfold in_i16; lia).
    rewrite i16_small by (unfold in_i16; lia). lia.
Qed.

Lemma noise_source_range (nm phi dphi noise r1 r2 phi' noise' : Z) :
  - NoiseLake.NOISE_VALUE_MAX <= noise <= NoiseLake.NOISE_VALUE_MAX + 1 ->
  0 <= dphi ->
  (nm = NOISE_MODE_CRACKLE ->
   Z.quot dphi (u16 (random r1 0 CLK_PHI_MAX)) <= 32767) ->
  NoiseLake.noise_source nm phi dphi noise r1 r2 = Ok (phi', noise') ->
  - NoiseLake.NOISE_VALUE_MAX <= noise' <= NoiseLake.NOISE_VALUE_MAX + 1 /\
  (nm <> NOISE_MODE_BITFLIP -> noise <= NoiseLake.NOISE_VALUE_MAX ->
   noise' <= NoiseLake.NOISE_VALUE_MAX).
Proof.
  intros Hn Hd Hq Hs.
  destruct (Z.eq_dec nm NOISE_MODE_CRACKLE) as [Hm|Hm].
  - subst nm. specialize (Hq eq_refl).
    unfold NoiseLake.noise_source in Hs.
    change (NOISE_MODE_CRACKLE =? NOISE_MODE_CRACKLE) with true in Hs. cbv iota in Hs.
    set (eta := u16 (random r1 0 CLK_PHI_MAX)) in *.
    pose proof (u16_range (random r1 0 CLK_PHI_MAX)) as Heta. fold eta in Heta.
    destruct (Z.ltb_spec eta dphi) as [Hlt|Hge].
    + unfold cdiv in Hs. destruct (Z.eqb_spec eta 0) as [Hz|Hz]; [discriminate|].
      cbn [bind] in Hs. injection Hs as _ <-.
      assert (Hd1 : 1 <= Z.quot dphi eta <= 32767).
      { split; [|exact Hq]. rewrite Z.quot_div_nonneg by lia.
        apply Z.div_le_lower_bound; lia. }
      pose proof (crackle_burst_range (Z.quot dphi eta) r2 Hd1) as Hb.
      cbv zeta in Hb. unfold NoiseLake.NOISE_VALUE_MAX in *. lia.
    + injection Hs as _ <-. unfold NoiseLake.NOISE_VALUE_MAX in *.
      rewrite i16_small by (unfold in_i16; lia). lia.
  - destruct (snd (clk_advance phi dphi)) eqn:Hw.
    + destruct (Z.eq_dec nm NOISE_MODE_BITFLIP) as [Hb|Hb].
      * subst nm. rewrite noise_source_bitflip in Hs by exact Hw.
        injection Hs as _ <-. unfold NoiseLake.NOISE_VALUE_MAX in *.
        pose proof (bitflip_range noise (random r1 0 12) ltac:(lia)
                      (bit_draw_range r1)) as (_ & _ & Hr).
        split; [lia|]. intros Hne. now contradiction Hne.
      * rewrite noise_source_white in Hs by assumption.
        injection Hs as _ <-. pose proof (white_draw_range r1) as Hr.
        unfold NoiseLake.NOISE_VALUE_MAX in *.
        change (- (2047)) with (-2047) in *. lia.
    + rewrite noise_source_no_wrap in Hs by assumption.
      injection Hs as _ <-. lia.
Qed.

(** ** One tick of HEM_NoiseLake.ino *)

Section NoiseLakeTick.

Import NoiseLake.
Context {F : Type} `{Env F}.

Lemma Controller_after_source (s : state F) (i : tick_in) (phi n : Z) :
  noise_source (noise_mode s) (clk_phi s) (clk_dphi s) (noise s) (rnd1 i) (rnd2 i)
    = Ok (phi, n) ->
  Controller s i =
    Ok (after_tick s i phi n, channel_trace s i n Ch0 ++ channel_trace s i n Ch1).
Proof.
  intros Hn. unfold Controller. rewrite Hn. cbn [bind].
  unfold channel_body. cbn [fst snd state_filter filter _noise noise get set at0 at1
    cursor noise_mode state_clock clk_phi clk_dphi].
  rewrite !Parameter2Frequency_value. unfold BNC_MAX_PARAM.
  rewrite !Proportion_const by discriminate. cbn [bind].
  unfold after_tick, channel_trace, held, fed_freq, fed_q.
  destruct s as [c nm [f0 f1] [sf0 sf1] sc ph dp ns [h0 h1]].
  destruct i as [r1 r2 [g0 g1] [u0 u1]].
  cbn [fst snd state_filter filter _noise noise get set at0 at1 Gate undef_signal
    cursor noise_mode state_clock clk_phi clk_dphi].
  destruct g0, g1; reflexivity.
Qed.

Lemma Controller_fault_source (s : state F) (i : tick_in) (e : fault) :
  noise_source (noise_mode s) (clk_phi s) (clk_dphi s) (noise s) (rnd1 i) (rnd2 i)
    = Fault e ->
  Controller s i = Fault e.
Proof. intros Hn. unfold Controller. now rewrite Hn. Qed.

Lemma Controller_inv (s s' : state F) (i : tick_in) (tr : list event) :
  Controller s i = Ok (s', tr) ->
  exists phi n : Z,
    noise_source (noise_mode s) (clk_phi s) (clk_dphi s) (noise s) (rnd1 i) (rnd2 i)
      = Ok (phi, n) /\
    s' = after_tick s i phi n /\
    tr = channel_trace s i n Ch0 ++ channel_trace s i n Ch1.
Proof.
  intros Hc.
  destruct (noise_source (noise_mode s) (clk_phi s) (clk_dphi s) (noise s)
              (rnd1 i) (rnd2 i)) as [[phi n]|e] eqn:Hn.
  - rewrite (Controller_after_source s i phi n Hn) in Hc.
    injection Hc as <- <-. eauto.
  - rewrite (Controller_fault_source s i e Hn) in Hc. discriminate.
Qed.

(** A tick faults exactly when its noise source does: every other
    divisor of the tick is a non-zero constant. *)
Lemma Controller_fault_iff (s : state F) (i : tick_in) (e : fault) :
  Controller s i = Fault e <->
  noise_mode s = NOISE_MODE_CRACKLE /\
  u16 (random (rnd1 i) 0 CLK_PHI_MAX) = 0 /\ 0 < clk_dphi s /\ e = DivByZero.
Proof.
  rewrite <- noise_source_fault with (phi := clk_phi s) (noise := noise s)
    (r2 := rnd2 i).
  destruct (noise_source (noise_mode s) (clk_phi s) (clk_dphi s) (noise s)
              (rnd1 i) (rnd2 i)) as [[phi n]|e'] eqn:Hn.
  - rewrite (Controller_after_source s i phi n Hn). split; discriminate.
  - rewrite (Controller_fault_source s i e' Hn).
    split; intros [= ->]; reflexivity.
Qed.

(** In the clocked modes the phase of the state advances by
    [clk_advance]; Crackle leaves it alone. *)
Lemma Controller_clock (s s' : state F) (i : tick_in) (tr : list event) :
  Controller s i = Ok (s', tr) ->
  clk_phi s' =
    if noise_mode s =? NOISE_MODE_CRACKLE then clk_phi s
    else fst (clk_advance (clk_phi s) (clk_dphi s)).
Proof.
  intros Hc. apply Controller_inv in Hc. destruct Hc as (phi & n & Hn & -> & _).
  cbn [clk_phi after_tick]. unfold noise_source in Hn.
  destruct (noise_mode s =? NOISE_MODE_CRACKLE).
  - destruct (_ <? _) in Hn.
    + destruct (cdiv _ _) in Hn; [|discriminate]. cbn [bind] in Hn. congruence.
    + congruence.
  - destruct (clk_advance (clk_phi s) (clk_dphi s)) as [phi' w].
    destruct w; [destruct (_ =? _) in Hn|]; cbn [fst]; congruence.
Qed.

Lemma held_gate (s : state F) (i : tick_in) (n : Z) (ch : channel) :
  (get (Gate i) ch = true -> held i s n ch = get (_noise s) ch) /\
  (get (Gate i) ch = false -> held i s n ch = n).
Proof. unfold held. split; intros ->; reflexivity. Qed.

Lemma held_after (s : state F) (i : tick_in) (phi n : Z) (ch : channel) :
  get (_noise (after_tick s i phi n)) ch = held i s n ch.
Proof. destruct ch; reflexivity. Qed.

Lemma filter_after (s : state F) (i : tick_in) (phi n : Z) (ch : channel) :
  get (filter (after_tick s i phi n)) ch =
    feed (get (filter s) ch) (held i s n ch)
         (fed_freq (get (state_filter s) ch)) (fed_q (get (state_filter s) ch)).
Proof. destruct ch; reflexivity. Qed.

Lemma fed_to_tick (s : state F) (i : tick_in) (n : Z) (ch : channel) :
  fed_to ch (channel_trace s i n Ch0 ++ channel_trace s i n Ch1)
    = Some (held i s n ch).
Proof. destruct ch; reflexivity. Qed.

Lemma out_of_tick (s : state F) (i : tick_in) (n : Z) (ch : channel) :
  out_of ch (channel_trace s i n Ch0 ++ channel_trace s i n Ch1) =
    Some (Z.quot (tap (mode (get (state_filter s) ch)) (held i s n ch)
                    (feed (get (filter s) ch) (held i s n ch)
                          (fed_freq (get (state_filter s) ch))
                          (fed_q (get (state_filter s) ch)))
                    (get (undef_signal i) ch)) 2).
Proof. destruct ch; reflexivity. Qed.



Lemma tap_off (noise undef : Z) (flt : F) : tap FILTER_MODE_OFF noise flt undef = noise.
Proof. reflexivity. Qed.

End NoiseLakeTick.

(** ** One tick of the wavefolder version *)

Section FoldTick.

Import NoiseLakeFold.
Context {F : Type} `{Env F}.

Lemma Fold_noise_source_bitflip (phi dphi noise r1 r2 in0 : Z) :
  snd (clk_advance phi dphi) = true ->
  noise_source NOISE_MODE_BITFLIP phi dphi noise r1 r2 in0 =
    Ok (fst (clk_advance phi dphi), bitflip NOISE_VALUE_MAX noise (random r1 0 12)).
Proof.
  intros Hw. unfold noise_source.
  change (NOISE_MODE_BITFLIP =? NOISE_MODE_CRACKLE) with false. cbv iota.
  destruct (clk_advance phi dphi) as [phi' w]. simpl in Hw. subst w.
  now rewrite Z.eqb_refl.
Qed.

Lemma Fold_Controller_after_source (s : state F) (i : tick_in) (phi n : Z) :
  noise_source (noise_mode s) (clk_phi s) (clk_dphi s) (noise s)
               (rnd1 i) (rnd2 i) (In0 i) = Ok (phi, n) ->
  exists p2f pq out1 : Z,
    Parameter2Frequency (f (state_filter s)) = Ok p2f /\
    Proportion (q (state_filter s)) NL_MAX_PARAM 2020 = Ok pq /\
    Controller s i =
      Ok ({| cursor := cursor s; noise_mode := noise_mode s;
             filter := feed (filter s) n (i32 p2f) (i32 pq);
             state_clock := state_clock s; state_filter := state_filter s;
             state_wavefolder := state_wavefolder s;
             clk_phi := phi; clk_dphi := clk_dphi s; noise := n |},
          [EvFeed Ch0 n (i32 p2f) (i32 pq);
           EvOut Ch0 (Z.quot (tap (mode (state_filter s)) n
                                (feed (filter s) n (i32 p2f) (i32 pq))
                                (undef_signal i)) 2);
           EvOut Ch1 out1]).
Proof.
  intros Hn. unfold Controller. rewrite Hn. cbn [bind].
  destruct (Fold_Parameter2Frequency_total (f (state_filter s))) as [p2f Hp].
  rewrite Hp. cbn [bind]. unfold NL_MAX_PARAM.
  rewrite (Proportion_const _ 111) by discriminate. cbn [bind].
  change (Z.quot 111 4) with 27.
  rewrite (Proportion_const _ 27) by discriminate. cbn [bind].
  match goal with
  | |- context [InterpolationFolder ?x] =>
      destruct (InterpolationFolder_total x) as [y Hy]; rewrite Hy
  end.
  cbn [bind]. exists p2f. eexists. eexists.
  split; [reflexivity|]. split; reflexivity.
Qed.

Lemma Fold_Controller_inv (s s' : state F) (i : tick_in) (tr : list event) :
  Controller s i = Ok (s', tr) ->
  exists phi n p2f pq out1 : Z,
    noise_source (noise_mode s) (clk_phi s) (clk_dphi s) (noise s)
                 (rnd1 i) (rnd2 i) (In0 i) = Ok (phi, n) /\
    Parameter2Frequency (f (state_filter s)) = Ok p2f /\
    Proportion (q (state_filter s)) NL_MAX_PARAM 2020 = Ok pq /\
    noise s' = n /\ clk_phi s' = phi /\
    filter s' = feed (filter s) n (i32 p2f) (i32 pq) /\
    tr = [EvFeed Ch0 n (i32 p2f) (i32 pq);
          EvOut Ch0 (Z.quot (tap (mode (state_filter s)) n
                               (feed (filter s) n (i32 p2f) (i32 pq))
                               (undef_signal i)) 2);
          EvOut Ch1 out1].
Proof.
  intros Hc.
  destruct (noise_source (noise_mode s) (clk_phi s) (clk_dphi s) (noise s)
              (rnd1 i) (rnd2 i) (In0 i)) as [[phi n]|e] eqn:Hn.
  - destruct (Fold_Controller_after_source s i phi n Hn)
      as (p2f & pq & out1 & Hp & Hq & Hr).
    rewrite Hr in Hc. injection Hc as <- <-.
    exists phi, n, p2f, pq, out1. repeat (split; [assumption || reflexivity|]).
    reflexivity.
  - unfold Controller in Hc. rewrite Hn in Hc. discriminate.
Qed.

End FoldTick.

(** ** One tick of the draft *)

Section DraftTick.

Import NoiseLakeDraft.
Context {F : Type} `{Env F}.

Lemma Draft_Parameter2Frequency_value (p : Z) :
  Parameter2Frequency p = Ok (u16 (Z.quot (u8 p * 969) 63 + 30)).
Proof.
  unfold Parameter2Frequency, BNC_MAX_PARAM.
  now rewrite Proportion_const by discriminate.
Qed.

Lemma Draft_Controller_total (s : state F) (i : tick_in) :
  exists (s' : state F) (tr : list event),
    Controller s i = Ok (s', tr) /\
    noise s' = snd (noise_source (noise_mode s) (clk_phi s) (clk_dphi s) (noise s)
                                 (rnd1 i)).
Proof.
  unfold Controller.
  destruct (noise_source (noise_mode s) (clk_phi s) (clk_dphi s) (noise s) (rnd1 i))
    as [phi n].
  unfold channel_body. cbn [bind state_filter get].
  rewrite !Draft_Parameter2Frequency_value. cbn [bind state_filter get].
  unfold BNC_MAX_PARAM. rewrite !Proportion_const by discriminate.
  cbn [bind]. eexists. eexists. split; reflexivity.
Qed.

End DraftTick.

(** ** Properties of a whole tick *)

Lemma clk_advance_always_wraps (clk_phi clk_dphi : Z) :
  0 <= clk_phi -> CLK_PHI_MAX <= clk_dphi ->
  clk_phi + clk_dphi < 18446744073709551616 ->
  snd (clk_advance clk_phi clk_dphi) = true.
Proof.
  intros Hphi Hd Hsum. unfold clk_advance, CLK_PHI_MAX in *.
  rewrite (u64_small (clk_phi + clk_dphi)) by lia.
  destruct (Z.geb_spec (clk_phi + clk_dphi) 65535); [reflexivity|lia].
Qed.

(** C1. The burst amplitude of Crackle divides by the drawn threshold
    [eta] without excluding 0. After [Start], the button moved to the
    noise-mode cursor and the encoder turned one step up, the applet is in
    Crackle mode with the increment 65535; the tick whose first draw is 0
    has [eta = 0 < clk_dphi] and evaluates [clk_dphi / eta] with a zero
    divisor. Both versions with a Crackle mode do so. *)
Theorem crackle_divides_by_zero :
  (exists s : NoiseLake.state SVF.svf,
     Run.crackle_selected = Ok s /\
     NoiseLake.noise_mode s = NOISE_MODE_CRACKLE /\
     NoiseLake.clk_dphi s = 65535 /\
     u16 (random 0 0 CLK_PHI_MAX) = 0 /\
     NoiseLake.Controller s (Run.tick 0 0 false) = Fault DivByZero) /\
  (exists s : NoiseLakeFold.state SVF.svf,
     Run.fold_crackle_selected = Ok s /\
     NoiseLakeFold.noise_mode s = NOISE_MODE_CRACKLE /\
     NoiseLakeFold.clk_dphi s = 65535 /\
     NoiseLakeFold.Controller s (Run.fold_tick 0 0 false) = Fault DivByZero).
Proof.
  split.
  - eexists. split; [vm_compute; reflexivity|].
    split; [reflexivity|]. split; [reflexivity|]. split; reflexivity.
  - eexists. split; [vm_compute; reflexivity|].
    split; [reflexivity|]. split; reflexivity.
Qed.

Lemma Fold_noise_source_white (F : Type) (E : Env F) (phi dphi noise r1 r2 in0 : Z) :
  snd (clk_advance phi dphi) = true ->
  NoiseLakeFold.noise_source NOISE_MODE_WHITE phi dphi noise r1 r2 in0 =
    Ok (fst (clk_advance phi dphi),
        i16 (random r1 (- NoiseLakeFold.NOISE_VALUE_MAX) NoiseLakeFold.NOISE_VALUE_MAX)).
Proof.
  intros Hw. unfold NoiseLakeFold.noise_source.
  change (NOISE_MODE_WHITE =? NOISE_MODE_CRACKLE) with false. cbv iota.
  destruct (clk_advance phi dphi) as [p w]. cbn [fst snd] in *. subst w.
  reflexivity.
Qed.

Section TickClaims.

Context {F : Type} `{Env F}.


(** The gate test of HEM_NoiseLake.ino, over two consecutive ticks:
    when the gate of a channel reads true on the second tick, the sample
    fed to the filter of that channel is the sample fed on the first
    tick, whatever the noise source did; when it reads false, the shared
    noise value as updated by this tick is fed. The wavefolder version
    has no such test: on every tick its filter is fed the shared noise
    value. *)
Lemma gate_holds_channel_sample :
  (forall (s s1 s2 : NoiseLake.state F) (i1 i2 : NoiseLake.tick_in)
          (tr1 tr2 : list event) (ch : channel),
     NoiseLake.Controller s i1 = Ok (s1, tr1) ->
     NoiseLake.Controller s1 i2 = Ok (s2, tr2) ->
     (get (NoiseLake.Gate i2) ch = true ->
      fed_to ch tr2 = fed_to ch tr1 /\
      fed_to ch tr2 = Some (get (NoiseLake._noise s1) ch)) /\
     (get (NoiseLake.Gate i2) ch = false ->
      fed_to ch tr2 = Some (NoiseLake.noise s2))) /\
  (forall (s s' : NoiseLakeFold.state F) (i : NoiseLakeFold.tick_in)
          (tr : list event),
     NoiseLakeFold.Controller s i = Ok (s', tr) ->
     fed_to Ch0 tr = Some (NoiseLakeFold.noise s')).
Proof.
  split.
  - intros s s1 s2 i1 i2 tr1 tr2 ch Hc1 Hc2.
    apply Controller_inv in Hc1. destruct Hc1 as (phi1 & n1 & _ & -> & ->).
    apply Controller_inv in Hc2. destruct Hc2 as (phi2 & n2 & _ & -> & ->).
    rewrite !fed_to_tick.
    split; intros Hg.
    + rewrite (proj1 (held_gate _ i2 n2 ch) Hg), held_after. split; reflexivity.
    + rewrite (proj2 (held_gate _ i2 n2 ch) Hg). reflexivity.
  - intros s s' i tr Hc.
    apply Fold_Controller_inv in Hc.
    destruct Hc as (phi & n & p2f & pq & out1 & _ & _ & _ & <- & _ & _ & ->).
    reflexivity.
Qed.

(** Where the noise value does stay bounded in HEM_NoiseLake.ino: a
    value within [[-NOISE_VALUE_MAX, NOISE_VALUE_MAX + 1]] stays within
    that range over a completed tick, in every noise mode, as long as in
    Crackle mode the burst quotient [clk_dphi / eta] fits an [int16_t].
    A White draw, such a Crackle burst and the decay even stay within
    [[-NOISE_VALUE_MAX, NOISE_VALUE_MAX]] when started there. *)
Lemma noise_stays_in_range
  (s s' : NoiseLake.state F) (i : NoiseLake.tick_in) (tr : list event) :
  - NoiseLake.NOISE_VALUE_MAX <= NoiseLake.noise s <= NoiseLake.NOISE_VALUE_MAX + 1 ->
  0 <= NoiseLake.clk_dphi s ->
  (NoiseLake.noise_mode s = NOISE_MODE_CRACKLE ->
   Z.quot (NoiseLake.clk_dphi s) (u16 (random (NoiseLake.rnd1 i) 0 CLK_PHI_MAX))
     <= 32767) ->
  NoiseLake.Controller s i = Ok (s', tr) ->
  - NoiseLake.NOISE_VALUE_MAX <= NoiseLake.noise s' <= NoiseLake.NOISE_VALUE_MAX + 1 /\
  (NoiseLake.noise_mode s <> NOISE_MODE_BITFLIP ->
   NoiseLake.noise s <= NoiseLake.NOISE_VALUE_MAX ->
   NoiseLake.noise s' <= NoiseLake.NOISE_VALUE_MAX).
Proof.
  intros Hn Hd Hq Hc.
  apply Controller_inv in Hc. destruct Hc as (phi & n & Hs & -> & _).
  exact (noise_source_range _ _ _ _ _ _ _ _ Hn Hd Hq Hs).
Qed.

(** C9, amended. A channel whose filter mode is Off emits its current
    noise sample divided by 2, truncating, whatever the filter object
    and the frequency and resonance parameters are; in the wavefolder
    version this is output 0 and the sample is the noise value of the
    tick. With the clock rate parameter at its maximum, 63 in
    HEM_NoiseLake.ino and 111 in the wavefolder version (the increment
    that [Start] or the encoder sets there), White noise, a phase that
    does not overflow its 64 bits and, in HEM_NoiseLake.ino, the gate of
    the channel low, that sample is the fresh draw of the tick. *)
Theorem off_mode_emits_half_noise :
  (forall (s s' : NoiseLake.state F) (i : NoiseLake.tick_in) (tr : list event)
          (ch : channel),
     NoiseLake.Controller s i = Ok (s', tr) ->
     mode (get (NoiseLake.state_filter s) ch) = FILTER_MODE_OFF ->
     fed_to ch tr = Some (get (NoiseLake._noise s') ch) /\
     out_of ch tr = Some (Z.quot (get (NoiseLake._noise s') ch) 2)) /\
  (forall (s t s' t' : NoiseLake.state F) (i : NoiseLake.tick_in)
          (tr tr' : list event) (ch : channel),
     NoiseLake.Controller s i = Ok (s', tr) ->
     NoiseLake.Controller t i = Ok (t', tr') ->
     mode (get (NoiseLake.state_filter s) ch) = FILTER_MODE_OFF ->
     mode (get (NoiseLake.state_filter t) ch) = FILTER_MODE_OFF ->
     NoiseLake.noise_mode s = NoiseLake.noise_mode t ->
     NoiseLake.clk_phi s = NoiseLake.clk_phi t ->
     NoiseLake.clk_dphi s = NoiseLake.clk_dphi t ->
     NoiseLake.noise s = NoiseLake.noise t ->
     get (NoiseLake._noise s) ch = get (NoiseLake._noise t) ch ->
     out_of ch tr = out_of ch tr') /\
  (forall (s s' : NoiseLake.state F) (i : NoiseLake.tick_in) (tr : list event)
          (ch : channel),
     NoiseLake.Controller s i = Ok (s', tr) ->
     mode (get (NoiseLake.state_filter s) ch) = FILTER_MODE_OFF ->
     NoiseLake.noise_mode s = NOISE_MODE_WHITE ->
     (NoiseLake.clk_dphi s = CLKSetCFreq FSAMPLE_CHZ \/
      exists clk : Z,
        NoiseLake.Parameter2Clk 63 = Ok clk /\
        NoiseLake.clk_dphi s = CLKSetCFreq (clk * 100)) ->
     0 <= NoiseLake.clk_phi s ->
     NoiseLake.clk_phi s + NoiseLake.clk_dphi s < 2 ^ 64 ->
     get (NoiseLake.Gate i) ch = false ->
     let draw := random (NoiseLake.rnd1 i) (- NoiseLake.NOISE_VALUE_MAX)
                        NoiseLake.NOISE_VALUE_MAX in
     NoiseLake.noise s' = draw /\ out_of ch tr = Some (Z.quot draw 2)) /\
  (forall (s s' : NoiseLakeFold.state F) (i : NoiseLakeFold.tick_in)
          (tr : list event),
     NoiseLakeFold.Controller s i = Ok (s', tr) ->
     mode (NoiseLakeFold.state_filter s) = FILTER_MODE_OFF ->
     out_of Ch0 tr = Some (Z.quot (NoiseLakeFold.noise s') 2)) /\
  (forall (s t s' t' : NoiseLakeFold.state F) (i : NoiseLakeFold.tick_in)
          (tr tr' : list event),
     NoiseLakeFold.Controller s i = Ok (s', tr) ->
     NoiseLakeFold.Controller t i = Ok (t', tr') ->
     mode (NoiseLakeFold.state_filter s) = FILTER_MODE_OFF ->
     mode (NoiseLakeFold.state_filter t) = FILTER_MODE_OFF ->
     NoiseLakeFold.noise_mode s = NoiseLakeFold.noise_mode t ->
     NoiseLakeFold.clk_phi s = NoiseLakeFold.clk_phi t ->
     NoiseLakeFold.clk_dphi s = NoiseLakeFold.clk_dphi t ->
     NoiseLakeFold.noise s = NoiseLakeFold.noise t ->
     out_of Ch0 tr = out_of Ch0 tr') /\
  (forall (s s' : NoiseLakeFold.state F) (i : NoiseLakeFold.tick_in)
          (tr : list event),
     NoiseLakeFold.Controller s i = Ok (s', tr) ->
     mode (NoiseLakeFold.state_filter s) = FILTER_MODE_OFF ->
     NoiseLakeFold.noise_mode s = NOISE_MODE_WHITE ->
     (NoiseLakeFold.clk_dphi s = CLKSetCFreq FSAMPLE_CHZ \/
      exists clk : Z,
        NoiseLakeFold.Parameter2Clk 111 = Ok clk /\
        NoiseLakeFold.clk_dphi s = CLKSetCFreq clk) ->
     0 <= NoiseLakeFold.clk_phi s ->
     NoiseLakeFold.clk_phi s + NoiseLakeFold.clk_dphi s < 2 ^ 64 ->
     let draw := random (NoiseLakeFold.rnd1 i) (- NoiseLakeFold.NOISE_VALUE_MAX)
                        NoiseLakeFold.NOISE_VALUE_MAX in
     NoiseLakeFold.noise s' = draw /\ out_of Ch0 tr = Some (Z.quot draw 2)).
Proof.
  split; [|split; [|split; [|split; [|split]]]].
  - intros s s' i tr ch Hc Hm.
    apply Controller_inv in Hc. destruct Hc as (phi & n & _ & -> & ->).
    rewrite fed_to_tick, out_of_tick, held_after, Hm, tap_off.
    split; reflexivity.
  - intros s t s' t' i tr tr' ch Hs Ht Hms Hmt Hnm Hphi Hdphi Hnoise Hheld.
    apply Controller_inv in Hs. destruct Hs as (phi & n & Hn & -> & ->).
    apply Controller_inv in Ht. destruct Ht as (phi' & n' & Hn' & -> & ->).
    rewrite Hnm, Hphi, Hdphi, Hnoise, Hn' in Hn. injection Hn as _ <-.
    rewrite !out_of_tick, Hms, Hmt, !tap_off. unfold held. now rewrite Hheld.
  - intros s s' i tr ch Hc Hm Hw Hd Hphi Hsum Hg draw.
    apply Controller_inv in Hc. destruct Hc as (phi & n & Hn & -> & ->).
    assert (Hmax : CLK_PHI_MAX <= NoiseLake.clk_dphi s).
    { destruct Hd as [->|(clk & Hclk & ->)].
      - vm_compute. discriminate.
      - vm_compute in Hclk. injection Hclk as <-. vm_compute. discriminate. }
    change (2 ^ 64) with 18446744073709551616 in Hsum.
    rewrite Hw, noise_source_white in Hn;
      [|discriminate|discriminate|now apply clk_advance_always_wraps].
    assert (Hnv : n = i16 draw) by (unfold draw; congruence). subst n. clear Hn.
    pose proof (random_range (NoiseLake.rnd1 i)
      (- NoiseLake.NOISE_VALUE_MAX) NoiseLake.NOISE_VALUE_MAX
      ltac:(unfold NoiseLake.NOISE_VALUE_MAX; lia)) as Hr.
    fold draw in Hr. unfold NoiseLake.NOISE_VALUE_MAX in Hr.
    rewrite (i16_small draw) by (unfold in_i16; lia).
    rewrite out_of_tick, Hm, tap_off, (proj2 (held_gate s i draw ch) Hg).
    split; reflexivity.
  - intros s s' i tr Hc Hm.
    apply Fold_Controller_inv in Hc.
    destruct Hc as (phi & n & p2f & pq & out1 & _ & _ & _ & <- & _ & _ & ->).
    cbn [out_of]. now rewrite Hm, tap_off.
  - intros s t s' t' i tr tr' Hs Ht Hms Hmt Hnm Hphi Hdphi Hnoise.
    apply Fold_Controller_inv in Hs.
    destruct Hs as (phi & n & p2f & pq & out1 & Hn & _ & _ & _ & _ & _ & ->).
    apply Fold_Controller_inv in Ht.
    destruct Ht as (phi' & n' & p2f' & pq' & out1' & Hn' & _ & _ & _ & _ & _ & ->).
    rewrite Hnm, Hphi, Hdphi, Hnoise, Hn' in Hn. injection Hn as _ <-.
    cbn [out_of]. now rewrite Hms, Hmt, !tap_off.
  - intros s s' i tr Hc Hm Hw Hd Hphi Hsum draw.
    apply Fold_Controller_inv in Hc.
    destruct Hc as (phi & n & p2f & pq & out1 & Hn & _ & _ & Hns & _ & _ & ->).
    rewrite Hns. clear Hns.
    assert (Hmax : CLK_PHI_MAX <= NoiseLakeFold.clk_dphi s).
    { destruct Hd as [->|(clk & Hclk & ->)].
      - vm_compute. discriminate.
      - vm_compute in Hclk. injection Hclk as <-. vm_compute. discriminate. }
    change (2 ^ 64) with 18446744073709551616 in Hsum.
    rewrite Hw, Fold_noise_source_white in Hn
      by (now apply clk_advance_always_wraps).
    assert (Hnv : n = i16 draw) by (unfold draw; congruence). subst n. clear Hn.
    pose proof (random_range (NoiseLakeFold.rnd1 i)
      (- NoiseLakeFold.NOISE_VALUE_MAX) NoiseLakeFold.NOISE_VALUE_MAX
      ltac:(unfold NoiseLakeFold.NOISE_VALUE_MAX; lia)) as Hr.
    fold draw in Hr. unfold NoiseLakeFold.NOISE_VALUE_MAX in Hr.
    rewrite (i16_small draw) by (unfold in_i16; lia).
    cbn [out_of]. rewrite Hm, tap_off. split; reflexivity.
Qed.

End TickClaims.

Section BitFlipClaim.

Context {F : Type} `{Env F}.

Lemma bitflip_one_bit (noise k : Z) :
  0 <= k < 12 ->
  let before := i16 (noise + 2047) in
  let after := i16 (bitflip 2047 noise k + 2047) in
  after = Z.lxor before (2 ^ k) /\
  (forall j : Z, 0 <= j ->
     Z.testbit after j = xorb (Z.testbit before j) (j =? k)) /\
  (-2047 <= noise <= 2048 ->
   before = noise + 2047 /\ after = bitflip 2047 noise k + 2047 /\
   0 <= before <= 4095 /\ 0 <= after <= 4095).
Proof.
  intros Hk before after.
  assert (Ha : after = Z.lxor before (2 ^ k))
    by (apply bitflip_biased; lia).
  split; [exact Ha|]. split.
  - intros j Hj. rewrite Ha. apply lxor_pow2_bits; lia.
  - intros Hn. destruct (bitflip_range noise k Hn Hk) as (Hb & He & Hr).
    unfold before, after.
    rewrite !i16_small by (unfold in_i16; lia). lia.
Qed.

(** C4, amended. In the two versions with a signed noise value, a clock
    wrap in BitFlip mode completes the tick, and the new noise value
    differs from the old one in exactly one of the low 12 bits of the
    biased representation [value + NOISE_VALUE_MAX]: the biased value is
    XORed with [2 ^ k] for the drawn [k < 12]. For a noise value within
    [[-NOISE_VALUE_MAX, NOISE_VALUE_MAX + 1]] the biased values are
    non-negative 12-bit numbers. The draft has no bias: on every tick it
    XORs the drawn bit into its non-negative noise value itself. *)
Theorem bitflip_flips_one_bit :
  (forall (s : NoiseLake.state F) (i : NoiseLake.tick_in),
     NoiseLake.noise_mode s = NOISE_MODE_BITFLIP ->
     snd (clk_advance (NoiseLake.clk_phi s) (NoiseLake.clk_dphi s)) = true ->
     exists (s' : NoiseLake.state F) (tr : list event),
       NoiseLake.Controller s i = Ok (s', tr) /\
       let k := random (NoiseLake.rnd1 i) 0 12 in
       let before := i16 (NoiseLake.noise s + NoiseLake.NOISE_VALUE_MAX) in
       let after := i16 (NoiseLake.noise s' + NoiseLake.NOISE_VALUE_MAX) in
       0 <= k < 12 /\
       after = Z.lxor before (2 ^ k) /\
       (forall j : Z, 0 <= j ->
          Z.testbit after j = xorb (Z.testbit before j) (j =? k)) /\
       (- NoiseLake.NOISE_VALUE_MAX <= NoiseLake.noise s
          <= NoiseLake.NOISE_VALUE_MAX + 1 ->
        before = NoiseLake.noise s + NoiseLake.NOISE_VALUE_MAX /\
        after = NoiseLake.noise s' + NoiseLake.NOISE_VALUE_MAX /\
        0 <= before <= 4095 /\ 0 <= after <= 4095)) /\
  (forall (s : NoiseLakeFold.state F) (i : NoiseLakeFold.tick_in),
     NoiseLakeFold.noise_mode s = NOISE_MODE_BITFLIP ->
     snd (clk_advance (NoiseLakeFold.clk_phi s) (NoiseLakeFold.clk_dphi s)) = true ->
     exists (s' : NoiseLakeFold.state F) (tr : list event),
       NoiseLakeFold.Controller s i = Ok (s', tr) /\
       let k := random (NoiseLakeFold.rnd1 i) 0 12 in
       let before := i16 (NoiseLakeFold.noise s + NoiseLakeFold.NOISE_VALUE_MAX) in
       let after := i16 (NoiseLakeFold.noise s' + NoiseLakeFold.NOISE_VALUE_MAX) in
       0 <= k < 12 /\
       after = Z.lxor before (2 ^ k) /\
       (forall j : Z, 0 <= j ->
          Z.testbit after j = xorb (Z.testbit before j) (j =? k)) /\
       (- NoiseLakeFold.NOISE_VALUE_MAX <= NoiseLakeFold.noise s
          <= NoiseLakeFold.NOISE_VALUE_MAX + 1 ->
        before = NoiseLakeFold.noise s + NoiseLakeFold.NOISE_VALUE_MAX /\
        after = NoiseLakeFold.noise s' + NoiseLakeFold.NOISE_VALUE_MAX /\
        0 <= before <= 4095 /\ 0 <= after <= 4095)) /\
  (forall (s : NoiseLakeDraft.state F) (i : NoiseLakeDraft.tick_in),
     NoiseLakeDraft.noise_mode s = NOISE_MODE_BITFLIP ->
     0 <= NoiseLakeDraft.noise s <= NoiseLakeDraft.NOISE_VALUE_MAX ->
     exists (s' : NoiseLakeDraft.state F) (tr : list event),
       NoiseLakeDraft.Controller s i = Ok (s', tr) /\
       let k := random (NoiseLakeDraft.rnd1 i) 0 12 in
       0 <= k < 12 /\
       NoiseLakeDraft.noise s' = Z.lxor (NoiseLakeDraft.noise s) (2 ^ k) /\
       0 <= NoiseLakeDraft.noise s' <= NoiseLakeDraft.NOISE_VALUE_MAX /\
       (forall j : Z, 0 <= j ->
          Z.testbit (NoiseLakeDraft.noise s') j =
            xorb (Z.testbit (NoiseLakeDraft.noise s) j) (j =? k))).
Proof.
  split; [|split].
  - intros s i Hm Hw.
    pose proof (noise_source_bitflip (NoiseLake.clk_phi s) (NoiseLake.clk_dphi s)
                  (NoiseLake.noise s) (NoiseLake.rnd1 i) (NoiseLake.rnd2 i) Hw) as Hn.
    rewrite <- Hm in Hn.
    eexists. eexists. split; [exact (Controller_after_source s i _ _ Hn)|].
    cbv zeta. cbn [NoiseLake.noise after_tick]. unfold NoiseLake.NOISE_VALUE_MAX.
    pose proof (bit_draw_range (NoiseLake.rnd1 i)) as Hk.
    destruct (bitflip_one_bit (NoiseLake.noise s) _ Hk) as (Ha & Hb & Hc).
    split; [exact Hk|]. split; [exact Ha|]. split; [exact Hb|exact Hc].
  - intros s i Hm Hw.
    pose proof (Fold_noise_source_bitflip (NoiseLakeFold.clk_phi s)
                  (NoiseLakeFold.clk_dphi s) (NoiseLakeFold.noise s)
                  (NoiseLakeFold.rnd1 i) (NoiseLakeFold.rnd2 i)
                  (NoiseLakeFold.In0 i) Hw) as Hn.
    rewrite <- Hm in Hn.
    destruct (Fold_Controller_after_source s i _ _ Hn)
      as (p2f & pq & out1 & _ & _ & Hc).
    eexists. eexists. split; [exact Hc|].
    cbv zeta. cbn [NoiseLakeFold.noise]. unfold NoiseLakeFold.NOISE_VALUE_MAX.
    pose proof (bit_draw_range (NoiseLakeFold.rnd1 i)) as Hk.
    destruct (bitflip_one_bit (NoiseLakeFold.noise s) _ Hk) as (Ha & Hb & Hd).
    split; [exact Hk|]. split; [exact Ha|]. split; [exact Hb|exact Hd].
  - intros s i Hm Hn.
    destruct (Draft_Controller_total s i) as (s' & tr & Hc & Hv).
    exists s', tr. split; [exact Hc|]. cbv zeta.
    pose proof (bit_draw_range (NoiseLakeDraft.rnd1 i)) as Hk.
    unfold NoiseLakeDraft.noise_source in Hv. rewrite Hm in Hv.
    change (NOISE_MODE_BITFLIP =? NOISE_MODE_BITFLIP) with true in Hv.
    cbn [snd] in Hv. rewrite shiftl_one in Hv by lia.
    unfold NoiseLakeDraft.NOISE_VALUE_MAX in *.
    pose proof (lxor_pow2_below (NoiseLakeDraft.noise s)
                  (random (NoiseLakeDraft.rnd1 i) 0 12) 12
                  ltac:(change (2 ^ 12) with 4096; lia) Hk) as Hx.
    change (2 ^ 12) with 4096 in Hx.
    rewrite i16_small in Hv by (unfold in_i16; lia).
    split; [exact Hk|]. split; [exact Hv|]. split; [lia|].
    intros j Hj. rewrite Hv. apply lxor_pow2_bits; lia.
Qed.

End BitFlipClaim.

(** ** Concrete runs *)

Lemma flip1_run :
  Run.flip1 = Ok (Run.state_of Run.flip1 Run.started, Run.trace_of Run.flip1).
Proof. vm_compute. reflexivity. Qed.

Lemma flip2_run :
  Run.flip2 = Ok (Run.state_of Run.flip2 Run.started, Run.trace_of Run.flip2).
Proof. vm_compute. reflexivity. Qed.

Lemma flip2_held_run :
  Run.flip2_held =
    Ok (Run.state_of Run.flip2_held Run.started, Run.trace_of Run.flip2_held).
Proof. vm_compute. reflexivity. Qed.

Lemma white1_run :
  Run.white1 = Ok (Run.state_of Run.white1 Run.white_off, Run.trace_of Run.white1).
Proof. vm_compute. reflexivity. Qed.

Lemma white2_run :
  Run.white2 = Ok (Run.state_of Run.white2 Run.white_off, Run.trace_of Run.white2).
Proof. vm_compute. reflexivity. Qed.

Lemma fold1_run :
  Run.fold1 = Ok (Run.state_of Run.fold1 Run.fold_started, Run.trace_of Run.fold1).
Proof. vm_compute. reflexivity. Qed.

Lemma fold2_run :
  Run.fold2 = Ok (Run.state_of Run.fold2 Run.fold_started, Run.trace_of Run.fold2).
Proof. vm_compute. reflexivity. Qed.


Lemma gate_holds_channel_sample_witness :
  fed_to Ch0 (Run.trace_of Run.flip2_held) = fed_to Ch0 (Run.trace_of Run.flip1) /\
  fed_to Ch0 (Run.trace_of Run.flip2_held) = Some 2047 /\
  NoiseLake.noise (Run.state_of Run.flip2_held Run.started) = 2048 /\
  fed_to Ch0 (Run.trace_of Run.flip2) = Some 2048.
Proof.
  destruct (proj1 (@gate_holds_channel_sample SVF.svf _) _ _ _ _ _ _ _ Ch0
              flip1_run flip2_held_run) as [Hheld _].
  destruct (proj1 (@gate_holds_channel_sample SVF.svf _) _ _ _ _ _ _ _ Ch0
              flip1_run flip2_run) as [_ Hfree].
  destruct (Hheld eq_refl) as [Hsame Hval].
  split; [exact Hsame|]. split; [exact Hval|].
  split; [vm_compute; reflexivity|]. exact (Hfree eq_refl).
Defined.

(** C2. The freeze is missing in two of the three versions. In the
    wavefolder version the comment of the freeze is followed by no gate
    test: with the gates high on two consecutive ticks after [Start],
    the filter is fed 6 and then 8, the noise value as the second tick
    has just updated it. In the draft the held samples are a local
    array of [Controller]: a tick with the gates high feeds what that
    array holds on entry, here 777, not the sample fed on the tick
    before. *)
Theorem gate_freeze_missing :
  (exists (s1 s2 : NoiseLakeFold.state SVF.svf) (tr1 tr2 : list event),
     NoiseLakeFold.Controller Run.fold_started (Run.fold_tick 0 0 true) = Ok (s1, tr1) /\
     NoiseLakeFold.Controller s1 (Run.fold_tick 1 0 true) = Ok (s2, tr2) /\
     get (NoiseLakeFold.Gate (Run.fold_tick 1 0 true)) Ch0 = true /\
     fed_to Ch0 tr1 = Some 6 /\
     NoiseLakeFold.noise s2 = 8 /\
     fed_to Ch0 tr2 = Some 8 /\
     fed_to Ch0 tr2 <> fed_to Ch0 tr1) /\
  (exists (s1 s2 : NoiseLakeDraft.state SVF.svf) (tr1 tr2 : list event),
     NoiseLakeDraft.Controller Run.draft_before_wrap (Run.draft_tick 0 false)
       = Ok (s1, tr1) /\
     NoiseLakeDraft.Controller s1 Scenario.draft_tick_held = Ok (s2, tr2) /\
     get (NoiseLakeDraft.Gate Scenario.draft_tick_held) Ch0 = true /\
     get (NoiseLakeDraft.undef_noise Scenario.draft_tick_held) Ch0 = 777 /\
     fed_to Ch0 tr1 = Some 0 /\
     fed_to Ch0 tr2 = Some 777 /\
     fed_to Ch0 tr2 <> fed_to Ch0 tr1).
Proof.
  split.
  - exists (Run.state_of Run.fold1 Run.fold_started),
      (Run.state_of Run.fold2 Run.fold_started),
      (Run.trace_of Run.fold1), (Run.trace_of Run.fold2).
    split; [exact fold1_run|]. split; [exact fold2_run|].
    split; [reflexivity|]. split; [reflexivity|]. split; [reflexivity|].
    split; [reflexivity|]. vm_compute. discriminate.
  - exists (Run.state_of Run.draft1 Run.draft_before_wrap),
      (Run.state_of Scenario.draft2 Run.draft_before_wrap),
      (Run.trace_of Run.draft1), (Run.trace_of Scenario.draft2).
    split; [vm_compute; reflexivity|]. split; [vm_compute; reflexivity|].
    split; [reflexivity|]. split; [reflexivity|]. split; [reflexivity|].
    split; [reflexivity|]. vm_compute. discriminate.
Qed.

Lemma bitflip_flips_one_bit_witness :
  exists (s' : NoiseLake.state SVF.svf) (tr : list event),
    NoiseLake.Controller Run.started (Run.tick 1 0 false) = Ok (s', tr) /\
    i16 (NoiseLake.noise s' + 2047) = Z.lxor (i16 (2045 + 2047)) (2 ^ 1) /\
    0 <= i16 (NoiseLake.noise s' + 2047) <= 4095.
Proof.
  destruct (proj1 (@bitflip_flips_one_bit SVF.svf _) Run.started (Run.tick 1 0 false)
              eq_refl ltac:(vm_compute; reflexivity))
    as (s' & tr & Hc & _ & Hx & _ & Hr).
  exists s', tr. split; [exact Hc|]. split; [exact Hx|].
  destruct Hr as (_ & _ & _ & Ha); [vm_compute; split; discriminate|exact Ha].
Defined.

(** C4, as stated, fails on the draft: flipping bit 0 of the noise value
    1 over a clock wrap changes more than one bit of
    [value + NOISE_VALUE_MAX]. *)
Lemma draft_bitflip_changes_many_biased_bits :
  exists (s' : NoiseLakeDraft.state SVF.svf) (tr : list event),
    NoiseLakeDraft.Controller Run.draft_before_wrap (Run.draft_tick 0 false)
      = Ok (s', tr) /\
    NoiseLakeDraft.noise_mode Run.draft_before_wrap = NOISE_MODE_BITFLIP /\
    CLK_PHI_MAX <= NoiseLakeDraft.clk_phi Run.draft_before_wrap
                   + NoiseLakeDraft.clk_dphi Run.draft_before_wrap /\
    NoiseLakeDraft.noise Run.draft_before_wrap = 1 /\
    NoiseLakeDraft.noise s' = 0 /\
    Z.testbit (NoiseLakeDraft.noise s' + NoiseLakeDraft.NOISE_VALUE_MAX) 0
      <> Z.testbit (NoiseLakeDraft.noise Run.draft_before_wrap
                    + NoiseLakeDraft.NOISE_VALUE_MAX) 0 /\
    Z.testbit (NoiseLakeDraft.noise s' + NoiseLakeDraft.NOISE_VALUE_MAX) 1
      <> Z.testbit (NoiseLakeDraft.noise Run.draft_before_wrap
                    + NoiseLakeDraft.NOISE_VALUE_MAX) 1.
Proof.
  exists (Run.state_of Run.draft1 Run.draft_before_wrap), (Run.trace_of Run.draft1).
  split; [vm_compute; reflexivity|]. split; [reflexivity|].
  split; [vm_compute; discriminate|]. split; [reflexivity|].
  split; [reflexivity|]. split; vm_compute; discriminate.
Qed.

Lemma noise_stays_in_range_witness :
  -2047 <= NoiseLake.noise (Run.state_of Run.flip2 Run.started) <= 2048.
Proof.
  refine (proj1 (@noise_stays_in_range SVF.svf _ (Run.state_of Run.flip1 Run.started)
                   (Run.state_of Run.flip2 Run.started) (Run.tick 0 0 false)
                   (Run.trace_of Run.flip2) _ _ _ flip2_run)).
  - vm_compute. split; discriminate.
  - vm_compute. discriminate.
  - vm_compute. discriminate.
Defined.

(** C5. The noise value leaves [[-NOISE_VALUE_MAX, NOISE_VALUE_MAX]].
    In Crackle mode the quotient [clk_dphi / eta] is narrowed to an
    [int16_t] before it is clamped to 8: after [Start], with the clock
    rate one step down (parameter 62, increment 59763) and Crackle
    selected, the tick that draws [eta = 1] narrows 59763 to -5773,
    which the clamp lets through, and stores the noise value -30162. In
    BitFlip mode the toggle acts on the 12-bit biased value: from 2047 it
    reaches 2048. *)
Theorem crackle_burst_leaves_noise_range :
  (exists (s s' : NoiseLake.state SVF.svf) (tr : list event),
     Scenario.crackle_at_62 = Ok s /\
     NoiseLake.noise_mode s = NOISE_MODE_CRACKLE /\
     NoiseLake.state_clock s = 62 /\
     NoiseLake.clk_dphi s = 59763 /\
     - NoiseLake.NOISE_VALUE_MAX <= NoiseLake.noise s <= NoiseLake.NOISE_VALUE_MAX /\
     u16 (random 1 0 CLK_PHI_MAX) = 1 /\
     i16 (Z.quot 59763 1) = -5773 /\
     NoiseLake.Controller s (Run.tick 1 0 false) = Ok (s', tr) /\
     NoiseLake.noise s' = -30162 /\
     ~ (- NoiseLake.NOISE_VALUE_MAX <= NoiseLake.noise s'
        <= NoiseLake.NOISE_VALUE_MAX)) /\
  (exists (s1 s2 : NoiseLake.state SVF.svf) (tr1 tr2 : list event),
     NoiseLake.Controller Run.started (Run.tick 1 0 false) = Ok (s1, tr1) /\
     NoiseLake.Controller s1 (Run.tick 0 0 false) = Ok (s2, tr2) /\
     NoiseLake.noise_mode s1 = NOISE_MODE_BITFLIP /\
     NoiseLake.noise s1 = 2047 /\
     NoiseLake.noise s2 = 2048 /\
     ~ (- NoiseLake.NOISE_VALUE_MAX <= NoiseLake.noise s2
        <= NoiseLake.NOISE_VALUE_MAX)).
Proof.
  split.
  - exists (Run.unwrap Scenario.crackle_at_62 Run.started),
      (Run.state_of
         (NoiseLake.Controller (Run.unwrap Scenario.crackle_at_62 Run.started)
            (Run.tick 1 0 false)) Run.started),
      (Run.trace_of
         (NoiseLake.Controller (Run.unwrap Scenario.crackle_at_62 Run.started)
            (Run.tick 1 0 false))).
    split; [vm_compute; reflexivity|]. split; [reflexivity|].
    split; [reflexivity|]. split; [reflexivity|].
    split; [vm_compute; split; discriminate|].
    split; [reflexivity|]. split; [reflexivity|].
    split; [vm_compute; reflexivity|]. split; [reflexivity|].
    vm_compute. intros [Hlo _]. apply Hlo. reflexivity.
  - exists (Run.state_of Run.flip1 Run.started), (Run.state_of Run.flip2 Run.started),
      (Run.trace_of Run.flip1), (Run.trace_of Run.flip2).
    split; [exact flip1_run|]. split; [exact flip2_run|].
    split; [reflexivity|]. split; [reflexivity|]. split; [reflexivity|].
    vm_compute. intros [_ Hle]. apply Hle. reflexivity.
Qed.

Lemma fold_white1_run :
  Scenario.fold_white1 =
    Ok (Run.state_of Scenario.fold_white1 Scenario.fold_white_off,
        Run.trace_of Scenario.fold_white1).
Proof. vm_compute. reflexivity. Qed.

Lemma off_mode_emits_half_noise_witness :
  out_of Ch0 (Run.trace_of Run.white1) = Some (Z.quot 1000 2) /\
  NoiseLake.noise (Run.state_of Run.white1 Run.white_off) = 1000 /\
  out_of Ch0 (Run.trace_of Run.white2) =
    Some (Z.quot (get (NoiseLake._noise (Run.state_of Run.white2 Run.white_off)) Ch0) 2) /\
  NoiseLakeFold.state_clock Scenario.fold_white_off = 111 /\
  out_of Ch0 (Run.trace_of Scenario.fold_white1) = Some (Z.quot 1000 2).
Proof.
  destruct (@off_mode_emits_half_noise SVF.svf _)
    as (Hoff & _ & Hfresh & _ & _ & Hfold).
  destruct (Hfresh _ _ _ _ Ch0 white1_run eq_refl eq_refl (or_introl eq_refl))
    as [Hn Ho]; try (vm_compute; reflexivity || discriminate).
  destruct (Hfold _ _ _ _ fold_white1_run eq_refl eq_refl
              (or_intror (ex_intro _ 1666667 (conj eq_refl eq_refl))))
    as [_ Hfo]; try (vm_compute; reflexivity || discriminate).
  split; [exact Ho|]. split; [exact Hn|].
  split; [exact (proj2 (Hoff _ _ _ _ Ch0 white2_run eq_refl))|].
  split; [reflexivity|exact Hfo].
Defined.

(** C9, as stated, fails: with the filter of channel 0 Off, White noise
    and the clock rate parameter 63, a tick with the gate high emits the
    held sample halved, not the fresh draw halved. *)
Lemma held_channel_does_not_emit_fresh_draw :
  exists (s s1 s2 : NoiseLake.state SVF.svf) (tr1 tr2 : list event),
    Run.white_off_selected = Ok s /\
    mode (get (NoiseLake.state_filter s) Ch0) = FILTER_MODE_OFF /\
    NoiseLake.noise_mode s = NOISE_MODE_WHITE /\
    NoiseLake.state_clock s = 63 /\
    NoiseLake.Controller s (Run.tick 3047 0 false) = Ok (s1, tr1) /\
    NoiseLake.Controller s1 (Run.tick 5000 0 true) = Ok (s2, tr2) /\
    random 5000 (- NoiseLake.NOISE_VALUE_MAX) NoiseLake.NOISE_VALUE_MAX = -1141 /\
    NoiseLake.noise s2 = -1141 /\
    out_of Ch0 tr2 = Some 500 /\
    out_of Ch0 tr2 <> Some (Z.quot (-1141) 2).
Proof.
  exists Run.white_off, (Run.state_of Run.white1 Run.white_off),
    (Run.state_of Run.white2 Run.white_off),
    (Run.trace_of Run.white1), (Run.trace_of Run.white2).
  split; [vm_compute; reflexivity|]. split; [reflexivity|]. split; [reflexivity|].
  split; [reflexivity|]. split; [exact white1_run|]. split; [exact white2_run|].
  split; [reflexivity|]. split; [reflexivity|]. split; [reflexivity|].
  vm_compute. discriminate.
Qed.

(** * Further properties *)

(** ** The two unused folders *)

(** X1. The reflection folder is the identity on [[-limit, limit]] and
    lands in [[-limit, limit]] for every input of [[-3 limit, 5 limit]]:
    an excursion above [limit] is reflected a second time when the first
    reflection overshoots, one below [-limit] only once. Outside that
    interval the result stays beyond [limit]. *)
Theorem WaveFolderSimple_folds (x limit : Z) :
  0 <= limit -> 2 * limit <= 32767 -> -32767 <= x <= 32767 ->
  (- limit <= x <= limit -> WaveFolderSimple x limit = x) /\
  (-3 * limit <= x <= 5 * limit ->
   - limit <= WaveFolderSimple x limit <= limit) /\
  (x < -3 * limit ->
   WaveFolderSimple x limit = -2 * limit - x /\ limit < WaveFolderSimple x limit) /\
  (5 * limit < x ->
   WaveFolderSimple x limit = x - 4 * limit /\ limit < WaveFolderSimple x limit).
Proof.
  intros Hl Hl2 Hx. unfold WaveFolderSimple.
  destruct (Z.gtb_spec x limit) as [Hgt|Hle].
  - rewrite (i16_small (2 * limit - x)) by (unfold in_i16; lia).
    destruct (Z.ltb_spec (2 * limit - x) (- limit)) as [Hlt|Hge].
    + rewrite i16_small by (unfold in_i16; lia). repeat split; intros; lia.
    + repeat split; intros; lia.
  - destruct (Z.ltb_spec x (- limit)) as [Hlt|Hge].
    + rewrite i16_small by (unfold in_i16; lia). repeat split; intros; lia.
    + repeat split; intros; lia.
Qed.

Lemma WaveFolderSimple_folds_witness :
  WaveFolderSimple 7 10 = 7 /\ -10 <= WaveFolderSimple 45 10 <= 10 /\
  WaveFolderSimple (-31) 10 = 11 /\ WaveFolderSimple 51 10 = 11.
Proof.
  pose proof (WaveFolderSimple_folds 7 10 ltac:(lia) ltac:(lia) ltac:(lia))
    as (H1 & _).
  pose proof (WaveFolderSimple_folds 45 10 ltac:(lia) ltac:(lia) ltac:(lia))
    as (_ & H2 & _).
  pose proof (WaveFolderSimple_folds (-31) 10 ltac:(lia) ltac:(lia) ltac:(lia))
    as (_ & _ & H3 & _).
  pose proof (WaveFolderSimple_folds 51 10 ltac:(lia) ltac:(lia) ltac:(lia))
    as (_ & _ & _ & H4).
  split; [apply H1; lia|]. split; [apply H2; lia|].
  split; [apply H3; lia|apply H4; lia].
Defined.

Lemma WaveFolderSimple_triangle (x limit : Z) :
  0 < limit -> 2 * limit <= 32767 -> -3 * limit <= x <= 5 * limit ->
  -32767 <= x <= 32767 ->
  triangle (x + limit) limit = - WaveFolderSimple x limit.
Proof.
  intros Hl Hl2 Hr Hx. unfold WaveFolderSimple, triangle.
  assert (Hm : forall k r : Z, 0 <= r < 4 * limit ->
             x + limit = k * (4 * limit) + r -> (x + limit) mod (4 * limit) = r).
  { intros k r Hr' He. symmetry. apply (Z.mod_unique_pos _ _ k); lia. }
  destruct (Z.gtb_spec x limit) as [Hgt|Hle].
  - rewrite (i16_small (2 * limit - x)) by (unfold in_i16; lia).
    destruct (Z.ltb_spec (2 * limit - x) (- limit)) as [Hlt|Hge].
    + rewrite i16_small by (unfold in_i16; lia).
      rewrite (Hm 1 (x - 3 * limit)) by lia. lia.
    + destruct (Z.eq_dec x (3 * limit)) as [->|Hne].
      * rewrite (Hm 1 0) by lia. lia.
      * rewrite (Hm 0 (x + limit)) by lia. lia.
  - destruct (Z.ltb_spec x (- limit)) as [Hlt|Hge].
    + rewrite i16_small by (unfold in_i16; lia).
      rewrite (Hm (-1) (x + 5 * limit)) by lia. lia.
    + rewrite (Hm 0 (x + limit)) by lia. lia.
Qed.

(** X2. Where the reflection folder folds correctly, on
    [[-3 limit, 5 limit]], the modulo folder returns its negation: the
    two folders trace the same triangle with opposite sign. *)
Theorem WaveFolder_negates_WaveFolderSimple (x limit : Z) :
  0 < limit -> 2 * limit <= 32767 -> -3 * limit <= x <= 5 * limit ->
  -32767 <= x <= 32767 -> in_i16 (x + limit) ->
  WaveFolder x limit = Ok (- WaveFolderSimple x limit).
Proof.
  intros Hl Hl2 Hr Hx Hs.
  rewrite WaveFolder_triangle by assumption.
  now rewrite WaveFolderSimple_triangle.
Qed.

Lemma WaveFolder_negates_WaveFolderSimple_witness :
  WaveFolder 45 10 = Ok (- WaveFolderSimple 45 10).
Proof.
  apply WaveFolder_negates_WaveFolderSimple; unfold in_i16; lia.
Defined.

(** X3. The modulo folder divides by [2 * limit]: it faults with a
    division by zero exactly for [limit = 0], for every input. *)
Theorem WaveFolder_faults_iff_limit_zero (x limit : Z) (e : fault) :
  WaveFolder x limit = Fault e <-> limit = 0 /\ e = DivByZero.
Proof.
  unfold WaveFolder, crem, cdiv.
  destruct (Z.eqb_spec (2 * limit) 0) as [Hz|Hz]; cbn [bind].
  - split; [intros [= <-]; split; [lia|reflexivity]|intros [_ ->]; reflexivity].
  - split; [discriminate|intros [Hl _]; lia].
Qed.

(** ** The interpolated folder beyond its claims *)

Section InterpolatedFoldRange.

Import NoiseLakeFold.

Lemma interp_beyond_curve (t : Z) : 62 * dx <= t <= 32767 -> interp t = 0.
Proof.
  intros Ht. rewrite dx_value in Ht. unfold interp. cbv zeta.
  rewrite bucket_nonneg by lia. rewrite Z.min_r by lia.
  unfold blend. change (entry 62) with 0. change (entry (62 + 1)) with 0.
  reflexivity.
Qed.

(** X4. The interpolated folder returns a value within
    [[-NOISE_VALUE_MAX, NOISE_VALUE_MAX]] for every input from -32767 to
    32767, returns 0 at 0 and for every magnitude from [62 * dx] on, where
    the curve has ended. At -32768 the bucket index 256 narrows to 0 as a
    [uint8_t] and the result, 27136, leaves that range. *)
Theorem InterpolationFolder_range :
  (forall x : Z, -32767 <= x <= 32767 ->
     exists y : Z, InterpolationFolder x = Ok y /\
                   - NOISE_VALUE_MAX <= y <= NOISE_VALUE_MAX) /\
  (forall x : Z, 62 * dx <= x <= 32767 ->
     InterpolationFolder x = Ok 0 /\ InterpolationFolder (- x) = Ok 0) /\
  InterpolationFolder 0 = Ok 0 /\
  InterpolationFolder (-32768) = Ok 27136.
Proof.
  unfold NOISE_VALUE_MAX. split; [|split; [|split]].
  - intros x Hx. destruct (Z.lt_ge_cases x 0) as [Hn|Hp].
    + exists (- interp (- x)). split; [apply InterpolationFolder_neg; lia|].
      pose proof (interp_bound (- x) ltac:(lia)). lia.
    + exists (interp x). split; [apply InterpolationFolder_nonneg; lia|].
      pose proof (interp_bound x ltac:(lia)). lia.
  - intros x Hx. pose proof Hx as Hx'. rewrite dx_value in Hx'.
    rewrite InterpolationFolder_nonneg, InterpolationFolder_neg by lia.
    rewrite Z.opp_involutive, interp_beyond_curve by exact Hx.
    split; reflexivity.
  - reflexivity.
  - vm_compute. reflexivity.
Qed.

Lemma InterpolationFolder_range_witness :
  (exists y : Z, InterpolationFolder (-5000) = Ok y /\ -2047 <= y <= 2047) /\
  InterpolationFolder 8000 = Ok 0 /\ InterpolationFolder (- 8000) = Ok 0.
Proof.
  destruct InterpolationFolder_range as (Hb & Hz & _).
  split; [apply Hb; lia|]. apply Hz. rewrite dx_value. lia.
Defined.

(** X5. Inside bucket [i] of the curve, that is for
    [i * dx <= x < (i + 1) * dx] with [0 <= i <= FOLDCURVE_N - 2], the
    result lies between the two neighbouring table entries
    [FOLDCURVE[i]] and [FOLDCURVE[i + 1]]: the interpolation never
    overshoots the table. *)
Theorem InterpolationFolder_between_neighbours (x i : Z) :
  0 <= i <= FOLDCURVE_N - 2 -> i * dx <= x < (i + 1) * dx ->
  exists a b y : Z,
    lookup FOLDCURVE i = Ok a /\ lookup FOLDCURVE (i + 1) = Ok b /\
    InterpolationFolder x = Ok y /\ Z.min a b <= y <= Z.max a b.
Proof.
  unfold FOLDCURVE_N. rewrite dx_value. intros Hi Hx.
  exists (entry i), (entry (i + 1)), (interp x).
  split; [apply lookup_entry; lia|]. split; [apply lookup_entry; lia|].
  split; [apply InterpolationFolder_nonneg; lia|].
  unfold interp. cbv zeta. rewrite bucket_nonneg by lia.
  assert (Hd : x / 128 = i) by (symmetry; apply (Z.div_unique_pos x 128 i (x - i * 128)); lia).
  rewrite Hd, (Z.min_l i 62) by lia. unfold blend. rewrite dx_value.
  generalize (entry i) (entry (i + 1)). intros a b.
  set (w := x - i * 128). assert (Hw : 0 <= w < 128) by (unfold w; lia).
  replace ((i + 1) * 128 - x) with (128 - w) by (unfold w; lia).
  clearbody w.
  assert (Hlo : Z.min a b * 128 <= a * (128 - w) + b * w) by nia.
  assert (Hhi : a * (128 - w) + b * w <= Z.max a b * 128) by nia.
  generalize dependent (a * (128 - w) + b * w). intros s Hlo Hhi.
  generalize dependent (Z.min a b). generalize dependent (Z.max a b).
  intros M Hhi m Hlo. lia.
Qed.

Lemma InterpolationFolder_between_neighbours_witness :
  exists a b y : Z,
    lookup FOLDCURVE 7 = Ok a /\ lookup FOLDCURVE (7 + 1) = Ok b /\
    InterpolationFolder 1000 = Ok y /\ Z.min a b <= y <= Z.max a b.
Proof.
  apply (InterpolationFolder_between_neighbours 1000 7).
  - unfold FOLDCURVE_N. lia.
  - rewrite dx_value. lia.
Defined.

End InterpolatedFoldRange.

(** ** The draft *)

(** X6. The draft computes the clock increment in 32 bits: the product
    [cfreq * CLK_PHI_MAX] wraps from [cfreq = 65538] on. The increment is
    the intended quotient up to 65537 cHz, strictly below it for every
    larger [uint32_t] frequency, and never above 2576; [Start], which asks
    for the full sample rate, gets 1110. *)
Theorem Draft_CLKSetFreq_wraps :
  (forall cfreq : Z, 0 <= NoiseLakeDraft.CLKSetFreq cfreq <= 2576) /\
  (forall cfreq : Z, 0 <= cfreq <= 65537 ->
     NoiseLakeDraft.CLKSetFreq cfreq = cfreq * CLK_PHI_MAX / NoiseLakeDraft.FSAMPLE) /\
  (forall cfreq : Z, 65537 < cfreq < 2 ^ 32 ->
     NoiseLakeDraft.CLKSetFreq cfreq < cfreq * CLK_PHI_MAX / NoiseLakeDraft.FSAMPLE) /\
  (forall (F : Type) (E : Env F) (s : NoiseLakeDraft.state F) (rnd : Z),
     NoiseLakeDraft.clk_dphi (NoiseLakeDraft.Start s rnd) = 1110).
Proof.
  unfold NoiseLakeDraft.CLKSetFreq, NoiseLakeDraft.FSAMPLE, CLK_PHI_MAX, u32, uwrap.
  change (2 ^ 32) with 4294967296.
  split; [|split; [|split]].
  - intros cfreq.
    generalize (cfreq mod 4294967296 * 65535). intros p.
    pose proof (Z.mod_pos_bound p 4294967296 ltac:(lia)) as Hp.
    rewrite Z.quot_div_nonneg by lia.
    generalize dependent (p mod 4294967296). intros w Hw. lia.
  - intros cfreq Hc. rewrite (Z.mod_small cfreq) by lia.
    rewrite Z.mod_small by lia. apply Z.quot_div_nonneg; lia.
  - intros cfreq Hc. rewrite (Z.mod_small cfreq) by lia.
    pose proof (Z.mod_pos_bound (cfreq * 65535) 4294967296 ltac:(lia)) as Hp.
    rewrite Z.quot_div_nonneg by lia.
    generalize dependent ((cfreq * 65535) mod 4294967296). intros w Hw. lia.
  - intros F E s rnd. vm_compute. reflexivity.
Qed.

Lemma Draft_CLKSetFreq_wraps_witness :
  NoiseLakeDraft.CLKSetFreq 50000 = 50000 * CLK_PHI_MAX / NoiseLakeDraft.FSAMPLE /\
  NoiseLakeDraft.CLKSetFreq 1000000 < 1000000 * CLK_PHI_MAX / NoiseLakeDraft.FSAMPLE.
Proof.
  destruct Draft_CLKSetFreq_wraps as (_ & Hexact & Hbelow & _).
  split; [apply Hexact; lia|apply Hbelow].
  change (2 ^ 32) with 4294967296. lia.
Defined.

Section DraftProperties.

Import NoiseLakeDraft.
Context {F : Type} `{Env F}.

(** The sample a channel of the draft feeds: the noise of the tick with
    the gate low, the content of the local array with the gate high. *)
Lemma Draft_Controller_value (s : state F) (i : tick_in) :
  let phi := fst (noise_source (noise_mode s) (clk_phi s) (clk_dphi s) (noise s)
                               (rnd1 i)) in
  let n := snd (noise_source (noise_mode s) (clk_phi s) (clk_dphi s) (noise s)
                             (rnd1 i)) in
  let x := fun ch => if get (Gate i) ch then get (undef_noise i) ch else n in
  let fr := fun ch =>
    i32 (i32 (u16 (Z.quot (u8 (f (get (state_filter s) ch)) * 969) 63 + 30)) * 100) in
  let qv := fun ch => i32 (Z.quot (q (get (state_filter s) ch) * 2040) 63) in
  let flt := fun ch => feed (get (filter s) ch) (x ch) (fr ch) (qv ch) in
  Controller s i =
    Ok ({| cursor := cursor s; call_count := call_count s;
           noise_mode := noise_mode s;
           filter := Two (flt Ch0) (flt Ch1);
           state_filter := state_filter s;
           state_clock := state_clock s;
           clk_phi := phi; clk_dphi := clk_dphi s; noise := n |},
        [EvFeed Ch0 (x Ch0) (fr Ch0) (qv Ch0);
         EvOut Ch0 (tap (mode (get (state_filter s) Ch0)) (x Ch0) (flt Ch0)
                        (get (undef_signal i) Ch0));
         EvFeed Ch1 (x Ch1) (fr Ch1) (qv Ch1);
         EvOut Ch1 (tap (mode (get (state_filter s) Ch1)) (x Ch1) (flt Ch1)
                        (get (undef_signal i) Ch1))]).
Proof.
  cbv zeta. unfold Controller.
  destruct (noise_source (noise_mode s) (clk_phi s) (clk_dphi s) (noise s) (rnd1 i))
    as [phi n].
  unfold channel_body. cbn [bind state_filter get fst snd].
  rewrite !Draft_Parameter2Frequency_value. cbn [bind state_filter get].
  unfold BNC_MAX_PARAM. rewrite !Proportion_const by discriminate.
  cbn [bind].
  destruct s as [c cc nm [f0 f1] [sf0 sf1] sc ph dp ns].
  destruct i as [r1 [g0 g1] [u0 u1] [v0 v1]].
  cbn [fst snd state_filter filter noise get set at0 at1 Gate undef_signal undef_noise
    cursor call_count noise_mode state_clock clk_phi clk_dphi].
  destruct g0, g1; reflexivity.
Qed.

(** X7. Every tick of the draft completes. A White draw lies in
    [[0, NOISE_VALUE_MAX - 1]] whatever the value before, and a noise
    value within [[0, NOISE_VALUE_MAX]] stays there under the BitFlip
    toggle: the draft's noise is an unsigned 12-bit number. *)
Theorem Draft_noise_stays_unsigned (s : state F) (i : tick_in) :
  exists (s' : state F) (tr : list event),
    Controller s i = Ok (s', tr) /\
    (noise_mode s <> NOISE_MODE_BITFLIP -> 0 <= noise s' <= NOISE_VALUE_MAX - 1) /\
    (0 <= noise s <= NOISE_VALUE_MAX -> 0 <= noise s' <= NOISE_VALUE_MAX).
Proof.
  eexists. eexists. split; [apply Draft_Controller_value|].
  cbn [noise]. unfold noise_source, NOISE_VALUE_MAX.
  destruct (Z.eqb_spec (noise_mode s) NOISE_MODE_BITFLIP) as [Hm|Hm]; cbn [snd].
  - split; [intros Hn; contradiction|]. intros Hr.
    pose proof (bit_draw_range (rnd1 i)) as Hk.
    rewrite shiftl_one by lia.
    pose proof (lxor_pow2_below (noise s) (random (rnd1 i) 0 12) 12
                  ltac:(change (2 ^ 12) with 4096; lia) Hk) as Hx.
    change (2 ^ 12) with 4096 in Hx.
    rewrite i16_small by (unfold in_i16; lia). lia.
  - pose proof (random_range (rnd1 i) 0 4095 ltac:(lia)) as Hr.
    rewrite i16_small by (unfold in_i16; lia). split; intros; lia.
Qed.

(** X8. The phase clock of the draft drives nothing: two states that
    agree on noise mode, noise value, filters and filter parameters
    produce the same noise value and the same calls of [feed] and [Out],
    whatever their phase and increment. *)
Theorem Draft_clock_is_ignored (s t s' t' : state F) (i : tick_in)
  (tr tr' : list event) :
  noise_mode s = noise_mode t -> noise s = noise t ->
  filter s = filter t -> state_filter s = state_filter t ->
  Controller s i = Ok (s', tr) -> Controller t i = Ok (t', tr') ->
  noise s' = noise t' /\ tr = tr' /\ filter s' = filter t'.
Proof.
  intros Hm Hn Hf Hsf. rewrite !Draft_Controller_value.
  intros [= <- <-] [= <- <-]. cbn [noise filter].
  unfold noise_source. rewrite Hm, Hn, Hf, Hsf.
  destruct (noise_mode t =? NOISE_MODE_BITFLIP); cbn [snd];
    (split; [reflexivity|]); split; reflexivity.
Qed.

(** X9. In the draft a channel whose gate reads false is fed the noise
    value of the tick, and in filter mode Off that value is emitted as it
    is: the draft does not halve its output. *)
Theorem Draft_emits_noise_unhalved (s s' : state F) (i : tick_in)
  (tr : list event) (ch : channel) :
  get (Gate i) ch = false ->
  Controller s i = Ok (s', tr) ->
  fed_to ch tr = Some (noise s') /\
  (mode (get (state_filter s) ch) = FILTER_MODE_OFF ->
   out_of ch tr = Some (noise s')).
Proof.
  intros Hg. rewrite Draft_Controller_value. intros [= <- <-]. cbn [noise].
  destruct ch; cbn [get fed_to out_of] in *; rewrite Hg;
    (split; [reflexivity|]); intros ->; reflexivity.
Qed.

(** X10. In the draft the held samples live in a local array that each
    call of [Controller] starts afresh: a channel whose gate reads true is
    fed the content that array has on entry, which no earlier tick and no
    field of the applet determines. *)
Theorem Draft_gate_feeds_local_garbage (s s' : state F) (i : tick_in)
  (tr : list event) (ch : channel) :
  get (Gate i) ch = true ->
  Controller s i = Ok (s', tr) ->
  fed_to ch tr = Some (get (undef_noise i) ch).
Proof.
  intros Hg. rewrite Draft_Controller_value. intros [= <- <-].
  destruct ch; cbn [get fed_to] in *; rewrite Hg; reflexivity.
Qed.

End DraftProperties.

Lemma Draft_noise_stays_unsigned_witness :
  exists (s' : NoiseLakeDraft.state SVF.svf) (tr : list event),
    NoiseLakeDraft.Controller Run.draft_before_wrap (Run.draft_tick 7 false)
      = Ok (s', tr) /\
    0 <= NoiseLakeDraft.noise s' <= 4095.
Proof.
  destruct (@Draft_noise_stays_unsigned SVF.svf _ Run.draft_before_wrap
              (Run.draft_tick 7 false)) as (s' & tr & Hc & _ & Hr).
  exists s', tr. split; [exact Hc|]. apply Hr. vm_compute. split; discriminate.
Defined.

Lemma Draft_clock_is_ignored_witness :
  NoiseLakeDraft.clk_phi Run.draft_before_wrap
    <> NoiseLakeDraft.clk_phi (NoiseLakeDraft.Start NoiseLakeDraft.power_on 1) /\
  Run.trace_of (NoiseLakeDraft.Controller Run.draft_before_wrap (Run.draft_tick 7 false))
  = Run.trace_of (NoiseLakeDraft.Controller
                    (NoiseLakeDraft.Start NoiseLakeDraft.power_on 1)
                    (Run.draft_tick 7 false)).
Proof.
  split; [vm_compute; discriminate|].
  destruct (@Draft_Controller_total SVF.svf _ Run.draft_before_wrap
              (Run.draft_tick 7 false)) as (s' & tr & Hs & _).
  destruct (@Draft_Controller_total SVF.svf _
              (NoiseLakeDraft.Start NoiseLakeDraft.power_on 1)
              (Run.draft_tick 7 false)) as (t' & tr' & Ht & _).
  rewrite Hs, Ht. cbn [Run.trace_of].
  exact (proj1 (proj2 (@Draft_clock_is_ignored SVF.svf _ Run.draft_before_wrap
                         (NoiseLakeDraft.Start NoiseLakeDraft.power_on 1)
                         s' t' (Run.draft_tick 7 false) tr tr'
                         eq_refl eq_refl eq_refl eq_refl Hs Ht))).
Defined.

Lemma Draft_emits_noise_unhalved_witness :
  exists (s' : NoiseLakeDraft.state SVF.svf) (tr : list event),
    NoiseLakeDraft.Controller Run.draft_before_wrap (Run.draft_tick 7 false)
      = Ok (s', tr) /\
    fed_to Ch1 tr = Some (NoiseLakeDraft.noise s').
Proof.
  destruct (@Draft_Controller_total SVF.svf _ Run.draft_before_wrap
              (Run.draft_tick 7 false)) as (s' & tr & Hc & _).
  exists s', tr. split; [exact Hc|].
  exact (proj1 (@Draft_emits_noise_unhalved SVF.svf _ Run.draft_before_wrap s'
                  (Run.draft_tick 7 false) tr Ch1 eq_refl Hc)).
Defined.

Lemma Draft_gate_feeds_local_garbage_witness :
  exists (s' : NoiseLakeDraft.state SVF.svf) (tr : list event),
    NoiseLakeDraft.Controller Run.draft_before_wrap (Run.draft_tick 7 true)
      = Ok (s', tr) /\
    fed_to Ch0 tr = Some 0.
Proof.
  destruct (@Draft_Controller_total SVF.svf _ Run.draft_before_wrap
              (Run.draft_tick 7 true)) as (s' & tr & Hc & _).
  exists s', tr. split; [exact Hc|].
  exact (@Draft_gate_feeds_local_garbage SVF.svf _ Run.draft_before_wrap s'
           (Run.draft_tick 7 true) tr Ch0 eq_refl Hc).
Defined.

(** ** The control surface of HEM_NoiseLake.ino *)

Lemma constrain_range (amt low high : Z) :
  low <= high -> low <= constrain amt low high <= high.
Proof.
  intros Hlh. unfold constrain.
  destruct (Z.ltb_spec amt low); [lia|]. destruct (Z.gtb_spec amt high); lia.
Qed.

Lemma constrain_inside (amt low high : Z) :
  low <= amt <= high -> constrain amt low high = amt.
Proof.
  intros Ha. unfold constrain.
  destruct (Z.ltb_spec amt low); [lia|]. destruct (Z.gtb_spec amt high); lia.
Qed.

Lemma u8_constrain (amt high : Z) :
  0 <= high < 256 -> u8 (constrain amt 0 high) = constrain amt 0 high.
Proof.
  intros Hh. apply u8_small. pose proof (constrain_range amt 0 high). lia.
Qed.

Section Surface.

Import NoiseLake.
Context {F : Type} `{Env F}.

Lemma OnEncoderMove_total (s : state F) (d : Z) :
  exists s' : state F, OnEncoderMove s d = Ok s'.
Proof.
  unfold OnEncoderMove.
  assert (Hclk : exists clk,
            Parameter2Clk (u8 (constrain (state_clock s + d) 0 BNC_MAX_PARAM)) = Ok clk).
  { rewrite Parameter2Clk_value by apply u8_range. eauto. }
  destruct Hclk as [clk Hclk].
  split_cursor (cursor s); try (eexists; reflexivity).
  rewrite Hclk. cbn [bind]. eexists. reflexivity.
Qed.

(** X11. The button steps the cursor through the nine positions 0 to 8
    and back to 0, touching nothing else, so nine presses restore the
    state. Position 8 is idle: there an encoder step leaves the whole
    state as it is. *)
Theorem OnButtonPress_cycles (s : state F) :
  0 <= cursor s <= 8 ->
  cursor (OnButtonPress s) = (cursor s + 1) mod 9 /\
  Nat.iter 9 OnButtonPress s = s /\
  (forall d : Z, cursor s = 8 -> OnEncoderMove s d = Ok s).
Proof.
  intros Hc. destruct s as [c nm flt sf sc ph dp ns hd]. cbn [cursor] in *.
  assert (Hcases : c = 0 \/ c = 1 \/ c = 2 \/ c = 3 \/ c = 4 \/ c = 5 \/ c = 6
                   \/ c = 7 \/ c = 8) by lia.
  split; [|split].
  - cbn [OnButtonPress cursor].
    repeat (destruct Hcases as [->|Hcases]; [reflexivity|]). subst c. reflexivity.
  - repeat (destruct Hcases as [->|Hcases]; [reflexivity|]). subst c. reflexivity.
  - intros d ->. reflexivity.
Qed.

Lemma clock_increments (p : Z) :
  0 <= p <= 63 ->
  196 <= CLKSetCFreq (nth (Z.to_nat p) FREQ_SCALE 0 * 100) <= CLK_PHI_MAX + 1 /\
  (CLKSetCFreq (nth (Z.to_nat p) FREQ_SCALE 0 * 100) <= CLK_PHI_MAX <-> p < 63).
Proof.
  intros Hp.
  assert (Hall : forallb (fun n : nat =>
            let d := CLKSetCFreq (nth n FREQ_SCALE 0 * 100) in
            (196 <=? d) && (d <=? CLK_PHI_MAX + 1)
            && Bool.eqb (d <=? CLK_PHI_MAX) (Z.of_nat n <? 63)) (seq 0 64) = true)
    by (vm_compute; reflexivity).
  rewrite forallb_forall in Hall.
  specialize (Hall (Z.to_nat p) ltac:(apply in_seq; lia)). cbv zeta in Hall.
  rewrite Z2Nat.id in Hall by lia.
  apply andb_prop in Hall. destruct Hall as [Hb He].
  apply andb_prop in Hb. destruct Hb as [Hlo Hhi].
  apply Z.leb_le in Hlo, Hhi. apply Bool.eqb_prop in He.
  split; [lia|]. rewrite <- Z.leb_le, <- Z.ltb_lt, He. reflexivity.
Qed.

Lemma encoder_clock (s s' : state F) (d : Z) :
  cursor s = 0 -> OnEncoderMove s d = Ok s' ->
  let sc := constrain (state_clock s + d) 0 BNC_MAX_PARAM in
  s' = {| cursor := cursor s; noise_mode := noise_mode s;
          filter := filter s; state_filter := state_filter s;
          state_clock := sc;
          clk_phi := clk_phi s;
          clk_dphi := CLKSetCFreq (nth (Z.to_nat sc) FREQ_SCALE 0 * 100);
          noise := noise s; _noise := _noise s |}.
Proof.
  intros Hc He sc. unfold OnEncoderMove in He. rewrite Hc in He.
  cbv beta iota zeta in He. unfold BNC_MAX_PARAM in *.
  rewrite u8_constrain in He by lia. fold sc in He.
  pose proof (constrain_range (state_clock s + d) 0 63 ltac:(lia)) as Hr.
  fold sc in Hr.
  rewrite Parameter2Clk_value in He by lia. rewrite Z.min_l in He by lia.
  cbn [bind] in He. injection He as <-. now rewrite Hc.
Qed.

(** X12. Every state the host can reach has its control parameters
    within the ranges [constrain] allows (clock rate, filter frequency
    and resonance 0 to 63, noise mode 0 to 2, filter modes 0 to 4), its
    cursor within 0 to 8, and a clock increment of at most
    [CLK_PHI_MAX + 1]. *)
Theorem reachable_in_range (s : state F) :
  reachable s ->
  params_in_range s /\ 0 <= cursor s <= 8 /\ 0 <= clk_dphi s <= CLK_PHI_MAX + 1.
Proof.
  unfold params_in_range, filter_params_in_range, BNC_MAX_PARAM.
  induction 1 as [|s rnd _ IH|s _ IH|s s' d _ IH Hd He|s s' i tr _ IH Hc].
  - vm_compute. repeat split; discriminate.
  - destruct IH as ((Hsc & _) & Hcur & _).
    cbn [Start state_clock noise_mode state_filter get at0 at1 f q mode cursor clk_dphi].
    change (CLKSetCFreq FSAMPLE_CHZ) with 65535.
    unfold NOISE_MODE_BITFLIP, FILTER_MODE_LP, FILTER_MODE_BP, CLK_PHI_MAX. lia.
  - destruct IH as (Hp & Hcur & Hdphi).
    cbn [OnButtonPress state_clock noise_mode state_filter cursor clk_dphi].
    split; [exact Hp|]. split; [|exact Hdphi].
    rewrite i32_small by lia. destruct (Z.gtb_spec (cursor s + 1) 8); lia.
  - destruct IH as ((Hsc & Hnm & (Hf0 & Hq0 & Hm0) & (Hf1 & Hq1 & Hm1)) & Hcur & Hdphi).
    assert (Hcases : cursor s = 0 \/ cursor s = 1 \/ cursor s = 2 \/ cursor s = 3
                     \/ cursor s = 4 \/ cursor s = 5 \/ cursor s = 6
                     \/ cursor s = 7 \/ cursor s = 8) by lia.
    destruct Hcases as [Hk|Hcases].
    { rewrite (encoder_clock s s' d Hk He).
      cbn [state_clock noise_mode state_filter cursor clk_dphi]. unfold BNC_MAX_PARAM.
      pose proof (constrain_range (state_clock s + d) 0 63 ltac:(lia)) as Hr.
      pose proof (clock_increments _ Hr) as [Hci _]. lia. }
    unfold OnEncoderMove in He. cbn [get] in *.
    repeat (destruct Hcases as [Hk|Hcases];
      [rewrite Hk in He; cbv beta iota zeta in He; unfold BNC_MAX_PARAM in He;
       rewrite u8_constrain in He by lia; injection He as <-;
       cbn [with_filter_state state_clock noise_mode state_filter cursor clk_dphi
              get set at0 at1 f q mode];
       match goal with
       | |- context [constrain ?a 0 ?h] =>
           pose proof (constrain_range a 0 h ltac:(lia))
       end; lia|]).
    rewrite Hcases in He. cbv beta iota zeta in He. injection He as <-. lia.
  - destruct IH as (Hp & Hcur & Hdphi).
    apply Controller_inv in Hc. destruct Hc as (phi & n & _ & -> & _).
    cbn [after_tick state_clock noise_mode state_filter cursor clk_dphi].
    split; [exact Hp|]. split; assumption.
Qed.

(** X13. An encoder step adds the direction to the parameter the cursor
    points at and saturates the sum at 0 and at the parameter's maximum.
    On every cursor but the clock's, a step that does not saturate is
    undone by the opposite step: the state is restored exactly. *)
Theorem OnEncoderMove_saturates (s : state F) (d v top : Z) :
  addressed s = Some (v, top) ->
  exists s' : state F,
    OnEncoderMove s d = Ok s' /\
    addressed s' = Some (constrain (v + d) 0 top, top) /\
    0 <= constrain (v + d) 0 top <= top /\
    (cursor s <> 0 -> 0 <= v <= top -> 0 <= v + d <= top ->
     OnEncoderMove s' (- d) = Ok s).
Proof.
  destruct s as [c nm flt [[f0 q0 m0] [f1 q1 m1]] sc ph dp ns hd].
  unfold addressed. cbn [cursor state_clock noise_mode state_filter get at0 at1 f q mode].
  intros Ha. split_cursor c; try discriminate; injection Ha as <- <-.
  1: { destruct (OnEncoderMove_total
                {| cursor := 0; noise_mode := nm; filter := flt;
                   state_filter := Two (mkFilterState f0 q0 m0) (mkFilterState f1 q1 m1);
                   state_clock := sc; clk_phi := ph; clk_dphi := dp;
                   noise := ns; _noise := hd |} d) as [s' He].
    exists s'. split; [exact He|].
    pose proof He as Hs. apply encoder_clock in Hs; [|reflexivity].
    cbv zeta in Hs. rewrite Hs.
    cbn [cursor state_clock noise_mode state_filter get at0 at1 f q mode].
    split; [reflexivity|].
    split; [apply constrain_range; unfold BNC_MAX_PARAM; lia|].
    intros Hne. now contradiction Hne. }
  all: eexists; (split; [reflexivity|]);
    cbn [cursor state_clock noise_mode state_filter get at0 at1 f q mode
           with_filter_state set];
    unfold BNC_MAX_PARAM; rewrite u8_constrain by lia;
    (split; [reflexivity|]); (split; [apply constrain_range; lia|]);
    intros _ Hv Hvd; unfold OnEncoderMove;
    cbn [cursor state_clock noise_mode state_filter get at0 at1 f q mode
           with_filter_state set clk_phi clk_dphi noise _noise filter];
    match goal with
    | |- context [constrain (constrain (?v + ?e) 0 ?t + - ?e) 0 _] =>
        rewrite (constrain_inside (v + e)) by lia;
        replace (v + e + - e) with v by lia
    end;
    unfold BNC_MAX_PARAM; rewrite constrain_inside, u8_small by lia; reflexivity.
Qed.


End Surface.

Lemma OnButtonPress_cycles_witness :
  NoiseLake.cursor (NoiseLake.OnButtonPress Run.started) = 1 /\
  Nat.iter 9 NoiseLake.OnButtonPress Run.started = Run.started.
Proof.
  assert (Hc : 0 <= NoiseLake.cursor Run.started <= 8)
    by (vm_compute; split; discriminate).
  destruct (OnButtonPress_cycles Run.started Hc) as (H1 & H2 & _).
  split; [exact H1|exact H2].
Defined.

Lemma reachable_in_range_witness :
  0 <= NoiseLake.state_clock (NoiseLake.OnButtonPress Run.started) <= 63 /\
  0 <= NoiseLake.clk_dphi (NoiseLake.OnButtonPress Run.started) <= CLK_PHI_MAX + 1.
Proof.
  assert (Hr : reachable (NoiseLake.OnButtonPress Run.started))
    by (apply reach_button, reach_Start, reach_power_on).
  destruct (reachable_in_range _ Hr) as ((Hsc & _) & _ & Hd).
  split; [exact Hsc|exact Hd].
Defined.

Lemma OnEncoderMove_saturates_witness :
  exists s' : NoiseLake.state SVF.svf,
    NoiseLake.OnEncoderMove (NoiseLake.OnButtonPress Run.started) 5 = Ok s' /\
    addressed s' = Some (2, 2).
Proof.
  assert (Ha : addressed (NoiseLake.OnButtonPress Run.started) = Some (1, 2))
    by reflexivity.
  destruct (OnEncoderMove_saturates (NoiseLake.OnButtonPress Run.started) 5 1 2 Ha)
    as (s' & He & Hs & _).
  exists s'. split; [exact He|exact Hs].
Defined.
(** ** The tick of HEM_NoiseLake.ino under the control surface *)

Lemma lxor_pow2_changes (a k : Z) : 0 <= k -> Z.lxor a (2 ^ k) <> a.
Proof.
  intros Hk Heq.
  assert (Hz : Z.lxor a (Z.lxor a (2 ^ k)) = 0) by (rewrite Heq; apply Z.lxor_nilpotent).
  rewrite <- Z.lxor_assoc, Z.lxor_nilpotent, Z.lxor_0_l in Hz.
  pose proof (Z.pow_pos_nonneg 2 k ltac:(lia) Hk). lia.
Qed.

Lemma tap_defined (F : Type) (E : Env F) (m x u u' : Z) (flt : F) :
  0 <= m <= 4 -> tap m x flt u = tap m x flt u'.
Proof.
  intros Hm.
  assert (Hcases : m = 0 \/ m = 1 \/ m = 2 \/ m = 3 \/ m = 4) by lia.
  repeat (destruct Hcases as [->|Hcases]; [reflexivity|]). subst m. reflexivity.
Qed.

Lemma tap_undefined (F : Type) (E : Env F) (m x u : Z) (flt : F) :
  ~ 0 <= m <= 4 -> tap m x flt u = u.
Proof.
  intros Hm. unfold tap, FILTER_MODE_OFF, FILTER_MODE_LP, FILTER_MODE_BP,
    FILTER_MODE_HP, FILTER_MODE_NOTCH.
  repeat match goal with
         | |- context [?a =? ?b] => destruct (Z.eqb_spec a b); [lia|]
         end.
  reflexivity.
Qed.

Section TickProperties.

Import NoiseLake.
Context {F : Type} `{Env F}.

Lemma Controller_completes (s : state F) (i : tick_in) :
  noise_mode s <> NOISE_MODE_CRACKLE ->
  exists (s' : state F) (tr : list event), Controller s i = Ok (s', tr).
Proof.
  intros Hm. destruct (Controller s i) as [[s' tr]|e] eqn:Hc.
  - eauto.
  - apply Controller_fault_iff in Hc. tauto.
Qed.

Lemma clk_advance_top (phi : Z) :
  0 <= phi < 2 ^ 64 - 2 ^ 17 ->
  clk_advance phi (CLK_PHI_MAX + 1) = (phi + 1, true).
Proof.
  intros Hphi. unfold clk_advance, CLK_PHI_MAX in *.
  change (2 ^ 64) with 18446744073709551616 in Hphi.
  change (2 ^ 17) with 131072 in Hphi.
  rewrite (u64_small (phi + (65535 + 1))) by lia.
  destruct (Z.geb_spec (phi + (65535 + 1)) 65535); [|lia].
  rewrite u64_small by lia. f_equal. lia.
Qed.

Lemma clk_run_top (n : nat) : forall phi : Z,
  0 <= phi -> phi + Z.of_nat n < 2 ^ 64 - 2 ^ 17 ->
  clk_run n phi (CLK_PHI_MAX + 1) = (phi + Z.of_nat n, Z.of_nat n).
Proof.
  induction n as [|n IH]; intros phi Hlo Hhi.
  - cbn [clk_run]. f_equal. change (Z.of_nat 0) with 0. lia.
  - cbn [clk_run]. rewrite clk_advance_top by lia.
    rewrite IH by lia. f_equal; lia.
Qed.

(** X14. Turning the clock-rate parameter to its top value 63 sets the
    phase increment to [CLK_PHI_MAX + 1], one more than the period of
    the phase. From then on every tick of the clocked noise modes wraps
    and leaves the phase one higher than before: the phase is not
    brought back below [CLK_PHI_MAX] but climbs by one per tick. *)
Theorem top_rate_phase_climbs (s : state F) (d : Z) (i : tick_in) :
  cursor s = 0 -> noise_mode s <> NOISE_MODE_CRACKLE ->
  63 <= state_clock s + d ->
  0 <= clk_phi s < 2 ^ 64 - 2 ^ 17 ->
  exists (s1 s2 : state F) (tr : list event),
    OnEncoderMove s d = Ok s1 /\
    state_clock s1 = 63 /\ clk_dphi s1 = CLK_PHI_MAX + 1 /\
    Controller s1 i = Ok (s2, tr) /\
    clk_phi s2 = clk_phi s + 1 /\ clk_dphi s2 = CLK_PHI_MAX + 1 /\
    (forall n : nat,
       clk_phi s + Z.of_nat n < 2 ^ 64 - 2 ^ 17 ->
       clk_run n (clk_phi s) (clk_dphi s1) = (clk_phi s + Z.of_nat n, Z.of_nat n)).
Proof.
  intros Hc Hm Hd Hphi.
  destruct (OnEncoderMove_total s d) as [s1 He].
  pose proof (encoder_clock s s1 d Hc He) as Hs1. cbv zeta in Hs1.
  unfold BNC_MAX_PARAM in Hs1.
  assert (Hk : constrain (state_clock s + d) 0 63 = 63).
  { unfold constrain. destruct (Z.ltb_spec (state_clock s + d) 0); [lia|].
    destruct (Z.gtb_spec (state_clock s + d) 63); lia. }
  rewrite Hk in Hs1.
  change (CLKSetCFreq (nth (Z.to_nat 63) FREQ_SCALE 0 * 100)) with (CLK_PHI_MAX + 1) in Hs1.
  assert (Hm1 : noise_mode s1 <> NOISE_MODE_CRACKLE) by (rewrite Hs1; exact Hm).
  destruct (Controller_completes s1 i Hm1) as (s2 & tr & Hc2).
  exists s1, s2, tr.
  assert (Hd1 : clk_dphi s1 = CLK_PHI_MAX + 1) by (rewrite Hs1; reflexivity).
  assert (Hp1 : clk_phi s1 = clk_phi s) by (rewrite Hs1; reflexivity).
  split; [exact He|]. split; [rewrite Hs1; reflexivity|]. split; [exact Hd1|].
  split; [exact Hc2|].
  pose proof (Controller_clock _ _ _ _ Hc2) as Hclk.
  destruct (Z.eqb_spec (noise_mode s1) NOISE_MODE_CRACKLE) as [Hx|_]; [contradiction|].
  rewrite Hd1, Hp1, clk_advance_top in Hclk by exact Hphi.
  split; [exact Hclk|].
  split.
  - apply Controller_inv in Hc2. destruct Hc2 as (phi & n & _ & -> & _). exact Hd1.
  - intros n Hn. rewrite Hd1. apply clk_run_top; lia.
Qed.

(** X15. [Start] sets the clock to the sample rate: the noise value it
    draws is never negative, and every tick that follows wraps, leaves
    the phase where it was and, [Start] having selected BitFlip, toggles
    one bit of the biased noise value, so the noise value changes on
    every tick. *)
Theorem Start_then_every_tick_flips (s : state F) (rnd : Z) (i : tick_in) :
  0 <= clk_phi s < 2 ^ 64 - 2 ^ 17 ->
  0 <= noise (Start s rnd) <= 2046 /\
  clk_dphi (Start s rnd) = CLK_PHI_MAX /\
  exists (s' : state F) (tr : list event),
    Controller (Start s rnd) i = Ok (s', tr) /\
    clk_phi s' = clk_phi s /\
    noise s' + NOISE_VALUE_MAX =
      Z.lxor (noise (Start s rnd) + NOISE_VALUE_MAX) (2 ^ random (rnd1 i) 0 12) /\
    noise s' <> noise (Start s rnd).
Proof.
  intros Hphi.
  change (2 ^ 64) with 18446744073709551616 in Hphi.
  change (2 ^ 17) with 131072 in Hphi.
  assert (Hn0 : 0 <= noise (Start s rnd) <= 2046).
  { cbn [Start noise]. unfold NOISE_VALUE_MAX.
    pose proof (random_range rnd 0 2047 ltac:(lia)) as Hr.
    rewrite i16_small by (unfold in_i16; lia). lia. }
  split; [exact Hn0|]. split; [reflexivity|].
  assert (Hadv : clk_advance (clk_phi s) CLK_PHI_MAX = (clk_phi s, true)).
  { unfold clk_advance, CLK_PHI_MAX. rewrite (u64_small (clk_phi s + 65535)) by lia.
    destruct (Z.geb_spec (clk_phi s + 65535) 65535); [|lia].
    rewrite u64_small by lia. f_equal. lia. }
  pose proof (noise_source_bitflip (clk_phi s) CLK_PHI_MAX (noise (Start s rnd))
                (rnd1 i) (rnd2 i)) as Hsrc.
  rewrite Hadv in Hsrc. specialize (Hsrc eq_refl). cbn [fst] in Hsrc.
  eexists. eexists. split.
  - apply Controller_after_source. exact Hsrc.
  - cbn [after_tick clk_phi]. split; [reflexivity|].
    pose proof (random_range (rnd1 i) 0 12 ltac:(lia)) as Hk.
    pose proof (bitflip_range (noise (Start s rnd)) (random (rnd1 i) 0 12)
                  ltac:(lia) Hk) as (_ & Hb & _).
    change (noise (after_tick (Start s rnd) i (clk_phi s)
                     (bitflip NOISE_VALUE_MAX (noise (Start s rnd)) (random (rnd1 i) 0 12))))
      with (bitflip 2047 (noise (Start s rnd)) (random (rnd1 i) 0 12)).
    unfold NOISE_VALUE_MAX. split; [exact Hb|].
    intros Heq. rewrite Heq in Hb.
    symmetry in Hb. revert Hb. apply lxor_pow2_changes. lia.
Qed.

(** X16. A Crackle tick whose draw [eta] is not below the phase
    increment completes, leaves the phase alone and replaces the noise
    value by three quarters of it, truncated towards zero: the sign is
    kept and the magnitude shrinks strictly until the value is 0. *)
Theorem crackle_decays (s : state F) (i : tick_in) :
  noise_mode s = NOISE_MODE_CRACKLE ->
  clk_dphi s <= u16 (random (rnd1 i) 0 CLK_PHI_MAX) ->
  -32768 <= noise s <= 32767 ->
  exists (s' : state F) (tr : list event),
    Controller s i = Ok (s', tr) /\
    clk_phi s' = clk_phi s /\
    noise s' = Z.quot (noise s * 3) 4 /\
    Z.abs (noise s') <= Z.abs (noise s) /\
    (noise s <> 0 -> Z.abs (noise s') < Z.abs (noise s)) /\
    (0 <= noise s -> 0 <= noise s') /\ (noise s <= 0 -> noise s' <= 0).
Proof.
  intros Hm Heta Hn.
  assert (Hsrc : noise_source (noise_mode s) (clk_phi s) (clk_dphi s) (noise s)
                   (rnd1 i) (rnd2 i) = Ok (clk_phi s, Z.quot (noise s * 3) 4)).
  { unfold noise_source. rewrite Hm. cbn [Z.eqb NOISE_MODE_CRACKLE Pos.eqb].
    destruct (Z.ltb_spec (u16 (random (rnd1 i) 0 CLK_PHI_MAX)) (clk_dphi s)); [lia|].
    rewrite i16_small by (unfold in_i16; lia). reflexivity. }
  eexists. eexists. split; [apply Controller_after_source; exact Hsrc|].
  cbn [after_tick clk_phi noise]. split; [reflexivity|]. split; [reflexivity|].
  lia.
Qed.

(** X17. The local array [signal] is written by every case of the
    switch over the filter mode: with both filter modes within 0 to 4 a
    tick does not depend on what the array held on entry. With a mode
    outside 0 to 4 no case matches and the channel emits the
    indeterminate content, halved. *)
Theorem signal_written_before_read (s : state F) (i : tick_in) :
  (forall u : two Z,
     0 <= mode (get (state_filter s) Ch0) <= 4 ->
     0 <= mode (get (state_filter s) Ch1) <= 4 ->
     Controller s (mkTickIn (rnd1 i) (rnd2 i) (Gate i) u) = Controller s i) /\
  (forall (ch : channel) (s' : state F) (tr : list event),
     ~ 0 <= mode (get (state_filter s) ch) <= 4 ->
     Controller s i = Ok (s', tr) ->
     out_of ch tr = Some (Z.quot (get (undef_signal i) ch) 2)).
Proof.
  split.
  - intros u H0 H1.
    destruct (noise_source (noise_mode s) (clk_phi s) (clk_dphi s) (noise s)
                (rnd1 i) (rnd2 i)) as [[phi n]|e] eqn:Hsrc.
    + rewrite (Controller_after_source s i phi n Hsrc).
      rewrite (Controller_after_source s (mkTickIn (rnd1 i) (rnd2 i) (Gate i) u) phi n Hsrc).
      unfold channel_trace, after_tick, held. cbn [Gate undef_signal].
      rewrite (tap_defined F _ (mode (get (state_filter s) Ch0)) _
                 (get u Ch0) (get (undef_signal i) Ch0)) by exact H0.
      rewrite (tap_defined F _ (mode (get (state_filter s) Ch1)) _
                 (get u Ch1) (get (undef_signal i) Ch1)) by exact H1.
      reflexivity.
    + rewrite (Controller_fault_source s i e Hsrc).
      apply (Controller_fault_source s (mkTickIn (rnd1 i) (rnd2 i) (Gate i) u) e Hsrc).
  - intros ch s' tr Hmode Hc.
    apply Controller_inv in Hc. destruct Hc as (phi & n & _ & _ & ->).
    rewrite out_of_tick, tap_undefined by exact Hmode. reflexivity.
Qed.

End TickProperties.

Lemma top_rate_phase_climbs_witness :
  exists (s1 s2 : NoiseLake.state SVF.svf) (tr : list event),
    NoiseLake.OnEncoderMove Run.started 0 = Ok s1 /\
    NoiseLake.Controller s1 (Run.tick 0 0 false) = Ok (s2, tr) /\
    NoiseLake.clk_phi s2 = 1.
Proof.
  destruct (top_rate_phase_climbs Run.started 0 (Run.tick 0 0 false))
    as (s1 & s2 & tr & He & _ & _ & Hc & Hphi & _).
  - reflexivity.
  - discriminate.
  - vm_compute. discriminate.
  - vm_compute. split; [discriminate|reflexivity].
  - exists s1, s2, tr. split; [exact He|]. split; [exact Hc|exact Hphi].
Defined.

Lemma Start_then_every_tick_flips_witness :
  0 <= NoiseLake.noise Run.started <= 2046 /\
  NoiseLake.clk_dphi Run.started = CLK_PHI_MAX.
Proof.
  assert (Hphi : 0 <= NoiseLake.clk_phi (NoiseLake.power_on (F := SVF.svf)) < 2 ^ 64 - 2 ^ 17)
    by (vm_compute; split; [discriminate|reflexivity]).
  destruct (Start_then_every_tick_flips NoiseLake.power_on 2045 (Run.tick 0 0 false) Hphi)
    as (Hn & Hd & _).
  split; [exact Hn|exact Hd].
Defined.

Lemma crackle_decays_witness :
  exists (s' : NoiseLake.state SVF.svf) (tr : list event),
    NoiseLake.Controller
      (NoiseLake.mkState 1 NOISE_MODE_CRACKLE (Two SVF.svf_env.(filter_init) SVF.svf_env.(filter_init))
         (Two (mkFilterState 32 32 0) (mkFilterState 32 32 0)) 63 0 196 (-1001) (Two 0 0))
      (Run.tick 200 0 false) = Ok (s', tr) /\
    NoiseLake.noise s' = -750.
Proof.
  destruct (crackle_decays
              (NoiseLake.mkState 1 NOISE_MODE_CRACKLE
                 (Two SVF.svf_env.(filter_init) SVF.svf_env.(filter_init))
                 (Two (mkFilterState 32 32 0) (mkFilterState 32 32 0))
                 63 0 196 (-1001) (Two 0 0))
              (Run.tick 200 0 false))
    as (s' & tr & Hc & _ & Hn & _).
  - reflexivity.
  - vm_compute. discriminate.
  - vm_compute. split; discriminate.
  - exists s', tr. split; [exact Hc|exact Hn].
Defined.

Lemma signal_written_before_read_witness :
  NoiseLake.Controller Run.started
    (NoiseLake.mkTickIn 5 7 (Two false true) (Two 123 (-456)))
  = NoiseLake.Controller Run.started
      (NoiseLake.mkTickIn 5 7 (Two false true) (Two 0 0)).
Proof.
  destruct (signal_written_before_read Run.started
              (NoiseLake.mkTickIn 5 7 (Two false true) (Two 0 0))) as [Hd _].
  apply (Hd (Two 123 (-456))); vm_compute; split; discriminate.
Defined.
(** ** The wavefolder version under its control surface *)

Lemma CFREQ_SCALE_entries (p : Z) :
  0 <= p <= 111 ->
  2750 <= nth (Z.to_nat p) NoiseLakeFold.CFREQ_SCALE 0 <= FSAMPLE_CHZ.
Proof.
  intros Hp.
  assert (Hall : forallb (fun n : nat =>
            let v := nth n NoiseLakeFold.CFREQ_SCALE 0 in
            (2750 <=? v) && (v <=? FSAMPLE_CHZ)) (seq 0 112) = true)
    by (vm_compute; reflexivity).
  rewrite forallb_forall in Hall.
  specialize (Hall (Z.to_nat p) ltac:(apply in_seq; lia)). cbv zeta in Hall.
  apply andb_prop in Hall. destruct Hall as [Hlo Hhi].
  apply Z.leb_le in Hlo, Hhi. lia.
Qed.

Section FoldProperties.

Import NoiseLakeFold.
Context {F : Type} `{Env F}.

Lemma Fold_noise_source_phase (nm phi dphi noise r1 r2 in0 phi' n : Z) :
  noise_source nm phi dphi noise r1 r2 in0 = Ok (phi', n) ->
  phi' = if nm =? NOISE_MODE_CRACKLE then phi else fst (clk_advance phi dphi).
Proof.
  unfold noise_source.
  destruct (nm =? NOISE_MODE_CRACKLE).
  - destruct (_ <? dphi).
    + destruct (cdiv dphi _); cbn [bind]; [|discriminate]. now intros [= <- _].
    + now intros [= <- _].
  - destruct (clk_advance phi dphi) as [p w]. cbn [fst].
    destruct w; [|now intros [= <- _]].
    destruct (nm =? NOISE_MODE_BITFLIP); [now intros [= <- _]|].
    destruct (nm =? NOISE_MODE_LINEIN); [|now intros [= <- _]].
    destruct (Proportion _ _ _); cbn [bind]; [|discriminate]. now intros [= <- _].
Qed.

(** What a completed tick leaves of the state, and its second output. *)
Lemma Fold_Controller_frame (s s' : state F) (i : tick_in) (tr : list event) :
  Controller s i = Ok (s', tr) ->
  cursor s' = cursor s /\ noise_mode s' = noise_mode s /\
  state_clock s' = state_clock s /\ state_filter s' = state_filter s /\
  state_wavefolder s' = state_wavefolder s /\ clk_dphi s' = clk_dphi s /\
  clk_phi s' =
    (if noise_mode s =? NOISE_MODE_CRACKLE then clk_phi s
     else fst (clk_advance (clk_phi s) (clk_dphi s))) /\
  exists drive folded : Z,
    InterpolationFolder (i16 drive) = Ok folded /\
    out_of Ch1 tr = Some (Z.quot (i16 (4 * folded)) 2).
Proof.
  unfold Controller. intros Hc.
  destruct (noise_source _ _ _ _ _ _ _) as [[phi n]|e] eqn:Hn; cbn [bind] in Hc;
    [|discriminate].
  apply Fold_noise_source_phase in Hn.
  destruct (Parameter2Frequency _) as [p2f|e]; cbn [bind] in Hc; [|discriminate].
  destruct (Proportion (q _) _ _) as [pq|e]; cbn [bind] in Hc; [|discriminate].
  destruct (Proportion (state_wavefolder s) _ _) as [drive|e]; cbn [bind] in Hc;
    [|discriminate].
  destruct (InterpolationFolder (i16 drive)) as [folded|e] eqn:Hf; cbn [bind] in Hc;
    [|discriminate].
  injection Hc as <- <-.
  cbn [cursor noise_mode state_clock state_filter state_wavefolder clk_dphi clk_phi].
  repeat (split; [reflexivity|]). split; [exact Hn|].
  exists drive, folded. split; [exact Hf|reflexivity].
Qed.

Lemma Fold_OnEncoderMove_total (s : state F) (d : Z) :
  exists s' : state F, OnEncoderMove s d = Ok s'.
Proof.
  unfold OnEncoderMove.
  assert (Hclk : exists clk,
            Parameter2Clk (u8 (constrain (state_clock s + d) 0 NL_MAX_PARAM)) = Ok clk).
  { rewrite Fold_Parameter2Clk_value by apply u8_range. eauto. }
  destruct Hclk as [clk Hclk].
  split_cursor (cursor s); try (eexists; reflexivity).
  rewrite Hclk. cbn [bind]. eexists. reflexivity.
Qed.

Lemma Fold_encoder_clock (s s' : state F) (d : Z) :
  cursor s = 0 -> OnEncoderMove s d = Ok s' ->
  let sc := constrain (state_clock s + d) 0 NL_MAX_PARAM in
  s' = {| cursor := cursor s; noise_mode := noise_mode s;
          filter := filter s; state_clock := sc;
          state_filter := state_filter s;
          state_wavefolder := state_wavefolder s;
          clk_phi := clk_phi s;
          clk_dphi := CLKSetCFreq (nth (Z.to_nat sc) CFREQ_SCALE 0);
          noise := noise s |}.
Proof.
  intros Hc He sc. unfold OnEncoderMove in He. rewrite Hc in He.
  cbv beta iota zeta in He. unfold NL_MAX_PARAM in *.
  rewrite u8_constrain in He by lia. fold sc in He.
  pose proof (constrain_range (state_clock s + d) 0 111 ltac:(lia)) as Hr.
  fold sc in Hr.
  rewrite Fold_Parameter2Clk_value in He by lia. rewrite Z.min_l in He by lia.
  cbn [bind] in He. injection He as <-. now rewrite Hc.
Qed.

(** X18. In the wavefolder version every state the host can reach has
    its parameters within the ranges [constrain] allows, its cursor
    within 0 to 5, the phase increment within [[0, CLK_PHI_MAX]] and the
    clock phase within [[0, CLK_PHI_MAX)]: every entry of the rate
    table is at most the sample rate, so here the phase never leaves
    its period. *)
Theorem fold_reachable_in_range (s : state F) :
  fold_reachable s -> fold_in_range s /\ 0 <= cursor s <= 5.
Proof.
  unfold fold_in_range, NL_MAX_PARAM, CFREQ_SCALE_IDX_C7.
  induction 1 as [|s rnd _ IH|s _ IH|s s' d _ IH Hd He|s s' i tr _ IH Hc].
  - vm_compute. repeat split; discriminate.
  - destruct IH as ((Hsc & _ & _ & _ & _ & _ & Hphi & _) & Hcur).
    cbn [Start state_clock noise_mode state_filter state_wavefolder f q mode
           cursor clk_phi clk_dphi].
    change (CLKSetCFreq FSAMPLE_CHZ) with 65535.
    unfold NOISE_MODE_BITFLIP, FILTER_MODE_LP, CLK_PHI_MAX in *. lia.
  - destruct IH as (Hp & Hcur).
    cbn [OnButtonPress state_clock noise_mode state_filter state_wavefolder
           cursor clk_phi clk_dphi].
    split; [exact Hp|].
    rewrite i32_small by lia. destruct (Z.gtb_spec (cursor s + 1) 5); lia.
  - destruct IH as ((Hsc & Hnm & Hf & Hq & Hm & Hw & Hphi & Hdphi) & Hcur).
    assert (Hcases : cursor s = 0 \/ cursor s = 1 \/ cursor s = 2 \/ cursor s = 3
                     \/ cursor s = 4 \/ cursor s = 5) by lia.
    destruct Hcases as [Hk|Hcases].
    { rewrite (Fold_encoder_clock s s' d Hk He).
      cbn [state_clock noise_mode state_filter state_wavefolder cursor clk_phi clk_dphi].
      unfold NL_MAX_PARAM.
      pose proof (constrain_range (state_clock s + d) 0 111 ltac:(lia)) as Hr.
      pose proof (CFREQ_SCALE_entries _ Hr) as He'.
      pose proof (CLKSetCFreq_bound
                    (nth (Z.to_nat (constrain (state_clock s + d) 0 111)) CFREQ_SCALE 0)
                    ltac:(lia)) as Hb.
      lia. }
    unfold OnEncoderMove in He.
    repeat (destruct Hcases as [Hk|Hcases];
      [rewrite Hk in He; cbv beta iota zeta in He; injection He as <-;
       cbn [with_filter_state state_clock noise_mode state_filter state_wavefolder
              cursor clk_phi clk_dphi f q mode];
       unfold NL_MAX_PARAM, CFREQ_SCALE_IDX_C7;
       try rewrite u8_constrain by lia;
       repeat match goal with
              | |- context [constrain ?a ?l ?h] =>
                  lazymatch goal with
                  | _ : l <= constrain a l h <= h |- _ => fail
                  | _ => pose proof (constrain_range a l h ltac:(lia))
                  end
              end;
       try rewrite i16_small by (unfold in_i16; lia); lia|]).
    rewrite Hcases in He. cbv beta iota zeta in He. injection He as <-.
    cbn [state_clock noise_mode state_filter state_wavefolder cursor clk_phi clk_dphi].
    unfold NL_MAX_PARAM.
    pose proof (constrain_range (state_wavefolder s + d) 1 111 ltac:(lia)).
    rewrite i16_small by (unfold in_i16; lia). lia.
  - destruct IH as ((Hsc & Hnm & Hf & Hq & Hm & Hw & Hphi & Hdphi) & Hcur).
    apply Fold_Controller_frame in Hc.
    destruct Hc as (-> & -> & -> & -> & -> & -> & -> & _).
    split; [|exact Hcur].
    repeat (split; [assumption|]).
    split; [|exact Hdphi].
    destruct (noise_mode s =? NOISE_MODE_CRACKLE); [exact Hphi|].
    rewrite clk_advance_mod by assumption. cbn [fst].
    unfold CLK_PHI_MAX. lia.
Qed.


End FoldProperties.

Lemma fold_reachable_in_range_witness :
  0 <= NoiseLakeFold.clk_phi (NoiseLakeFold.OnButtonPress Run.fold_started) < CLK_PHI_MAX /\
  0 <= NoiseLakeFold.clk_dphi (NoiseLakeFold.OnButtonPress Run.fold_started) <= CLK_PHI_MAX.
Proof.
  assert (Hr : fold_reachable (NoiseLakeFold.OnButtonPress Run.fold_started))
    by (apply fold_reach_button, fold_reach_Start, fold_reach_power_on).
  destruct (fold_reachable_in_range _ Hr)
    as ((_ & _ & _ & _ & _ & _ & Hphi & Hd) & _).
  split; [exact Hphi|exact Hd].
Defined.

(** ** The filter icons *)

Section Icons.

Import FilterIcon.

Lemma icon_step (q : Z) :
  0 <= q <= 255 ->
  0 <= u8 (Z.quot (u8 (u8 q + 1)) 16) <= 15 /\
  (q <= 78 -> u8 (Z.quot (u8 (u8 q + 1)) 16) <= 4) /\
  (79 <= q <= 254 -> 5 <= u8 (Z.quot (u8 (u8 q + 1)) 16)).
Proof.
  intros Hq. rewrite (u8_small q) by lia.
  assert (Hs : 0 <= Z.quot (u8 (q + 1)) 16 <= 15).
  { pose proof (u8_range (q + 1)). lia. }
  rewrite (u8_small (Z.quot _ 16)) by lia.
  split; [exact Hs|]. split; intros Hr; rewrite u8_small by lia; lia.
Qed.

(** X20. Each filter icon is one connected polyline across the 16
    columns from [x] to [x + 15] (the high-pass icon drawn from right
    to left). For a resonance parameter up to 78 all four stay within
    the 8 rows from [y] to [y + 7]; from 79 on, a value the 112-step
    resonance of the wavefolder version reaches, every one of them
    leaves those rows. *)
Theorem icons_connected_in_cell (x y q : Z) :
  0 <= x <= 255 -> 0 <= y <= 248 -> 0 <= q <= 255 ->
  (chained (DrawFilterLP x y q) /\ chained (DrawFilterHP x y q) /\
   chained (DrawFilterBP x y q) /\ chained (DrawFilterNotch x y q)) /\
  (first_point (DrawFilterLP x y q) = Some (x, y + 3) /\
   last_point (DrawFilterLP x y q) = Some (x + 15, y + 7) /\
   first_point (DrawFilterHP x y q) = Some (x + 15, y + 3) /\
   last_point (DrawFilterHP x y q) = Some (x, y + 7) /\
   first_point (DrawFilterBP x y q) = Some (x, y + 7) /\
   last_point (DrawFilterBP x y q) = Some (x + 15, y + 7) /\
   first_point (DrawFilterNotch x y q) = Some (x, y + 3) /\
   last_point (DrawFilterNotch x y q) = Some (x + 15, y + 3)) /\
  (q <= 78 ->
   forallb (in_cell x y) (DrawFilterLP x y q) = true /\
   forallb (in_cell x y) (DrawFilterHP x y q) = true /\
   forallb (in_cell x y) (DrawFilterBP x y q) = true /\
   forallb (in_cell x y) (DrawFilterNotch x y q) = true) /\
  (79 <= q <= 254 ->
   forallb (in_cell x y) (DrawFilterLP x y q) = false /\
   forallb (in_cell x y) (DrawFilterHP x y q) = false /\
   forallb (in_cell x y) (DrawFilterBP x y q) = false /\
   forallb (in_cell x y) (DrawFilterNotch x y q) = false).
Proof.
  intros Hx Hy Hq.
  unfold DrawFilterLP, DrawFilterHP, DrawFilterBP, DrawFilterNotch. cbv zeta.
  rewrite ?(u8_small x), ?(u8_small y), ?(u8_small (y + 7)),
          ?(u8_small (y + 7 - 4)) by lia.
  destruct (icon_step q ltac:(lia)) as (Hs & Hin & Hout).
  generalize dependent (u8 (Z.quot (u8 (u8 q + 1)) 16)). intros qs Hs Hin Hout.
  split; [|split; [|split]].
  - cbn [chained x1 y1 x2 y2]. repeat split.
  - unfold first_point, last_point. cbn [rev app x1 y1 x2 y2].
    repeat split; f_equal; f_equal; lia.
  - intros Hq78. specialize (Hin Hq78).
    cbv beta iota delta [forallb in_cell x1 y1 x2 y2].
    repeat split;
      repeat (apply andb_true_intro; split); try reflexivity; apply Z.leb_le; lia.
  - intros Hq79. specialize (Hout Hq79).
    cbv beta iota delta [forallb in_cell x1 y1 x2 y2].
    repeat split.
    + replace (y <=? y + 7 - 4 - qs + 1) with false
        by (symmetry; apply Z.leb_gt; lia).
      rewrite ?andb_false_r, ?andb_false_l. reflexivity.
    + replace (y <=? y + 7 - 4 - qs + 1) with false
        by (symmetry; apply Z.leb_gt; lia).
      rewrite ?andb_false_r, ?andb_false_l. reflexivity.
    + replace (y <=? y + 7 - 4 - qs + 1) with false
        by (symmetry; apply Z.leb_gt; lia).
      rewrite ?andb_false_r, ?andb_false_l. reflexivity.
    + replace (y + 7 - 4 + qs <=? y + 7) with false
        by (symmetry; apply Z.leb_gt; lia).
      rewrite ?andb_false_r, ?andb_false_l. reflexivity.
Qed.

(** X21. The high-pass icon is the low-pass icon reflected about the
    middle of its 16 columns, line by line, for every argument. *)
Theorem DrawFilterHP_mirrors_LP (x y q : Z) :
  DrawFilterHP x y q = mirror (u8 x) (DrawFilterLP x y q).
Proof.
  unfold DrawFilterHP, DrawFilterLP, mirror. cbv zeta. cbn [map x1 y1 x2 y2].
  repeat (f_equal; try lia).
Qed.

End Icons.

Lemma icons_connected_in_cell_witness :
  forallb (FilterIcon.in_cell 14 35) (FilterIcon.DrawFilterLP 14 35 32) = true /\
  forallb (FilterIcon.in_cell 14 35) (FilterIcon.DrawFilterLP 14 35 111) = false.
Proof.
  destruct (icons_connected_in_cell 14 35 32 ltac:(lia) ltac:(lia) ltac:(lia))
    as (_ & _ & Hin & _).
  destruct (icons_connected_in_cell 14 35 111 ltac:(lia) ltac:(lia) ltac:(lia))
    as (_ & _ & _ & Hout).
  split; [apply Hin; lia|apply Hout; lia].
Defined.
